(** * Battery cell charging / discharging simulation

    A shallow embedding of the core of [battery_dashboard.py] and
    [enhanced_battery_dashboard.py]: the chemistry table, the state-of-charge
    function, the status classifier, the per-cell update rule and the task
    sequencer that lives in Streamlit's [st.session_state].

    Numbers.  The Python code computes with binary64 floats.  They are
    embedded here as exact rationals ([Q]): every comparison, [min], [max],
    [abs] and [round] keeps the shape it has in the source, and the rounding
    error of the float operations themselves is not modelled.  Equality of
    computed quantities is therefore stated with [==] on [Q].  What is
    stated of the update rule and of the summary is what rounding leaves
    standing: which way a value moves, the bounds it is clamped to, where a
    clamp is a fixed point, and bounds that are whole numbers; the exact
    size of a step and the update at which a clamp engages differ by an
    ulp.  Module [Binary64] repeats the numeric core on primitive floats,
    to measure the difference on a worked example.

    Exceptions.  The exceptions the modelled code can raise are the
    [ZeroDivisionError] of [calculate_soc_percentage], the [KeyError] of a
    dictionary subscript, and the [StreamlitAPIException] of a number input
    whose initial value lies outside its bounds; they are kept, as the
    [Raise] outcome.

    Time and randomness.  [datetime.now()] is an argument of the code that
    reads it (an instant in microseconds; one run of the script reads one
    instant), and the state of the [random] module is a field of the
    state. *)

From Stdlib Require Import ZArith QArith Qabs Qround Lia Lqa.
From Stdlib Require Import Bool List String Ascii DecimalString.
From Stdlib Require PrimFloat DecimalNat.
Import ListNotations.

Local Open Scope string_scope.
Local Open Scope Q_scope.

(** ** Outcomes of Python code *)

Inductive exn : Type :=
| ZeroDivisionError
| KeyError (key : string)
| StreamlitAPIException.

Inductive result (A : Type) : Type :=
| Ok (a : A)
| Raise (e : exn).

Arguments Ok {A} a.
Arguments Raise {A} e.

(** ** Python builtins on numbers *)

Module Py.

(** [a < b] as a boolean. *)
Definition ltb (a b : Q) : bool := negb (Qle_bool b a).

(** [a != b] *)
Definition neqb (a b : Q) : bool := negb (Qeq_bool a b).

(** [min(a, b)]: the first argument unless the second is strictly
    smaller. *)
Definition min (a b : Q) : Q := if ltb b a then b else a.

(** [max(a, b)]: the first argument unless the second is strictly
    larger. *)
Definition max (a b : Q) : Q := if ltb a b then b else a.

(** Round half to even, to an integer. *)
Definition round_half_even (x : Q) : Z :=
  let n := Qfloor x in
  let frac := x - inject_Z n in
  if ltb frac (1 # 2) then n
  else if ltb (1 # 2) frac then (n + 1)%Z
  else if Z.even n then n else (n + 1)%Z.

(** [round(x, ndigits)], of the exact value: where [x] is a decimal tie in
    exact arithmetic, Python, which rounds the binary64 value, may go the
    other way. *)
Definition round (x : Q) (ndigits : nat) : Q :=
  let p := inject_Z (10 ^ Z.of_nat ndigits) in
  inject_Z (round_half_even (x * p)) / p.

(** [str.lower()] on ASCII text; other characters are left as they are. *)
Definition lower_ascii (c : ascii) : ascii :=
  let n := nat_of_ascii c in
  if (65 <=? n)%nat && (n <=? 90)%nat then ascii_of_nat (n + 32) else c.

Fixpoint lower (s : string) : string :=
  match s with
  | EmptyString => EmptyString
  | String c r => String (lower_ascii c) (lower r)
  end.

(** [str.upper()] on ASCII text; other characters are left as they are
    (Python maps a few of them to ASCII letters). *)
Definition upper_ascii (c : ascii) : ascii :=
  let n := nat_of_ascii c in
  if (97 <=? n)%nat && (n <=? 122)%nat then ascii_of_nat (n - 32) else c.

Fixpoint upper (s : string) : string :=
  match s with
  | EmptyString => EmptyString
  | String c r => String (upper_ascii c) (upper r)
  end.

(** [str(n)] for a non-negative integer, as an f-string prints it. *)
Definition str_of_nat (n : nat) : string :=
  NilZero.string_of_uint (Nat.to_uint n).

End Py.

(** ** The chemistry table *)

Record cell_specs : Type := mk_specs {
  spec_nominal_voltage : Q;
  spec_min_voltage : Q;
  spec_max_voltage : Q;
  spec_nominal_capacity : Q
}.

Definition get_cell_specs (cell_type : string) : cell_specs :=
  if String.eqb (Py.lower cell_type) "lfp" then
    mk_specs 3.2 2.8 3.6 100
  else if String.eqb (Py.lower cell_type) "nmc" then
    mk_specs 3.6 3.2 4.0 120
  else
    mk_specs 3.7 3.0 4.2 110.

(** ** State of charge *)

(** [max(0, min(100, ((voltage - min_voltage) / (max_voltage - min_voltage)) * 100))];
    the division raises [ZeroDivisionError] when the two bounds coincide. *)
Definition calculate_soc_percentage (voltage min_voltage max_voltage : Q)
  : result Q :=
  if Qeq_bool (max_voltage - min_voltage) 0 then Raise ZeroDivisionError
  else Ok (Py.max 0 (Py.min 100
             (((voltage - min_voltage) / (max_voltage - min_voltage)) * 100))).

(** The clamp of the specification, [clamp(lo, hi, x)]. *)
Definition clamp (lo hi x : Q) : Q :=
  if Qlt_le_dec x lo then lo else if Qlt_le_dec hi x then hi else x.

(** ** The status classifier *)

(** [get_cell_status(current)] of [battery_dashboard.py]. *)
Module Basic.

Definition get_cell_status (current : Q) : string * string :=
  if Py.ltb 0.1 current then ("Charging", "charging")
  else if Py.ltb current (-0.1) then ("Discharging", "discharging")
  else ("Idle", "idle").

End Basic.

(** [get_cell_status(current, task_running=False)] of
    [enhanced_battery_dashboard.py]. *)
Definition get_cell_status (current : Q) (task_running : bool)
  : string * string :=
  if task_running then
    if Py.ltb 0.1 current then ("Task: Charging", "task")
    else if Py.ltb current (-0.1) then ("Task: Discharging", "task")
    else ("Task: Idle", "task")
  else
    if Py.ltb 0.1 current then ("Charging", "charging")
    else if Py.ltb current (-0.1) then ("Discharging", "discharging")
    else ("Idle", "idle").

(** ** Dictionaries

    A Python [dict] with string keys: insertion-ordered bindings, subscript
    by key, assignment that overwrites in place or appends. *)

Section Dict.

Context {V : Type}.

Definition dict : Type := list (string * V).

Fixpoint dict_get (k : string) (d : dict) : option V :=
  match d with
  | [] => None
  | (k', v) :: r => if String.eqb k k' then Some v else dict_get k r
  end.

Fixpoint dict_set (k : string) (v : V) (d : dict) : dict :=
  match d with
  | [] => [(k, v)]
  | (k', v') :: r =>
      if String.eqb k k' then (k', v) :: r else (k', v') :: dict_set k v r
  end.

Definition dict_keys (d : dict) : list string := map fst d.

Definition dict_len (d : dict) : nat := List.length d.

(** [P] holds of every value one can look up. *)
Definition dict_all (P : V -> Prop) (d : dict) : Prop :=
  forall k v, dict_get k d = Some v -> P v.

End Dict.

Arguments dict V : clear implicits.

(** ** Cells *)

Record cell : Type := mk_cell {
  voltage : Q;
  current : Q;
  temp : Q;
  capacity : Q;
  min_voltage : Q;
  max_voltage : Q;
  nominal_voltage : Q;
  nominal_capacity : Q;
  soc : Q;
  cell_type : string
}.

Definition set_voltage (x : Q) (c : cell) : cell :=
  mk_cell x (current c) (temp c) (capacity c) (min_voltage c) (max_voltage c)
          (nominal_voltage c) (nominal_capacity c) (soc c) (cell_type c).

Definition set_current (x : Q) (c : cell) : cell :=
  mk_cell (voltage c) x (temp c) (capacity c) (min_voltage c) (max_voltage c)
          (nominal_voltage c) (nominal_capacity c) (soc c) (cell_type c).

Definition set_temp (x : Q) (c : cell) : cell :=
  mk_cell (voltage c) (current c) x (capacity c) (min_voltage c)
          (max_voltage c) (nominal_voltage c) (nominal_capacity c) (soc c)
          (cell_type c).

Definition set_capacity (x : Q) (c : cell) : cell :=
  mk_cell (voltage c) (current c) (temp c) x (min_voltage c) (max_voltage c)
          (nominal_voltage c) (nominal_capacity c) (soc c) (cell_type c).

Definition set_soc (x : Q) (c : cell) : cell :=
  mk_cell (voltage c) (current c) (temp c) (capacity c) (min_voltage c)
          (max_voltage c) (nominal_voltage c) (nominal_capacity c) x
          (cell_type c).

(** ** Tasks and the task history *)

Inductive task : Type :=
| CC_CV (cc_current cv_voltage current_limit capacity_ah : Q)
        (time_seconds : Z)
| IDLE (time_seconds : Z)
| CC_CD (cc_current cutoff_voltage capacity_ah : Q) (time_seconds : Z).

(** [task_data['task_type']] *)
Definition task_type (t : task) : string :=
  match t with
  | CC_CV _ _ _ _ _ => "CC_CV"
  | IDLE _ => "IDLE"
  | CC_CD _ _ _ _ => "CC_CD"
  end.

(** [task_data.get('cc_current', default)] *)
Definition get_cc_current (t : task) (default : Q) : Q :=
  match t with
  | CC_CV i _ _ _ _ => i
  | IDLE _ => default
  | CC_CD i _ _ _ => i
  end.

(** [task_data['time_seconds']] (every task has the field). *)
Definition time_seconds (t : task) : Z :=
  match t with
  | CC_CV _ _ _ _ d => d
  | IDLE d => d
  | CC_CD _ _ _ d => d
  end.

(** An instant, [datetime.now()], in microseconds. *)
Definition datetime : Type := Z.

(** [n] seconds after the origin of time. *)
Definition at_second (n : Z) : datetime := (n * 1000000)%Z.

(** [(a - b).seconds]: the seconds field of the normalised [timedelta],
    which leaves out whole days and the microseconds. *)
Definition timedelta_seconds (a b : datetime) : Z :=
  (((a - b) / 1000000) mod 86400)%Z.

Record history_entry : Type := mk_entry {
  h_timestamp : Z;      (* strftime("%Y-%m-%d %H:%M:%S"): whole seconds *)
  h_task : string;
  h_type : string;
  h_status : string
}.

(** ** The session state

    The fields of [st.session_state] (but [history], which no code reads
    or writes after its initialisation), and the state of the [random]
    module as the stream of the values that [random.random()] will
    return. *)

Record session : Type := mk_session {
  cells_data : dict cell;
  cell_types : list string;
  setup_complete : bool;
  tasks_data : dict task;
  task_running : bool;
  current_task_index : nat;
  task_start_time : option datetime;
  task_history : list history_entry;
  random_state : nat -> Q
}.

Definition set_cells_data (x : dict cell) (s : session) : session :=
  mk_session x (cell_types s) (setup_complete s) (tasks_data s)
             (task_running s) (current_task_index s) (task_start_time s)
             (task_history s) (random_state s).

Definition set_cell_types (x : list string) (s : session) : session :=
  mk_session (cells_data s) x (setup_complete s) (tasks_data s)
             (task_running s) (current_task_index s) (task_start_time s)
             (task_history s) (random_state s).

Definition set_setup_complete (x : bool) (s : session) : session :=
  mk_session (cells_data s) (cell_types s) x (tasks_data s)
             (task_running s) (current_task_index s) (task_start_time s)
             (task_history s) (random_state s).

Definition set_tasks_data (x : dict task) (s : session) : session :=
  mk_session (cells_data s) (cell_types s) (setup_complete s) x
             (task_running s) (current_task_index s) (task_start_time s)
             (task_history s) (random_state s).

Definition set_task_running (x : bool) (s : session) : session :=
  mk_session (cells_data s) (cell_types s) (setup_complete s) (tasks_data s)
             x (current_task_index s) (task_start_time s)
             (task_history s) (random_state s).

Definition set_current_task_index (x : nat) (s : session) : session :=
  mk_session (cells_data s) (cell_types s) (setup_complete s) (tasks_data s)
             (task_running s) x (task_start_time s)
             (task_history s) (random_state s).

Definition set_task_start_time (x : option datetime) (s : session)
  : session :=
  mk_session (cells_data s) (cell_types s) (setup_complete s) (tasks_data s)
             (task_running s) (current_task_index s) x
             (task_history s) (random_state s).

Definition set_task_history (x : list history_entry) (s : session)
  : session :=
  mk_session (cells_data s) (cell_types s) (setup_complete s) (tasks_data s)
             (task_running s) (current_task_index s) (task_start_time s)
             x (random_state s).

Definition set_random_state (x : nat -> Q) (s : session) : session :=
  mk_session (cells_data s) (cell_types s) (setup_complete s) (tasks_data s)
             (task_running s) (current_task_index s) (task_start_time s)
             (task_history s) x.

(** [initialize_session_state()] on an empty session. *)
Definition initialize_session_state (seed : nat -> Q) : session :=
  mk_session [] [] false [] false 0 None [] seed.

(** ** Stateful code that may raise *)

Definition M (St A : Type) : Type := St -> result A * St.

Definition ret {St A} (a : A) : M St A := fun s => (Ok a, s).

Definition bind {St A B} (m : M St A) (k : A -> M St B) : M St B :=
  fun s =>
    match m s with
    | (Ok a, s') => k a s'
    | (Raise e, s') => (Raise e, s')
    end.

Definition raise {St A} (e : exn) : M St A := fun s => (Raise e, s).

Definition get {St} : M St St := fun s => (Ok s, s).

Definition modify {St} (f : St -> St) : M St unit := fun s => (Ok tt, f s).

(** The outcome of a pure computation that may raise. *)
Definition lift {St A} (r : result A) : M St A := fun s => (r, s).

Declare Scope monad_scope.
Delimit Scope monad_scope with monad.
Notation "x <- m ;; k" := (bind m (fun x => k))
  (at level 61, m at next level, right associativity) : monad_scope.
Notation "m ;; k" := (bind m (fun _ => k))
  (at level 61, right associativity) : monad_scope.
Local Open Scope monad_scope.

(** [for x in xs: body(x)] *)
Fixpoint for_each {St A} (xs : list A) (body : A -> M St unit) : M St unit :=
  match xs with
  | [] => ret tt
  | x :: r => body x ;; for_each r body
  end.

(** ** Randomness *)

(** [random.uniform(a, b)], which is [a + (b - a) * random.random()]. *)
Definition uniform (a b : Q) (r : nat -> Q) : Q * (nat -> Q) :=
  (a + (b - a) * r 0%nat, fun n => r (S n)).

Definition random_uniform (a b : Q) : M session Q :=
  fun s =>
    let (x, r) := uniform a b (random_state s) in
    (Ok x, set_random_state r s).

(** ** The update rule of one cell

    The body of [update_cell_calculations], on the cell dictionary it has
    looked up and the random module.  The dictionary is mutated in place, so
    the fields written before an exception stay written. *)

Definition cell_world : Type := cell * (nat -> Q).

Definition the_cell : M cell_world cell := fun w => (Ok (fst w), w).

Definition assign (f : cell -> cell) : M cell_world unit :=
  modify (fun w => (f (fst w), snd w)).

Definition cell_uniform (a b : Q) : M cell_world Q :=
  fun w => let (x, r) := uniform a b (snd w) in (Ok x, (fst w, r)).

Definition update_cell : M cell_world unit :=
  cell_data <- the_cell ;;
  (* Update capacity (simplified calculation) *)
  assign (set_capacity
            (Py.round (voltage cell_data * Qabs (current cell_data)) 2)) ;;
  (* Simulate voltage change based on current (simplified model) *)
  (if Py.ltb 0 (current cell_data) then
     let voltage_change := Py.min 0.1 (current cell_data * 0.02) in
     assign (set_voltage (Py.min (max_voltage cell_data)
                                 (voltage cell_data + voltage_change)))
   else if Py.ltb (current cell_data) 0 then
     let voltage_change := Py.min 0.1 (Qabs (current cell_data) * 0.02) in
     assign (set_voltage (Py.max (min_voltage cell_data)
                                 (voltage cell_data - voltage_change)))
   else ret tt) ;;
  (* Update SOC *)
  cell_data <- the_cell ;;
  soc <- lift (calculate_soc_percentage (voltage cell_data)
                 (min_voltage cell_data) (max_voltage cell_data)) ;;
  assign (set_soc soc) ;;
  (* Simulate temperature change *)
  if Py.ltb 1 (Qabs (current cell_data)) then
    temp_change <- cell_uniform (-1) 2 ;;
    assign (set_temp (Py.max 20 (Py.min 60 (temp cell_data + temp_change))))
  else ret tt.

(** [n] update steps in a row, stopping at the first exception. *)
Fixpoint update_cell_times (n : nat) : M cell_world unit :=
  match n with
  | O => ret tt
  | S k => update_cell ;; update_cell_times k
  end.

(** ** Operations on the session *)

(** [update_cell_calculations(cell_key)] *)
Definition update_cell_calculations (cell_key : string) : M session unit :=
  fun s =>
    match dict_get cell_key (cells_data s) with
    | None => (Raise (KeyError cell_key), s)
    | Some cell_data =>
        let '(out, (cell_data', r)) :=
          update_cell (cell_data, random_state s) in
        (out, set_random_state r
                (set_cells_data
                   (dict_set cell_key cell_data' (cells_data s)) s))
    end.

(** [st.session_state.cells_data[cell_key]['current'] = value] *)
Definition assign_current (cell_key : string) (value : Q) : M session unit :=
  fun s =>
    match dict_get cell_key (cells_data s) with
    | None => (Raise (KeyError cell_key), s)
    | Some cell_data =>
        (Ok tt, set_cells_data
                  (dict_set cell_key (set_current value cell_data)
                     (cells_data s)) s)
    end.

(** [for cell_key in st.session_state.cells_data: body] *)
Definition for_each_cell (body : string -> M session unit)
  : M session unit :=
  s <- get ;;
  for_each (dict_keys (cells_data s)) body.

(** The loop shared by the presets, the task effects and the stop. *)
Definition set_all_current (value : Q) : M session unit :=
  for_each_cell (fun cell_key =>
    assign_current cell_key value ;;
    update_cell_calculations cell_key).

Definition apply_cc_cv_task (task_data : task) : M session unit :=
  set_all_current (get_cc_current task_data 2.0).

Definition apply_idle_task (task_data : task) : M session unit :=
  set_all_current 0.0.

Definition apply_cc_cd_task (task_data : task) : M session unit :=
  set_all_current (get_cc_current task_data (-2.0)).

(** [f"task_{index + 1}"] *)
Definition task_key_of (index : nat) : string :=
  "task_" ++ Py.str_of_nat (index + 1).

Definition append_history (e : history_entry) : M session unit :=
  modify (fun s => set_task_history (task_history s ++ [e]) s).

Definition execute_current_task (now : datetime) : M session unit :=
  s <- get ;;
  if (dict_len (tasks_data s) <=? current_task_index s)%nat then
    (* All tasks completed *)
    modify (set_task_running false) ;;
    modify (set_current_task_index 0)
  else
    let task_key := task_key_of (current_task_index s) in
    match dict_get task_key (tasks_data s) with
    | None => raise (KeyError "task_type")
    | Some task_data =>
        (if String.eqb (task_type task_data) "CC_CV" then
           apply_cc_cv_task task_data
         else if String.eqb (task_type task_data) "IDLE" then
           apply_idle_task task_data
         else if String.eqb (task_type task_data) "CC_CD" then
           apply_cc_cd_task task_data
         else ret tt) ;;
        (* Log task execution *)
        append_history
          (mk_entry (now / 1000000) task_key (task_type task_data) "started")
    end.

Definition start_task_sequence (now : datetime) : M session unit :=
  s <- get ;;
  if (dict_len (tasks_data s) =? 0)%nat then
    ret tt
  else
    modify (set_task_running true) ;;
    modify (set_current_task_index 0) ;;
    modify (set_task_start_time (Some now)) ;;
    (* Start the first task *)
    execute_current_task now.

Definition stop_all_tasks : M session unit :=
  modify (set_task_running false) ;;
  modify (set_current_task_index 0) ;;
  set_all_current 0.0.

(** The task progression at the head of [main()], run at instant [now]. *)
Definition main_auto_update (now : datetime) : M session unit :=
  s <- get ;;
  if task_running s then
    match task_start_time s with
    | Some started =>
        let elapsed := timedelta_seconds now started in
        let current_task_key := task_key_of (current_task_index s) in
        let duration :=
          match dict_get current_task_key (tasks_data s) with
          | Some current_task => time_seconds current_task
          | None => 60%Z
          end in
        if (duration <=? elapsed)%Z then
          (* Move to next task *)
          modify (set_current_task_index (current_task_index s + 1)) ;;
          modify (set_task_start_time (Some now)) ;;
          s <- get ;;
          if (dict_len (tasks_data s) <=? current_task_index s)%nat then
            (* All tasks completed *)
            modify (set_task_running false) ;;
            modify (set_current_task_index 0)
          else
            execute_current_task now
        else ret tt
    | None => ret tt
    end
  else ret tt.

(** ** The task page

    The three buttons of [task_management()].  The page returns early until
    the cells are set up, the buttons are drawn only when a sequence is
    saved, and a disabled button cannot be clicked. *)

Definition task_controls_shown (s : session) : bool :=
  setup_complete s && negb (dict_len (tasks_data s) =? 0)%nat.

(** "Save Task Sequence" *)
Definition save_task_sequence (tasks : dict task) : M session unit :=
  s <- get ;;
  if setup_complete s then modify (set_tasks_data tasks) else ret tt.

(** "Start Task Sequence", [disabled=st.session_state.task_running] *)
Definition click_start (now : datetime) : M session unit :=
  s <- get ;;
  if task_controls_shown s && negb (task_running s) then
    start_task_sequence now
  else ret tt.

(** "Pause Tasks", [disabled=not st.session_state.task_running] *)
Definition click_pause : M session unit :=
  s <- get ;;
  if task_controls_shown s && task_running s then
    modify (set_task_running false)
  else ret tt.

(** "Stop Tasks" *)
Definition click_stop : M session unit :=
  s <- get ;;
  if task_controls_shown s then stop_all_tasks else ret tt.

(** ** The control panel *)

(** The preset buttons (+2A, +5A, -2A, 0A). *)
Definition click_preset (value : Q) : M session unit :=
  set_all_current value.

(** [st.number_input(label, min_value, max_value, value, step, key)] as
    Streamlit has it (the library is not part of the repository): it raises
    [StreamlitAPIException] when the initial [value] lies outside the
    bounds; otherwise it hands to the script what the widget holds for
    [key], and [value] when it holds nothing.  The front end commits an
    entry only when it lies within the bounds: one outside them is shown as
    invalid and never reaches the script.  [entry key] is what the user
    typed into the widget, if anything. *)
Definition st_number_input (entry : string -> option Q)
    (min_value max_value value : Q) (key : string) : result Q :=
  if Py.ltb value min_value || Py.ltb max_value value then
    Raise StreamlitAPIException
  else
    match entry key with
    | Some typed =>
        if Py.ltb typed min_value || Py.ltb max_value typed then Ok value
        else Ok typed
    | None => Ok value
    end.

Section IndividualControls.

(** The individual controls over any widget: a function of the bounds, of
    the initial value and of the key that hands over a value or raises;
    [st_number_input] is Streamlit's. *)
Variable number_input : Q -> Q -> Q -> string -> result Q.

Definition individual_cell_control (cell_key : string) : M session unit :=
  s <- get ;;
  match dict_get cell_key (cells_data s) with
  | None => raise (KeyError cell_key)
  | Some cell_data =>
      current_val <-
        lift (number_input (-10.0) 10.0 (current cell_data)
                           ("current_" ++ cell_key)) ;;
      if Py.neqb current_val (current cell_data) then
        assign_current cell_key current_val ;;
        update_cell_calculations cell_key
      else ret tt
  end.

Definition individual_cell_controls : M session unit :=
  for_each_cell individual_cell_control.

End IndividualControls.

(** ** Cell setup: the "Initialize Cells" button of [setup_cells()]

    The form offers the types LFP, NMC and LTO; the code under the button
    takes any list of strings. *)

Fixpoint initialize_cells (idx : nat) (types : list string)
    (cells : dict cell) : M session (dict cell) :=
  match types with
  | [] => ret cells
  | cell_type :: rest =>
      let cell_key :=
        "cell_" ++ Py.str_of_nat idx ++ "_" ++ Py.lower cell_type in
      let specs := get_cell_specs cell_type in
      (* Initialize with random values *)
      u <- random_uniform (spec_min_voltage specs) (spec_max_voltage specs) ;;
      let voltage := Py.round u 2 in
      let current := 0.0 in
      t <- random_uniform 25 40 ;;
      let temp := Py.round t 1 in
      let capacity := Py.round (voltage * Qabs current) 2 in
      soc <- lift (calculate_soc_percentage voltage (spec_min_voltage specs)
                     (spec_max_voltage specs)) ;;
      initialize_cells (S idx) rest
        (dict_set cell_key
           (mk_cell voltage current temp capacity
                    (spec_min_voltage specs) (spec_max_voltage specs)
                    (spec_nominal_voltage specs)
                    (spec_nominal_capacity specs)
                    soc (Py.upper cell_type))
           cells)
  end.

Definition click_initialize_cells (types : list string) : M session unit :=
  cells <- initialize_cells 1 types [] ;;
  modify (set_cells_data cells) ;;
  modify (set_cell_types types) ;;
  modify (set_setup_complete true).

(** "Reset All Data": [st.session_state.clear()], then the next run
    initialises the session again. *)
Definition click_reset : M session unit :=
  modify (fun s => initialize_session_state (random_state s)).

(** * Vocabulary of the statements *)

(** The status of the specification: what the cell does, and who drives
    it. *)
Inductive activity : Type := Charging | Discharging | Idle.
Inductive driver : Type := Manual | TaskDriven.

(** The pair (label, style class) the dashboard shows for a status. *)
Definition status_label (a : activity) (d : driver) : string * string :=
  match d, a with
  | TaskDriven, Charging => ("Task: Charging", "task")
  | TaskDriven, Discharging => ("Task: Discharging", "task")
  | TaskDriven, Idle => ("Task: Idle", "task")
  | Manual, Charging => ("Charging", "charging")
  | Manual, Discharging => ("Discharging", "discharging")
  | Manual, Idle => ("Idle", "idle")
  end.

Definition driver_of (task_running : bool) : driver :=
  if task_running then TaskDriven else Manual.

(** The cell that a run on one cell leaves behind, and its outcome. *)
Definition cell_after {A} (x : result A * cell_world) : cell := fst (snd x).
Definition random_after {A} (x : result A * cell_world) : nat -> Q :=
  snd (snd x).
Definition outcome {A St} (x : result A * St) : result A := fst x.

(** [cell_data['current'] = value] followed by the update: what the spec
    calls [applyCurrent]. *)
Definition apply_current (value : Q) (c : cell) (r : nat -> Q)
  : result unit * cell_world :=
  update_cell (set_current value c, r).

(** The voltage an update moves to. *)
Definition next_voltage (c : cell) : Q :=
  if Py.ltb 0 (current c) then
    Py.min (max_voltage c) (voltage c + Py.min 0.1 (current c * 0.02))
  else if Py.ltb (current c) 0 then
    Py.max (min_voltage c) (voltage c - Py.min 0.1 (Qabs (current c) * 0.02))
  else voltage c.

(** The invariant of a cell's derived data: distinct bounds, and a stored
    state of charge that is the one of the stored voltage. *)
Definition cell_ok (c : cell) : Prop :=
  min_voltage c < max_voltage c /\
  calculate_soc_percentage (voltage c) (min_voltage c) (max_voltage c)
  = Ok (soc c).

(** The session with a new pool and a new state of the random module;
    every run of cell updates ends in a session of this shape. *)
Definition with_pool (d : dict cell) (r : nat -> Q) (s : session) : session :=
  set_random_state r (set_cells_data d s).

(** The dictionary that "Save Task Sequence" stores for a list of tasks:
    keys [task_1], [task_2], ... in order. *)
Fixpoint task_sequence_from (i : nat) (tasks : list task)
    (tasks_data : dict task) : dict task :=
  match tasks with
  | [] => tasks_data
  | t :: rest =>
      task_sequence_from (S i) rest (dict_set (task_key_of i) t tasks_data)
  end.

Definition task_sequence (tasks : list task) : dict task :=
  task_sequence_from 0 tasks [].

(** The current a task puts on every cell. *)
Definition task_current (t : task) : Q :=
  match t with
  | CC_CV i _ _ _ _ => i
  | IDLE _ => 0.0
  | CC_CD i _ _ _ => i
  end.

(** The entry that [execute_current_task] logs. *)
Definition started_entry (now : datetime) (index : nat) (t : task)
  : history_entry :=
  mk_entry (now / 1000000) (task_key_of index) (task_type t) "started".

(** The sequence [CC_CV(duration=10, cc_current=2), IDLE(duration=5)], as
    saved; the fields that no code reads are left open. *)
Definition cc_cv_then_idle (cv lim cap : Q) : dict task :=
  task_sequence [CC_CV 2 cv lim cap 10; IDLE 5].

(** A bench of one LFP cell, as "Initialize Cells" creates it when the
    random module keeps returning 0.625, with the two-task sequence saved. *)
Definition bench_cell : cell :=
  mk_cell 3.30 0.0 34.4 0.00 2.8 3.6 3.2 100
          (Py.max 0 (Py.min 100 ((3.30 - 2.8) / (3.6 - 2.8) * 100)))
          "LFP".

Definition one_cell_bench : session :=
  mk_session [("cell_1_lfp", bench_cell)] ["LFP"] true
             (cc_cv_then_idle 4.0 2.0 10.0) false 0 None []
             (fun _ => 0.625).

(** The session a run leaves behind. *)
Definition state_after {A} (x : result A * session) : session := snd x.

(** What the user and the clock can do to a session, one run of the
    script at a time. *)
Inductive event : Type :=
| InitializeCells (types : list string)
| Preset (value : Q)
| ManualInputs (number_input : Q -> Q -> Q -> string -> result Q)
| SaveTasks (tasks : list task)
| StartTasks (now : datetime)
| PauseTasks
| StopTasks
| Tick (now : datetime)
| ResetAll.

Definition handle (e : event) : M session unit :=
  match e with
  | InitializeCells types => click_initialize_cells types
  | Preset value => click_preset value
  | ManualInputs number_input => individual_cell_controls number_input
  | SaveTasks tasks => save_task_sequence (task_sequence tasks)
  | StartTasks now => click_start now
  | PauseTasks => click_pause
  | StopTasks => click_stop
  | Tick now => main_auto_update now
  | ResetAll => click_reset
  end.

(** [random.random()] returns a number of the unit interval. *)
Definition random_ok (r : nat -> Q) : Prop := forall n, 0 <= r n <= 1.

(** The sessions the dashboard can be in: a fresh one, and what any event
    makes of one, whatever the outcome of its handler. *)
Inductive reachable : session -> Prop :=
| reachable_fresh (seed : nat -> Q) :
    random_ok seed -> reachable (initialize_session_state seed)
| reachable_event (s : session) (e : event) :
    reachable s -> reachable (state_after (handle e s)).

(** The invariant of a cell: well-formed, and its voltage within its
    bounds. *)
Definition cell_inv (c : cell) : Prop :=
  cell_ok c /\ min_voltage c <= voltage c <= max_voltage c.

Definition session_inv (s : session) : Prop :=
  dict_all cell_inv (cells_data s) /\ random_ok (random_state s).

(** A run keeps the invariant [I], whatever its outcome, and a value it
    returns satisfies [R]. *)
Definition keeps {A} (I : session -> Prop) (m : M session A)
    (R : A -> Prop) : Prop :=
  forall s, I s ->
    I (state_after (m s)) /\
    match outcome (m s) with Ok a => R a | Raise _ => True end.

(** * The arithmetic on binary64

    The numeric core of the update rule once more, on the floats the Python
    code computes with, to measure what the embedding in [Q] leaves out on
    the example of C4. *)

Module Binary64.

Import PrimFloat.

#[local] Set Warnings "-inexact-float".

(** [min(a, b)] and [max(a, b)] *)
Definition fmin (a b : float) : float := if ltb b a then b else a.

Definition fmax (a b : float) : float := if ltb a b then b else a.

(** [cell_data['voltage'] * abs(cell_data['current'])], before [round]. *)
Definition instant_power (voltage current : float) : float :=
  mul voltage (abs current).

(** The voltage after the step of [update_cell_calculations]. *)
Definition next_voltage (voltage current min_voltage max_voltage : float)
  : float :=
  if ltb 0%float current then
    let voltage_change := fmin 0.1%float (mul current 0.02%float) in
    fmin max_voltage (add voltage voltage_change)
  else if ltb current 0%float then
    let voltage_change := fmin 0.1%float (mul (abs current) 0.02%float) in
    fmax min_voltage (sub voltage voltage_change)
  else voltage.

Definition calculate_soc_percentage (voltage min_voltage max_voltage : float)
  : result float :=
  if eqb (sub max_voltage min_voltage) 0%float then Raise ZeroDivisionError
  else Ok (fmax 0%float (fmin 100%float
             (mul (div (sub voltage min_voltage)
                       (sub max_voltage min_voltage)) 100%float))).

(** [|a - b| < 1e-12] *)
Definition close (a b : float) : bool := ltb (abs (sub a b)) 1e-12%float.

End Binary64.

(** * The dashboard page and further vocabulary *)

(** ** Summary metrics and cards of [display_cell_cards()] *)

(** [d.values()] and [list(d.items())] *)
Definition dict_values {V} (d : dict V) : list V := map snd d.

(** [sum(1 for x in xs if f(x))] *)
Definition count_if {A} (f : A -> bool) (xs : list A) : nat :=
  List.length (filter f xs).

(** [sum(xs)]: from 0, left to right. *)
Definition py_sum (xs : list Q) : Q := fold_left Qplus xs 0.

Definition total_cells (s : session) : nat := dict_len (cells_data s).

Definition charging_cells (s : session) : nat :=
  count_if (fun cell => Py.ltb 0.1 (current cell))
           (dict_values (cells_data s)).

Definition discharging_cells (s : session) : nat :=
  count_if (fun cell => Py.ltb (current cell) (-0.1))
           (dict_values (cells_data s)).

Definition avg_temp (s : session) : Q :=
  if (0 <? total_cells s)%nat then
    py_sum (map temp (dict_values (cells_data s)))
    / inject_Z (Z.of_nat (total_cells s))
  else 0.

(** The card and badge classes chosen from the status class. *)
Definition card_style (status_class : string) : string * string :=
  if String.eqb status_class "task" then ("task-running-card", "task-badge")
  else if String.eqb status_class "charging" then
    ("charging-card", "charging-badge")
  else if String.eqb status_class "discharging" then
    ("discharging-card", "discharging-badge")
  else ("idle-card", "idle-badge").

(** The status and the style of the card of one cell. *)
Definition cell_card (s : session) (cell_data : cell)
  : string * (string * string) :=
  let '(status, status_class) :=
    get_cell_status (current cell_data) (task_running s) in
  (status, card_style status_class).

(** The value handed to [st.progress] under a card. *)
Definition soc_progress (cell_data : cell) : Q := soc cell_data / 100.

(** [range(0, n, step)] for a positive step. *)
Definition range_by (n step : nat) : list nat :=
  map (fun k => (k * step)%nat) (seq 0 ((n + step - 1) / step)).

(** [xs[i:j]] *)
Definition slice {A} (xs : list A) (i j : nat) : list A :=
  firstn (j - i) (skipn i xs).

(** [[xs[i:i+per_row] for i in range(0, len(xs), per_row)]]: the rows of
    cards, and of controls in the control panel. *)
Definition rows_of {A} (per_row : nat) (xs : list A) : list (list A) :=
  map (fun i => slice xs i (i + per_row)) (range_by (List.length xs) per_row).

(** The number of updates so far, as a rational. *)
Definition steps (n : nat) : Q := inject_Z (Z.of_nat n).

(** [f"cell_{idx}_{cell_type.lower()}"] *)
Definition cell_key_of (idx : nat) (cell_type : string) : string :=
  "cell_" ++ Py.str_of_nat idx ++ "_" ++ Py.lower cell_type.

(** A cell as "Initialize Cells" makes it for its chemistry: at rest, with
    the data of the chemistry table, a voltage within its bounds, the state
    of charge of that voltage and a temperature in [[25, 40]]. *)
Definition fresh_cell (c : cell) : Prop :=
  current c = 0.0 /\ capacity c == 0 /\
  25 <= temp c <= 40 /\
  min_voltage c <= voltage c <= max_voltage c /\
  calculate_soc_percentage (voltage c) (min_voltage c) (max_voltage c)
  = Ok (soc c) /\
  mk_specs (nominal_voltage c) (min_voltage c) (max_voltage c)
           (nominal_capacity c)
  = get_cell_specs (cell_type c).

(** What holds of a cell at any time: the data of the chemistry table for
    its type, a voltage within its bounds, the state of charge of that
    voltage, in [[0, 100]], and a temperature in [[20, 60]]. *)
Definition cell_sound (c : cell) : Prop :=
  mk_specs (nominal_voltage c) (min_voltage c) (max_voltage c)
           (nominal_capacity c)
  = get_cell_specs (cell_type c) /\
  min_voltage c <= voltage c <= max_voltage c /\
  calculate_soc_percentage (voltage c) (min_voltage c) (max_voltage c)
  = Ok (soc c) /\
  0 <= soc c <= 100 /\
  20 <= temp c <= 60.

Definition session_sound (s : session) : Prop :=
  NoDup (dict_keys (cells_data s)) /\
  dict_all cell_sound (cells_data s) /\
  random_ok (random_state s).

(** ** What [main()] shows *)

Inductive view : Type :=
| ShowSetup
| ShowDashboard
| ShowControlPanel
| ShowTasks
| ShowAnalytics
| ShowSetupWarning
| ShowNothing.

(** The dispatch at the end of [main()] of the enhanced dashboard, on the
    page picked in the sidebar. *)
Definition main_content (page : string) (s : session) : view :=
  if String.eqb page "Setup" || negb (setup_complete s) then ShowSetup
  else if String.eqb page "Dashboard" then
    if setup_complete s then ShowDashboard else ShowSetupWarning
  else if String.eqb page "Control Panel" then
    if setup_complete s then ShowControlPanel else ShowSetupWarning
  else if String.eqb page "Tasks" then ShowTasks
  else if String.eqb page "Analytics" then
    if setup_complete s then ShowAnalytics else ShowSetupWarning
  else ShowNothing.

(** ** Relations between the session before a run and after it *)

(** Every run of [m] takes a session to one that [R] relates to it. *)
Definition relates {A} (R : session -> session -> Prop) (m : M session A)
  : Prop :=
  forall s, R s (state_after (m s)).

(** The history after is the history before with entries added at its end,
    each with the status "started". *)
Definition history_extends (s s' : session) : Prop :=
  exists more,
    task_history s' = (task_history s ++ more)%list /\
    Forall (fun e => h_status e = "started") more.

(** The pool after has the keys of the pool before, in their order, and
    under each key a cell with the same bounds, nominal data and type. *)
Definition same_cell_identity (c c' : cell) : Prop :=
  min_voltage c' = min_voltage c /\ max_voltage c' = max_voltage c /\
  nominal_voltage c' = nominal_voltage c /\
  nominal_capacity c' = nominal_capacity c /\
  cell_type c' = cell_type c.

Definition same_pool (s s' : session) : Prop :=
  dict_keys (cells_data s') = dict_keys (cells_data s) /\
  forall k c, dict_get k (cells_data s) = Some c ->
    exists c', dict_get k (cells_data s') = Some c' /\
               same_cell_identity c c'.

(** The keys "Initialize Cells" gives to a list of types, counted from
    [idx]. *)
Fixpoint cell_keys_from (idx : nat) (types : list string) : list string :=
  match types with
  | [] => []
  | cell_type :: rest =>
      ("cell_" ++ Py.str_of_nat idx ++ "_" ++ Py.lower cell_type)
      :: cell_keys_from (S idx) rest
  end.

(** The instants at which the tasks of a sequence started at [t0] end, when
    each is ticked at the very second its duration is over. *)
Fixpoint task_ends (t0 : datetime) (tasks : list task) : list datetime :=
  match tasks with
  | [] => []
  | t :: rest =>
      let t1 := (t0 + time_seconds t * 1000000)%Z in
      t1 :: task_ends t1 rest
  end.

(** A run of ticks, one per instant, stopping at the first exception. *)
Fixpoint ticks (instants : list datetime) : M session unit :=
  match instants with
  | [] => ret tt
  | now :: rest => main_auto_update now ;; ticks rest
  end.

(** The entries logged for the tasks of a sequence, the first under index
    [i], each at the instant its predecessor ended. *)
Fixpoint started_entries (t0 : datetime) (i : nat) (tasks : list task)
  : list history_entry :=
  match tasks with
  | [] => []
  | t :: rest =>
      started_entry t0 i t
      :: started_entries (t0 + time_seconds t * 1000000)%Z (S i) rest
  end.

(** The value handed to [st.progress] on the task page while a sequence
    runs: [(current_task_index + 1) / len(tasks_data)]. *)
Definition task_progress (s : session) : Q :=
  inject_Z (Z.of_nat (current_task_index s + 1))
  / inject_Z (Z.of_nat (dict_len (tasks_data s))).

(** While a sequence runs, its cursor is on a task of the saved sequence. *)
Definition cursor_inside (s : session) : Prop :=
  task_running s = true ->
  (current_task_index s < dict_len (tasks_data s))%nat.

(** The sequencer after is where it was before. *)
Definition same_cursor (s s' : session) : Prop :=
  task_running s' = task_running s /\
  current_task_index s' = current_task_index s /\
  tasks_data s' = tasks_data s.

(** * The command-line script [cell-process.py]

    The script reads its input line by line and prints; the lines typed are
    the state here, and what is printed is left out.  [int()] and [float()]
    are Python's own, taken as parameters. *)

Module CellProcess.

Inductive error : Type :=
| EOFError
| ValueError (text : string).

Inductive reply (A : Type) : Type :=
| Returned (a : A)
| Failed (e : error).

Arguments Returned {A} a.
Arguments Failed {A} e.

(** A computation over the lines still to be read. *)
Definition IO (A : Type) : Type := list string -> reply A * list string.

Definition pure {A} (a : A) : IO A := fun stdin => (Returned a, stdin).

Definition fail {A} (e : error) : IO A := fun stdin => (Failed e, stdin).

Definition and_then {A B} (m : IO A) (k : A -> IO B) : IO B :=
  fun stdin =>
    match m stdin with
    | (Returned a, rest) => k a rest
    | (Failed e, rest) => (Failed e, rest)
    end.

(** [input(prompt)] *)
Definition input : IO string :=
  fun stdin =>
    match stdin with
    | [] => (Failed EOFError, [])
    | line :: rest => (Returned line, rest)
    end.

(** The record the script keeps per cell. *)
Record script_cell : Type := mk_script_cell {
  sc_voltage : Q;
  sc_current : Q;
  sc_temp : Q;
  sc_capacity : Q;
  sc_min_voltage : Q;
  sc_max_voltage : Q
}.

(** The body of the loop over [enumerate(list_of_cell, start=1)], for one
    cell; [x] is what [random.random()] returns for its temperature. *)
Definition make_cell (cell_type : string) (x : Q) : script_cell :=
  let voltage := if String.eqb cell_type "lfp" then 3.2 else 3.6 in
  let min_voltage := if String.eqb cell_type "lfp" then 2.8 else 3.2 in
  let max_voltage := if String.eqb cell_type "lfp" then 3.6 else 4.0 in
  let current := 0.0 in
  let temp := Py.round (25 + (40 - 25) * x) 1 in
  let capacity := Py.round (voltage * current) 2 in
  mk_script_cell voltage current temp capacity min_voltage max_voltage.

Fixpoint make_cells (idx : nat) (list_of_cell : list string)
    (draws : nat -> Q) (cells_data : dict script_cell) : dict script_cell :=
  match list_of_cell with
  | [] => cells_data
  | cell_type :: rest =>
      let cell_key :=
        "cell_" ++ Py.str_of_nat idx ++ "_" ++ cell_type in
      make_cells (S idx) rest (fun n => draws (S n))
        (dict_set cell_key (make_cell cell_type (draws 0%nat)) cells_data)
  end.

(** The dictionary [process_task()] builds for one task. *)
Inductive task_data : Type :=
| Data_CC_CV (cc_cp : string) (cv_voltage current capacity : Q)
             (time_seconds : Z)
| Data_IDLE (time_seconds : Z)
| Data_CC_CD (cc_cp : string) (voltage capacity : Q) (time_seconds : Z)
| Data_INVALID (error_text : string).

(** [task_data["task_type"]] *)
Definition data_type (d : task_data) : string :=
  match d with
  | Data_CC_CV _ _ _ _ _ => "CC_CV"
  | Data_IDLE _ => "IDLE"
  | Data_CC_CD _ _ _ _ => "CC_CD"
  | Data_INVALID _ => "INVALID"
  end.

Section Parsers.

(** [int(text)] and [float(text)]: the number, or nothing where Python
    raises [ValueError]. *)
Variable py_int : string -> option Z.
Variable py_float : string -> option Q.

Definition to_int (text : string) : IO Z :=
  match py_int text with
  | Some n => pure n
  | None => fail (ValueError text)
  end.

Definition to_float (text : string) : IO Q :=
  match py_float text with
  | Some x => pure x
  | None => fail (ValueError text)
  end.

Definition input_int : IO Z := and_then input to_int.

Definition input_float : IO Q := and_then input to_float.

(** The body of the loop of [process_task()] for the task of index [i]:
    the type as typed, in upper case, and the dictionary of the task. *)
Definition read_task : IO (string * task_data) :=
  and_then input (fun line =>
  let task := Py.upper line in
  if String.eqb task "CC_CV" || String.eqb task "CCCV" then
    and_then input (fun cc_input =>
    and_then input_float (fun cv_voltage =>
    and_then input_float (fun current =>
    and_then input_float (fun capacity =>
    and_then input_int (fun time_seconds =>
    pure (task, Data_CC_CV cc_input cv_voltage current capacity
                           time_seconds))))))
  else if String.eqb task "IDLE" then
    and_then input_int (fun time_seconds =>
    pure (task, Data_IDLE time_seconds))
  else if String.eqb task "CC_CD" then
    and_then input (fun cc_input =>
    and_then input_float (fun voltage =>
    and_then input_float (fun capacity =>
    and_then input_int (fun time_seconds =>
    pure (task, Data_CC_CD cc_input voltage capacity time_seconds)))))
  else
    pure (task, Data_INVALID "Unknown task type")).

(** [for i in range(...)], from index [i] on, with the list and the
    dictionary built so far. *)
Fixpoint read_tasks (count i : nat) (list_task : list string)
    (task_dict : dict task_data) : IO (list string * dict task_data) :=
  match count with
  | O => pure (list_task, task_dict)
  | S more =>
      and_then read_task (fun '(task, data) =>
      read_tasks more (S i) (list_task ++ [task])%list
                 (dict_set (task_key_of i) data task_dict))
  end.

(** [process_task()] *)
Definition process_task : IO (list string * dict task_data) :=
  and_then input_int (fun task_number =>
  read_tasks (Z.to_nat task_number) 0 [] []).

End Parsers.

(** The type recorded in the dictionary for a task typed as [task] (in
    upper case). *)
Definition type_of_task (task : string) : string :=
  if String.eqb task "CC_CV" || String.eqb task "CCCV" then "CC_CV"
  else if String.eqb task "IDLE" then "IDLE"
  else if String.eqb task "CC_CD" then "CC_CD"
  else "INVALID".

(** A reader of decimal integers, for the examples. *)
Definition decimal_int (text : string) : option Z :=
  option_map Z.of_int (NilZero.int_of_string text).

End CellProcess.

(** * Properties *)

(** ** Arithmetic of the Python builtins *)

Lemma ltb_lt (a b : Q) : Py.ltb a b = true <-> a < b.
Proof.
  unfold Py.ltb. rewrite negb_true_iff.
  split; intro H.
  - apply Qnot_le_lt. intro Hle. apply Qle_bool_iff in Hle. congruence.
  - destruct (Qle_bool b a) eqn:E; [|reflexivity].
    apply Qle_bool_iff in E. apply Qle_not_lt in E. contradiction.
Qed.

Lemma ltb_ge (a b : Q) : Py.ltb a b = false <-> b <= a.
Proof.
  unfold Py.ltb. rewrite negb_false_iff. apply Qle_bool_iff.
Qed.

(** Case analysis on a Python comparison, leaving the order fact in the
    context. *)
Ltac by_ltb a b :=
  let E := fresh "E" in
  destruct (Py.ltb a b) eqn:E;
  [apply ltb_lt in E | apply ltb_ge in E].

Lemma min_spec (a b : Q) :
  (b < a /\ Py.min a b = b) \/ (a <= b /\ Py.min a b = a).
Proof. unfold Py.min. by_ltb b a; auto. Qed.

Lemma max_spec (a b : Q) :
  (a < b /\ Py.max a b = b) \/ (b <= a /\ Py.max a b = a).
Proof. unfold Py.max. by_ltb a b; auto. Qed.

Lemma min_le_l (a b : Q) : Py.min a b <= a.
Proof. destruct (min_spec a b) as [[H ->]|[H ->]]; lra. Qed.

Lemma min_le_r (a b : Q) : Py.min a b <= b.
Proof. destruct (min_spec a b) as [[H ->]|[H ->]]; lra. Qed.

Lemma min_glb (a b x : Q) : x <= a -> x <= b -> x <= Py.min a b.
Proof. intros; destruct (min_spec a b) as [[H' ->]|[H' ->]]; lra. Qed.

Lemma max_ge_l (a b : Q) : a <= Py.max a b.
Proof. destruct (max_spec a b) as [[H ->]|[H ->]]; lra. Qed.

Lemma max_ge_r (a b : Q) : b <= Py.max a b.
Proof. destruct (max_spec a b) as [[H ->]|[H ->]]; lra. Qed.

Lemma max_lub (a b x : Q) : a <= x -> b <= x -> Py.max a b <= x.
Proof. intros; destruct (max_spec a b) as [[H' ->]|[H' ->]]; lra. Qed.

Lemma min_mono_r (a x y : Q) : x <= y -> Py.min a x <= Py.min a y.
Proof.
  intro H. apply min_glb; [apply min_le_l|].
  pose proof (min_le_r a x). lra.
Qed.

Lemma max_mono_r (a x y : Q) : x <= y -> Py.max a x <= Py.max a y.
Proof.
  intro H. apply max_lub; [apply max_ge_l|].
  pose proof (max_ge_r a y). lra.
Qed.

(** The nested [max(lo, min(hi, x))] of the source is the clamp. *)
Lemma max_min_clamp (lo hi x : Q) :
  lo <= hi -> Py.max lo (Py.min hi x) == clamp lo hi x.
Proof.
  intro H. unfold clamp.
  destruct (max_spec lo (Py.min hi x)) as [[H1 ->]|[H1 ->]];
    destruct (min_spec hi x) as [[H2 E]|[H2 E]]; rewrite E in H1; try rewrite E;
    destruct (Qlt_le_dec x lo); destruct (Qlt_le_dec hi x); lra.
Qed.

(** ** State of charge *)

Lemma soc_defined (v mn mx : Q) :
  mn < mx ->
  calculate_soc_percentage v mn mx =
  Ok (Py.max 0 (Py.min 100 (((v - mn) / (mx - mn)) * 100))).
Proof.
  intro H. unfold calculate_soc_percentage.
  destruct (Qeq_bool (mx - mn) 0) eqn:E; [|reflexivity].
  apply Qeq_bool_eq in E. lra.
Qed.

Lemma soc_raises (v mn mx : Q) :
  mn == mx -> calculate_soc_percentage v mn mx = Raise ZeroDivisionError.
Proof.
  intro H. unfold calculate_soc_percentage.
  destruct (Qeq_bool (mx - mn) 0) eqn:E; [reflexivity|].
  apply Qeq_bool_neq in E. exfalso. apply E. lra.
Qed.

Lemma ratio_mono (v1 v2 mn mx : Q) :
  mn < mx -> v1 <= v2 ->
  ((v1 - mn) / (mx - mn)) * 100 <= ((v2 - mn) / (mx - mn)) * 100.
Proof.
  intros Hr Hv. unfold Qdiv.
  assert (Hd : 0 < / (mx - mn)) by (apply Qinv_lt_0_compat; lra).
  apply Qmult_le_compat_r; [|lra].
  apply Qmult_le_compat_r; lra.
Qed.

(** C3: for [min_voltage < max_voltage] the state-of-charge function returns
    (it does not raise), its value lies in [[0, 100]], it is the ratio
    [(voltage - min_voltage) / (max_voltage - min_voltage) * 100] clamped to
    [[0, 100]], and it is non-decreasing in the voltage. *)
Theorem soc_range_and_monotone (v1 v2 mn mx : Q) :
  mn < mx -> v1 <= v2 ->
  exists s1 s2 : Q,
    calculate_soc_percentage v1 mn mx = Ok s1 /\
    calculate_soc_percentage v2 mn mx = Ok s2 /\
    0 <= s1 <= 100 /\
    s1 == clamp 0 100 ((v1 - mn) / (mx - mn) * 100) /\
    s1 <= s2.
Proof.
  intros Hr Hv.
  exists (Py.max 0 (Py.min 100 (((v1 - mn) / (mx - mn)) * 100))),
         (Py.max 0 (Py.min 100 (((v2 - mn) / (mx - mn)) * 100))).
  repeat split.
  - now apply soc_defined.
  - now apply soc_defined.
  - apply max_ge_l.
  - apply max_lub; [lra | apply min_le_l].
  - apply max_min_clamp. lra.
  - apply max_mono_r, min_mono_r, ratio_mono; assumption.
Qed.

Lemma soc_range_and_monotone_witness :
  exists s1 s2 : Q,
    calculate_soc_percentage 3.0 2.8 3.6 = Ok s1 /\
    calculate_soc_percentage 3.3 2.8 3.6 = Ok s2 /\
    0 <= s1 <= 100 /\
    s1 == clamp 0 100 ((3.0 - 2.8) / (3.6 - 2.8) * 100) /\
    s1 <= s2.
Proof.
  apply (soc_range_and_monotone 3.0 3.3 2.8 3.6); reflexivity || discriminate.
Defined.

Lemma specs_min_lt_max (tag : string) :
  spec_min_voltage (get_cell_specs tag) < spec_max_voltage (get_cell_specs tag).
Proof.
  unfold get_cell_specs.
  destruct (String.eqb (Py.lower tag) "lfp");
    [|destruct (String.eqb (Py.lower tag) "nmc")]; reflexivity.
Qed.

(** ** The status classifier *)

(** C8: the status classifier is a function of the current and of the
    task-driven flag alone: above 0.1 it answers Charging, below -0.1
    Discharging, and Idle for every current in [[-0.1, 0.1]]; the classifier
    of [battery_dashboard.py] is the one of the enhanced dashboard with the
    flag off. *)
Theorem status_thresholds (i : Q) (task_running : bool) :
  (0.1 < i ->
   get_cell_status i task_running
   = status_label Charging (driver_of task_running)) /\
  (i < -0.1 ->
   get_cell_status i task_running
   = status_label Discharging (driver_of task_running)) /\
  (-0.1 <= i <= 0.1 ->
   get_cell_status i task_running
   = status_label Idle (driver_of task_running)) /\
  Basic.get_cell_status i = get_cell_status i false.
Proof.
  unfold get_cell_status, Basic.get_cell_status.
  repeat split; try intro H;
    by_ltb 0.1 i; by_ltb i (-0.1);
    destruct task_running; simpl; try reflexivity; lra.
Qed.

Lemma status_thresholds_witness :
  get_cell_status 2 true = ("Task: Charging", "task") /\
  get_cell_status (-2) false = ("Discharging", "discharging") /\
  get_cell_status 0.1 false = ("Idle", "idle").
Proof.
  split; [|split].
  - apply (proj1 (status_thresholds 2 true)). reflexivity.
  - apply (proj1 (proj2 (status_thresholds (-2) false))). reflexivity.
  - apply (proj1 (proj2 (proj2 (status_thresholds 0.1 false)))).
    split; discriminate.
Defined.

(** ** The chemistry table and cell setup *)

Lemma initialize_cells_returns (types : list string) :
  forall (idx : nat) (cells : dict cell) (s : session),
  exists cells' s', initialize_cells idx types cells s = (Ok cells', s').
Proof.
  induction types as [|tag rest IH]; intros idx cells s.
  - exists cells, s. reflexivity.
  - cbn [initialize_cells]. unfold bind at 1. unfold random_uniform at 1.
    cbn [uniform]. unfold bind at 1. unfold random_uniform at 1.
    cbn [uniform]. unfold bind at 1.
    rewrite soc_defined by apply specs_min_lt_max.
    unfold lift. apply IH.
Qed.

(** C6 (as the code has it): creating a pool never fails on a chemistry tag.
    Tags are compared in lower case; "lfp" gets 2.8/3.6/3.2 V and 100 Ah,
    "nmc" gets 3.2/4.0/3.6 V and 120 Ah, and every other tag gets the
    generic entry 3.0/4.2/3.7 V and 110 Ah. *)
Theorem chemistry_table_total (tag : string) :
  (Py.lower tag = "lfp" -> get_cell_specs tag = mk_specs 3.2 2.8 3.6 100) /\
  (Py.lower tag = "nmc" -> get_cell_specs tag = mk_specs 3.6 3.2 4.0 120) /\
  (Py.lower tag <> "lfp" -> Py.lower tag <> "nmc" ->
   get_cell_specs tag = mk_specs 3.7 3.0 4.2 110) /\
  (forall (types : list string) (s : session),
     exists s', click_initialize_cells (tag :: types) s = (Ok tt, s')).
Proof.
  unfold get_cell_specs. repeat split.
  - intros ->. reflexivity.
  - intros ->. reflexivity.
  - intros H1 H2.
    apply String.eqb_neq in H1, H2. now rewrite H1, H2.
  - intros types s. unfold click_initialize_cells.
    destruct (initialize_cells_returns (tag :: types) 1 [] s) as (d & s' & E).
    unfold bind at 1. rewrite E. eexists. reflexivity.
Qed.

Lemma chemistry_table_total_witness :
  get_cell_specs "LFP" = mk_specs 3.2 2.8 3.6 100 /\
  get_cell_specs "Nmc" = mk_specs 3.6 3.2 4.0 120 /\
  get_cell_specs "LTO" = mk_specs 3.7 3.0 4.2 110.
Proof.
  split; [|split].
  - apply (proj1 (chemistry_table_total "LFP")). reflexivity.
  - apply (proj1 (proj2 (chemistry_table_total "Nmc"))). reflexivity.
  - apply (proj1 (proj2 (proj2 (chemistry_table_total "LTO")))); discriminate.
Defined.

(** C6 (as stated) fails: the tag "XYZ" is in no row of the table, and a
    pool with it is created without any error, on the generic entry. *)
Lemma unrecognized_chemistry_accepted :
  Py.lower "XYZ" <> "lfp" /\ Py.lower "XYZ" <> "nmc" /\
  ~ (exists e s',
       click_initialize_cells ["XYZ"] (initialize_session_state (fun _ => 0))
       = (Raise e, s')) /\
  get_cell_specs "XYZ" = mk_specs 3.7 3.0 4.2 110.
Proof.
  repeat split; try discriminate.
  intros (e & s' & H). vm_compute in H. discriminate.
Qed.

(** ** The update rule of one cell *)

Ltac run_update :=
  unfold apply_current, update_cell, cell_after, random_after, outcome,
    bind, the_cell, assign, modify, lift, ret, cell_uniform, uniform;
  cbn [fst snd set_current set_capacity set_voltage set_soc set_temp
       voltage current temp capacity min_voltage max_voltage
       nominal_voltage nominal_capacity soc cell_type].

(** What an update never touches, and what it writes before the state of
    charge is computed. *)
Lemma update_cell_frame (c : cell) (r : nat -> Q) :
  let c' := cell_after (update_cell (c, r)) in
  current c' = current c /\
  min_voltage c' = min_voltage c /\ max_voltage c' = max_voltage c /\
  nominal_voltage c' = nominal_voltage c /\
  nominal_capacity c' = nominal_capacity c /\
  cell_type c' = cell_type c /\
  voltage c' = next_voltage c /\
  capacity c' = Py.round (voltage c * Qabs (current c)) 2.
Proof.
  unfold next_voltage. run_update.
  destruct (Py.ltb 0 (current c)); [|destruct (Py.ltb (current c) 0)];
    cbn -[calculate_soc_percentage Py.round Py.min Py.max];
    (match goal with
     | |- context [calculate_soc_percentage ?a ?b ?d] =>
         destruct (calculate_soc_percentage a b d)
     end);
    cbn -[Py.round Py.min Py.max];
    try (destruct (Py.ltb 1 (Qabs (current c))));
    cbn -[Py.round Py.min Py.max]; repeat split; reflexivity.
Qed.

(** With distinct bounds the update runs to its end, and then the state of
    charge is the one of the new voltage. *)
Lemma update_cell_returns (c : cell) (r : nat -> Q) :
  min_voltage c < max_voltage c ->
  let x := update_cell (c, r) in
  outcome x = Ok tt /\
  calculate_soc_percentage (voltage (cell_after x)) (min_voltage c)
    (max_voltage c) = Ok (soc (cell_after x)) /\
  temp (cell_after x)
  = (if Py.ltb 1 (Qabs (current c))
     then Py.max 20 (Py.min 60 (temp c + (-1 + (2 - -1) * r 0%nat)))
     else temp c) /\
  random_after x
  = (if Py.ltb 1 (Qabs (current c)) then fun n => r (S n) else r).
Proof.
  intro H. run_update.
  destruct (Py.ltb 0 (current c)); [|destruct (Py.ltb (current c) 0)];
    cbn -[calculate_soc_percentage Py.round Py.min Py.max];
    rewrite soc_defined by assumption;
    cbn -[Py.round Py.min Py.max];
    destruct (Py.ltb 1 (Qabs (current c)));
    cbn -[calculate_soc_percentage Py.round Py.min Py.max];
    rewrite ?soc_defined by assumption; repeat split; reflexivity.
Qed.

Lemma next_voltage_in_range (c : cell) :
  min_voltage c <= voltage c <= max_voltage c ->
  min_voltage c <= next_voltage c <= max_voltage c.
Proof.
  intros [Hlo Hhi]. unfold next_voltage.
  by_ltb 0 (current c); [|by_ltb (current c) 0].
  - assert (0 <= Py.min 0.1 (current c * 0.02)) by (apply min_glb; lra).
    split; [apply min_glb; lra | apply min_le_l].
  - assert (Ha : 0 <= Qabs (current c)) by apply Qabs_nonneg.
    assert (0 <= Py.min 0.1 (Qabs (current c) * 0.02))
      by (apply min_glb; lra).
    split; [apply max_ge_l | apply max_lub; lra].
  - split; assumption.
Qed.

(** The bound is kept by every update, whatever the current. *)
Lemma update_keeps_voltage_in_range (c : cell) (r : nat -> Q) :
  min_voltage c <= voltage c <= max_voltage c ->
  let c' := cell_after (update_cell (c, r)) in
  min_voltage c' <= voltage c' <= max_voltage c'.
Proof.
  intros H c'. subst c'.
  destruct (update_cell_frame c r) as (_ & -> & -> & _ & _ & _ & -> & _).
  now apply next_voltage_in_range.
Qed.

(** C1: for a cell whose voltage is within [[min_voltage, max_voltage]] and
    a permitted current ([|value| <= 10]), setting the current and running
    one update leaves the bounds as they were and the voltage within them;
    when the bounds are distinct the update also returns normally. *)
Theorem apply_current_keeps_voltage_in_range
    (c : cell) (value : Q) (r : nat -> Q) :
  min_voltage c <= voltage c <= max_voltage c ->
  Qabs value <= 10 ->
  let x := apply_current value c r in
  min_voltage (cell_after x) = min_voltage c /\
  max_voltage (cell_after x) = max_voltage c /\
  min_voltage c <= voltage (cell_after x) <= max_voltage c /\
  (min_voltage c < max_voltage c -> outcome x = Ok tt).
Proof.
  intros H _ x. subst x. unfold apply_current.
  pose proof (update_keeps_voltage_in_range (set_current value c) r H) as K.
  destruct (update_cell_frame (set_current value c) r)
    as (_ & Emin & Emax & _).
  cbv zeta in K. rewrite Emin, Emax in K.
  repeat split; try assumption; try apply K.
  intro Hd. now apply (update_cell_returns (set_current value c) r).
Qed.

Lemma apply_current_keeps_voltage_in_range_witness :
  let c := mk_cell 3.55 0 30 0 2.8 3.6 3.2 100 93.75 "LFP" in
  let x := apply_current 10 c (fun _ => 0.5) in
  min_voltage (cell_after x) = 2.8 /\
  max_voltage (cell_after x) = 3.6 /\
  2.8 <= voltage (cell_after x) <= 3.6 /\
  (2.8 < 3.6 -> outcome x = Ok tt).
Proof.
  intros c x.
  apply (apply_current_keeps_voltage_in_range c 10 (fun _ => 0.5)).
  - split; discriminate.
  - discriminate.
Defined.

(** C4: a cell at 3.20 V with bounds 2.80 V and 3.60 V, set to +5 A and
    updated once, has instant power (the [capacity] field) 16.00, computed
    from the voltage before the step, voltage 3.30 (the step is
    [min(0.1, 5 * 0.02) = 0.1]) and state of charge 62.5. *)
Theorem fast_charge_example
    (i0 t cap nv nc s0 : Q) (ty : string) (r : nat -> Q) :
  let c := mk_cell 3.20 i0 t cap 2.80 3.60 nv nc s0 ty in
  let x := apply_current 5 c r in
  outcome x = Ok tt /\
  capacity (cell_after x) == 16.00 /\
  capacity (cell_after x) = Py.round (3.20 * Qabs 5) 2 /\
  Py.min 0.1 (5 * 0.02) == 0.1 /\
  voltage (cell_after x) == 3.30 /\
  soc (cell_after x) == 62.5 /\
  soc (cell_after x) == (3.30 - 2.80) / (3.60 - 2.80) * 100.
Proof.
  intros c x. subst c x. vm_compute. repeat split.
Qed.

Lemma update_cell_keeps_ok (c : cell) (r : nat -> Q) :
  min_voltage c < max_voltage c ->
  cell_ok (cell_after (update_cell (c, r))).
Proof.
  intro H. unfold cell_ok.
  destruct (update_cell_frame c r) as (_ & Emin & Emax & _).
  destruct (update_cell_returns c r H) as (_ & Esoc & _).
  rewrite Emin, Emax. split; assumption.
Qed.

Lemma round_half_even_zero (x : Q) : x == 0 -> Py.round_half_even x = 0%Z.
Proof.
  intro H. unfold Py.round_half_even.
  assert (E : Qfloor x = 0%Z) by (rewrite H; reflexivity).
  rewrite E.
  assert (L : Py.ltb (x - inject_Z 0) (1 # 2) = true)
    by (apply ltb_lt; rewrite H; reflexivity).
  now rewrite L.
Qed.

Lemma round_zero (x : Q) (ndigits : nat) : x == 0 -> Py.round x ndigits == 0.
Proof.
  intro H. unfold Py.round.
  rewrite round_half_even_zero; [reflexivity|].
  rewrite H. ring.
Qed.

(** One update at zero current. *)
Lemma update_cell_at_rest (c : cell) (r : nat -> Q) :
  cell_ok c -> current c == 0 ->
  let x := update_cell (c, r) in
  outcome x = Ok tt /\ random_after x = r /\
  voltage (cell_after x) = voltage c /\
  soc (cell_after x) = soc c /\
  temp (cell_after x) = temp c /\
  capacity (cell_after x) == 0 /\
  current (cell_after x) = current c /\
  cell_ok (cell_after x).
Proof.
  intros [Hb Hsoc] Hi x. subst x.
  destruct (update_cell_frame c r) as (Ecur & Emin & Emax & _ & _ & _ & Ev & Ecap).
  destruct (update_cell_returns c r Hb) as (Eout & Esoc & Etemp & Ernd).
  assert (Hv : next_voltage c = voltage c).
  { unfold next_voltage.
    by_ltb 0 (current c); [lra|]. by_ltb (current c) 0; [lra|reflexivity]. }
  assert (Hq : Py.ltb 1 (Qabs (current c)) = false).
  { apply ltb_ge. rewrite Hi. discriminate. }
  rewrite Hq in Etemp, Ernd. rewrite Hv in Ev. rewrite Ev in Esoc.
  repeat split; try assumption.
  - congruence.
  - rewrite Ecap. apply round_zero. rewrite Hi. simpl Qabs. ring.
  - now rewrite Emin, Emax.
  - rewrite Emin, Emax, Ev. congruence.
Qed.

Lemma update_cell_times_step (n : nat) (w : cell_world) :
  outcome (update_cell w) = Ok tt ->
  update_cell_times (S n) w = update_cell_times n (snd (update_cell w)).
Proof.
  unfold outcome. cbn [update_cell_times]. unfold bind at 1.
  destruct (update_cell w) as [[[]|e] w']; simpl; [reflexivity|discriminate].
Qed.

(** C9: on a cell (distinct bounds, stored state of charge in step with the
    stored voltage) whose current is 0, any number of update steps in a row
    returns normally and leaves voltage, state of charge and temperature as
    they were; after at least one step the instant power (the [capacity]
    field) is 0. *)
Theorem updates_at_rest_change_nothing (n : nat) (c : cell) (r : nat -> Q) :
  cell_ok c -> current c == 0 ->
  let x := update_cell_times n (c, r) in
  outcome x = Ok tt /\
  voltage (cell_after x) = voltage c /\
  soc (cell_after x) = soc c /\
  temp (cell_after x) = temp c /\
  ((0 < n)%nat -> capacity (cell_after x) == 0).
Proof.
  revert c r.
  assert (G : forall n c r, cell_ok c -> current c == 0 ->
            let x := update_cell_times n (c, r) in
            outcome x = Ok tt /\
            voltage (cell_after x) = voltage c /\
            soc (cell_after x) = soc c /\
            temp (cell_after x) = temp c /\
            ((0 < n)%nat -> capacity (cell_after x) == 0) /\
            (n = 0%nat -> cell_after x = c)).
  { clear n. induction n as [|n IH]; intros c r Hok Hi x; subst x.
    - cbn. repeat split; try reflexivity. intro; lia.
    - destruct (update_cell_at_rest c r Hok Hi)
        as (Eout & Ernd & Ev & Esoc & Et & Ecap & Ecur & Hok').
      rewrite update_cell_times_step by assumption.
      destruct (update_cell (c, r)) as [o [c1 r1]].
      unfold cell_after, random_after in *. cbn [fst snd] in *.
      assert (Hi1 : current c1 == 0) by (rewrite Ecur; assumption).
      destruct (IH c1 r1 Hok' Hi1) as (A1 & A2 & A3 & A4 & A5 & A6).
      unfold cell_after in *.
      repeat split; try congruence.
      intros _. destruct n as [|n'].
      + rewrite (A6 eq_refl). assumption.
      + apply A5. lia. }
  intros c r Hok Hi.
  destruct (G n c r Hok Hi) as (A1 & A2 & A3 & A4 & A5 & _).
  cbv zeta. auto.
Qed.

Lemma updates_at_rest_change_nothing_witness :
  let c := mk_cell 3.3 0 31.5 6.6 2.8 3.6 3.2 100
                   (Py.max 0 (Py.min 100 ((3.3 - 2.8) / (3.6 - 2.8) * 100)))
                   "LFP" in
  let x := update_cell_times 3 (c, fun _ => 0.5) in
  outcome x = Ok tt /\
  voltage (cell_after x) = voltage c /\
  soc (cell_after x) = soc c /\
  temp (cell_after x) = temp c /\
  ((0 < 3)%nat -> capacity (cell_after x) == 0).
Proof.
  intros c x.
  apply (updates_at_rest_change_nothing 3 c (fun _ => 0.5)).
  - split; reflexivity.
  - reflexivity.
Defined.

(** Split a conjunction into its parts, and nothing below them. *)
Ltac conjs := repeat match goal with |- _ /\ _ => split end.

(** ** Dictionaries *)

Section DictFacts.

Context {V : Type}.
Implicit Types (d : dict V) (k : string) (v : V).

Lemma dict_get_set_same k v d : dict_get k (dict_set k v d) = Some v.
Proof.
  induction d as [|[k' v'] d IH]; cbn.
  - now rewrite String.eqb_refl.
  - destruct (String.eqb k k') eqn:E; cbn; rewrite E; auto.
Qed.

Lemma dict_get_set_other k k' v d :
  k <> k' -> dict_get k' (dict_set k v d) = dict_get k' d.
Proof.
  intro N. induction d as [|[k0 v0] d IH]; cbn.
  - destruct (String.eqb k' k) eqn:E; [|reflexivity].
    apply String.eqb_eq in E. congruence.
  - destruct (String.eqb k k0) eqn:E; cbn.
    + apply String.eqb_eq in E. subst k0.
      destruct (String.eqb k' k) eqn:E'; [|reflexivity].
      apply String.eqb_eq in E'. congruence.
    + now rewrite IH.
Qed.

Lemma dict_set_set k v v0 d : dict_set k v (dict_set k v0 d) = dict_set k v d.
Proof.
  induction d as [|[k' v'] d IH]; cbn.
  - now rewrite String.eqb_refl.
  - destruct (String.eqb k k') eqn:E; cbn; rewrite E; congruence.
Qed.

Lemma dict_keys_set_bound k v v0 d :
  dict_get k d = Some v0 -> dict_keys (dict_set k v d) = dict_keys d.
Proof.
  induction d as [|[k' v'] d IH]; cbn; [discriminate|].
  destruct (String.eqb k k') eqn:E; cbn; [reflexivity|].
  intro H. unfold dict_keys in IH. now rewrite IH.
Qed.

Lemma dict_key_bound k d :
  In k (dict_keys d) -> exists v, dict_get k d = Some v.
Proof.
  induction d as [|[k' v'] d IH]; cbn; [tauto|].
  intros [->|H].
  - rewrite String.eqb_refl. eauto.
  - destruct (String.eqb k k'); eauto.
Qed.

Lemma dict_bound_key k v d : dict_get k d = Some v -> In k (dict_keys d).
Proof.
  induction d as [|[k' v'] d IH]; cbn; [discriminate|].
  destruct (String.eqb k k') eqn:E.
  - apply String.eqb_eq in E. auto.
  - auto.
Qed.

Lemma dict_all_set (P : V -> Prop) k v d :
  dict_all P d -> P v -> dict_all P (dict_set k v d).
Proof.
  intros H Hv k' v' G.
  destruct (string_dec k k') as [->|N].
  - rewrite dict_get_set_same in G. congruence.
  - rewrite dict_get_set_other in G by assumption. eauto.
Qed.

End DictFacts.

(** ** Loops over the pool *)

Lemma with_pool_again d r d' r' s :
  with_pool d' r' (with_pool d r s) = with_pool d' r' s.
Proof. reflexivity. Qed.

Lemma with_pool_same s : with_pool (cells_data s) (random_state s) s = s.
Proof. now destruct s. Qed.

(** One turn of the loop of [set_all_current] on a bound key. *)
Lemma set_current_turn (value : Q) (k : string) (c : cell) (s : session) :
  dict_get k (cells_data s) = Some c ->
  min_voltage c < max_voltage c ->
  let x := apply_current value c (random_state s) in
  (assign_current k value ;; update_cell_calculations k) s
  = (Ok tt, with_pool (dict_set k (cell_after x) (cells_data s))
                      (random_after x) s).
Proof.
  intros G Hb x. unfold bind, assign_current. rewrite G.
  unfold update_cell_calculations.
  cbn [cells_data set_cells_data random_state].
  rewrite dict_get_set_same.
  pose proof (update_cell_returns (set_current value c) (random_state s) Hb)
    as (Eout & _).
  subst x. unfold apply_current, cell_after, random_after, outcome in *.
  destruct (update_cell (set_current value c, random_state s))
    as [o [c' r']].
  cbn [fst snd] in *. subst o.
  unfold with_pool. cbn [cells_data set_cells_data set_random_state].
  now rewrite dict_set_set.
Qed.

Section PoolLoop.

(** A property of cells that every turn keeps, and that rules out the
    division by zero. *)
Variable P : cell -> Prop.
Hypothesis P_bounds : forall c, P c -> min_voltage c < max_voltage c.
Hypothesis P_kept : forall value c r,
  P c -> P (cell_after (apply_current value c r)).

Lemma for_each_set_current (value : Q) (ks : list string) :
  forall s : session,
    dict_all P (cells_data s) ->
    (forall k, In k ks -> In k (dict_keys (cells_data s))) ->
    exists d r,
      for_each ks (fun cell_key =>
        assign_current cell_key value ;;
        update_cell_calculations cell_key) s
      = (Ok tt, with_pool d r s) /\
      dict_keys d = dict_keys (cells_data s) /\
      dict_all P d /\
      (forall k c, In k ks -> dict_get k d = Some c -> current c = value) /\
      (forall k, ~ In k ks -> dict_get k d = dict_get k (cells_data s)).
Proof.
  induction ks as [|k ks IH]; intros s Hall Hks.
  - exists (cells_data s), (random_state s). cbn.
    rewrite with_pool_same. repeat split; auto. intros k c [].
  - destruct (dict_key_bound k (cells_data s)) as [c G];
      [apply Hks; now left|].
    pose proof (set_current_turn value k c s G (P_bounds c (Hall k c G)))
      as T.
    cbv zeta in T.
    set (x := apply_current value c (random_state s)) in *.
    set (d1 := dict_set k (cell_after x) (cells_data s)) in *.
    assert (K1 : dict_keys d1 = dict_keys (cells_data s))
      by now apply (dict_keys_set_bound k _ c).
    assert (A1 : dict_all P d1)
      by (apply dict_all_set; [assumption | apply P_kept; eauto]).
    destruct (IH (with_pool d1 (random_after x) s)) as (d & r & E & K & A & C & F).
    + exact A1.
    + cbn [with_pool cells_data set_random_state set_cells_data].
      rewrite K1. intros k' Hk'. apply Hks. now right.
    + exists d, r. cbn [for_each]. unfold bind at 1. rewrite T.
      rewrite E. cbn [with_pool cells_data set_random_state set_cells_data] in *.
      repeat split; auto.
      * congruence.
      * intros k' c' [<-|Hin] G'; [|eauto].
        destruct (in_dec string_dec k ks) as [Hin|Hout]; [eauto|].
        rewrite (F k Hout) in G'. unfold d1 in G'.
        rewrite dict_get_set_same in G'. injection G' as <-.
        subst x. unfold apply_current.
        now destruct (update_cell_frame (set_current value c) (random_state s))
          as (-> & _).
      * intros k' Hout. rewrite F by (intro; apply Hout; now right).
        unfold d1. rewrite !dict_get_set_other; auto;
          intro; subst; apply Hout; now left.
Qed.

(** [set_all_current] returns normally, gives every cell the current, and
    touches only the pool and the random module. *)
Lemma set_all_current_spec (value : Q) (s : session) :
  dict_all P (cells_data s) ->
  exists d r,
    set_all_current value s = (Ok tt, with_pool d r s) /\
    dict_keys d = dict_keys (cells_data s) /\
    dict_all P d /\
    dict_all (fun c => current c = value) d.
Proof.
  intro Hall. unfold set_all_current, for_each_cell, bind at 1, get.
  destruct (for_each_set_current value (dict_keys (cells_data s)) s Hall)
    as (d & r & E & K & A & C & _); [auto|].
  exists d, r. repeat split; auto.
  intros k c G. apply (C k c); [|assumption].
  rewrite <- K. eapply dict_bound_key; eauto.
Qed.

End PoolLoop.

Lemma cell_ok_bounds (c : cell) : cell_ok c -> min_voltage c < max_voltage c.
Proof. now intros [H _]. Qed.

Lemma cell_ok_kept (value : Q) (c : cell) (r : nat -> Q) :
  cell_ok c -> cell_ok (cell_after (apply_current value c r)).
Proof. intros [H _]. now apply update_cell_keeps_ok. Qed.

Lemma dict_all_Forall {V} (P : V -> Prop) (d : dict V) :
  Forall (fun kv => P (snd kv)) d -> dict_all P d.
Proof.
  induction 1 as [|[k' v'] d Hv _ IH]; intros k v; cbn; [discriminate|].
  destruct (String.eqb k k'); [|apply IH].
  intros [= <-]. exact Hv.
Qed.

(** ** The sequencer *)

(** C5: [stop_all_tasks], from any state of the sequencer (running or not,
    any index, any start time, any history) over a pool of well-formed
    cells, returns normally, sets [task_running] to False and the task index
    to 0, and leaves every cell of the pool at current 0; the pool keeps its
    keys, and the saved tasks and the history are not touched. *)
Theorem stop_resets_everything (s : session) :
  dict_all cell_ok (cells_data s) ->
  exists s',
    stop_all_tasks s = (Ok tt, s') /\
    task_running s' = false /\
    current_task_index s' = 0%nat /\
    dict_all (fun c => current c == 0) (cells_data s') /\
    dict_keys (cells_data s') = dict_keys (cells_data s) /\
    dict_all cell_ok (cells_data s') /\
    tasks_data s' = tasks_data s /\
    task_history s' = task_history s.
Proof.
  intro Hall. unfold stop_all_tasks, bind, modify.
  set (s1 := set_current_task_index 0 (set_task_running false s)).
  destruct (set_all_current_spec cell_ok cell_ok_bounds cell_ok_kept 0.0 s1)
    as (d & r & E & K & A & C); [exact Hall|].
  rewrite E. exists (with_pool d r s1). conjs; auto.
  intros k c G. cbn in G. rewrite (C k c G). reflexivity.
Qed.

Lemma stop_resets_everything_witness :
  let c := mk_cell 3.3 5 31.5 16.5 2.8 3.6 3.2 100
                   (Py.max 0 (Py.min 100 ((3.3 - 2.8) / (3.6 - 2.8) * 100)))
                   "LFP" in
  let s := mk_session [("cell_1_lfp", c)] ["LFP"] true
                      [("task_1", CC_CV 5 4 2 10 300); ("task_2", IDLE 60)]
                      true 1 (Some (at_second 0)) [] (fun _ => 0.5) in
  exists s',
    stop_all_tasks s = (Ok tt, s') /\
    task_running s' = false /\
    current_task_index s' = 0%nat /\
    dict_all (fun c => current c == 0) (cells_data s') /\
    dict_keys (cells_data s') = dict_keys (cells_data s) /\
    dict_all cell_ok (cells_data s') /\
    tasks_data s' = tasks_data s /\
    task_history s' = task_history s.
Proof.
  intros c s. apply (stop_resets_everything s).
  apply dict_all_Forall. repeat constructor.
Defined.

(** Running the task under the cursor: its current on every cell, one
    update of every cell, and one "started" entry at the end of the log. *)
Lemma execute_current_task_spec (now : datetime) (s : session) (t : task) :
  dict_all cell_ok (cells_data s) ->
  (current_task_index s < dict_len (tasks_data s))%nat ->
  dict_get (task_key_of (current_task_index s)) (tasks_data s) = Some t ->
  exists d r,
    execute_current_task now s
    = (Ok tt,
       set_task_history
         (task_history s ++ [started_entry now (current_task_index s) t])
         (with_pool d r s)) /\
    dict_keys d = dict_keys (cells_data s) /\
    dict_all cell_ok d /\
    dict_all (fun c => current c = task_current t) d.
Proof.
  intros Hall Hlt G.
  unfold execute_current_task, bind at 1, get.
  apply Nat.leb_gt in Hlt. rewrite Hlt, G.
  assert (S : exists d r,
    (if String.eqb (task_type t) "CC_CV" then apply_cc_cv_task t
     else if String.eqb (task_type t) "IDLE" then apply_idle_task t
     else if String.eqb (task_type t) "CC_CD" then apply_cc_cd_task t
     else ret tt) s = (Ok tt, with_pool d r s) /\
    dict_keys d = dict_keys (cells_data s) /\
    dict_all cell_ok d /\
    dict_all (fun c => current c = task_current t) d).
  { destruct t; cbn [task_type String.eqb Ascii.eqb Bool.eqb task_current];
      unfold apply_cc_cv_task, apply_idle_task, apply_cc_cd_task;
      cbn [get_cc_current];
      apply (set_all_current_spec cell_ok cell_ok_bounds cell_ok_kept);
      assumption. }
  destruct S as (d & r & E & K & A & C).
  exists d, r. unfold bind. rewrite E. conjs; assumption || reflexivity.
Qed.

(** [start_task_sequence] with a task under key [task_1]. *)
Lemma start_task_sequence_spec (now : datetime) (s : session) (t : task) :
  dict_all cell_ok (cells_data s) ->
  dict_get (task_key_of 0) (tasks_data s) = Some t ->
  exists d r,
    start_task_sequence now s
    = (Ok tt,
       set_task_history (task_history s ++ [started_entry now 0 t])
         (with_pool d r
            (set_task_start_time (Some now)
               (set_current_task_index 0 (set_task_running true s))))) /\
    dict_keys d = dict_keys (cells_data s) /\
    dict_all cell_ok d /\
    dict_all (fun c => current c = task_current t) d.
Proof.
  intros Hall G.
  unfold start_task_sequence, bind at 1, get.
  destruct (tasks_data s) as [|kt rest] eqn:Et; [discriminate|].
  cbn [dict_len List.length Nat.eqb].
  unfold bind, modify.
  set (s1 := set_task_start_time (Some now)
               (set_current_task_index 0 (set_task_running true s))).
  destruct (execute_current_task_spec now s1 t) as (d & r & E & K & A & C).
  - exact Hall.
  - cbn. rewrite Et. cbn. lia.
  - cbn. rewrite Et. exact G.
  - exists d, r. rewrite E. conjs; assumption || reflexivity.
Qed.

(** The three ways a tick of [main()] goes on a running sequence. *)
Lemma tick_waits (now started : datetime) (s : session) (t : task) :
  task_running s = true ->
  task_start_time s = Some started ->
  dict_get (task_key_of (current_task_index s)) (tasks_data s) = Some t ->
  (timedelta_seconds now started < time_seconds t)%Z ->
  main_auto_update now s = (Ok tt, s).
Proof.
  intros Hr Hs G Hlt. unfold main_auto_update, bind, get.
  rewrite Hr, Hs, G.
  apply Z.leb_gt in Hlt. now rewrite Hlt.
Qed.

Lemma tick_advances (now started : datetime) (s : session) (t t' : task) :
  dict_all cell_ok (cells_data s) ->
  task_running s = true ->
  task_start_time s = Some started ->
  dict_get (task_key_of (current_task_index s)) (tasks_data s) = Some t ->
  (time_seconds t <= timedelta_seconds now started)%Z ->
  (current_task_index s + 1 < dict_len (tasks_data s))%nat ->
  dict_get (task_key_of (current_task_index s + 1)) (tasks_data s) = Some t' ->
  exists d r,
    main_auto_update now s
    = (Ok tt,
       set_task_history
         (task_history s ++ [started_entry now (current_task_index s + 1) t'])
         (with_pool d r
            (set_task_start_time (Some now)
               (set_current_task_index (current_task_index s + 1) s)))) /\
    dict_keys d = dict_keys (cells_data s) /\
    dict_all cell_ok d /\
    dict_all (fun c => current c = task_current t') d.
Proof.
  intros Hall Hr Hs G Hle Hlt G'. unfold main_auto_update, bind at 1, get.
  rewrite Hr, Hs, G.
  apply Z.leb_le in Hle. rewrite Hle.
  unfold bind, modify, get.
  set (s1 := set_task_start_time (Some now)
               (set_current_task_index (current_task_index s + 1) s)).
  cbn [tasks_data current_task_index s1 set_task_start_time
       set_current_task_index].
  apply Nat.leb_gt in Hlt. rewrite Hlt. apply Nat.leb_gt in Hlt.
  destruct (execute_current_task_spec now s1 t') as (d & r & E & K & A & C);
    try assumption.
  exists d, r. rewrite E. conjs; assumption || reflexivity.
Qed.

Lemma tick_completes (now started : datetime) (s : session) (t : task) :
  task_running s = true ->
  task_start_time s = Some started ->
  dict_get (task_key_of (current_task_index s)) (tasks_data s) = Some t ->
  (time_seconds t <= timedelta_seconds now started)%Z ->
  (dict_len (tasks_data s) <= current_task_index s + 1)%nat ->
  main_auto_update now s
  = (Ok tt,
     set_current_task_index 0
       (set_task_running false
          (set_task_start_time (Some now)
             (set_current_task_index (current_task_index s + 1) s)))).
Proof.
  intros Hr Hs G Hle Hlen. unfold main_auto_update, bind at 1, get.
  rewrite Hr, Hs, G.
  apply Z.leb_le in Hle. rewrite Hle.
  unfold bind, modify, get.
  cbn [tasks_data current_task_index set_task_start_time
       set_current_task_index].
  apply Nat.leb_le in Hlen. now rewrite Hlen.
Qed.

(** A tick does nothing at all on a sequencer that is not running. *)
Lemma tick_idle (now : datetime) (s : session) :
  task_running s = false -> main_auto_update now s = (Ok tt, s).
Proof.
  intro H. unfold main_auto_update, bind, get. now rewrite H.
Qed.

(** C2 (as the code has it): with that sequence started at t=0 over a pool
    of well-formed cells, the tick at t=10 moves the index to 1, leaves
    every cell at current 0 and appends one entry to the history, for
    [task_2] of type IDLE, with status "started"; the tick at t=14 changes
    nothing; the tick at t=15 ends the run: [task_running] becomes False,
    the index goes back to 0, and neither the history nor the pool
    changes. *)
Theorem two_task_run (s0 : session) (cv lim cap : Q) :
  dict_all cell_ok (cells_data s0) ->
  tasks_data s0 = cc_cv_then_idle cv lim cap ->
  exists s1 s2 s3,
    start_task_sequence (at_second 0) s0 = (Ok tt, s1) /\
    task_running s1 = true /\ current_task_index s1 = 0%nat /\
    main_auto_update (at_second 10) s1 = (Ok tt, s2) /\
    task_running s2 = true /\ current_task_index s2 = 1%nat /\
    dict_all (fun c => current c == 0) (cells_data s2) /\
    task_history s2
    = (task_history s1 ++ [mk_entry 10 "task_2" "IDLE" "started"])%list /\
    main_auto_update (at_second 14) s2 = (Ok tt, s2) /\
    main_auto_update (at_second 15) s2 = (Ok tt, s3) /\
    task_running s3 = false /\ current_task_index s3 = 0%nat /\
    task_history s3 = task_history s2 /\
    cells_data s3 = cells_data s2.
Proof.
  intros Hall Ht.
  destruct (start_task_sequence_spec (at_second 0) s0 (CC_CV 2 cv lim cap 10))
    as (d1 & r1 & E1 & K1 & A1 & _); [assumption | now rewrite Ht |].
  match type of E1 with _ = (_, ?s) => set (s1 := s) in * end.
  destruct (tick_advances (at_second 10) (at_second 0) s1
              (CC_CV 2 cv lim cap 10) (IDLE 5))
    as (d2 & r2 & E2 & K2 & A2 & C2);
    try (subst s1; cbn; rewrite ?Ht; cbn; reflexivity || assumption || lia).
  match type of E2 with _ = (_, ?s) => set (s2 := s) in * end.
  exists s1, s2. eexists. conjs.
  - exact E1.
  - reflexivity.
  - reflexivity.
  - exact E2.
  - reflexivity.
  - reflexivity.
  - intros k c G. subst s2. cbn in G. rewrite (C2 k c G). reflexivity.
  - reflexivity.
  - apply (tick_waits _ (at_second 10) s2 (IDLE 5));
      subst s2 s1; cbn; rewrite ?Ht; reflexivity.
  - apply (tick_completes _ (at_second 10) s2 (IDLE 5));
      subst s2 s1; cbn; rewrite ?Ht; cbn; reflexivity || lia || discriminate.
  - reflexivity.
  - reflexivity.
  - reflexivity.
  - reflexivity.
Qed.

Lemma two_task_run_witness :
  exists s1 s2 s3,
    start_task_sequence (at_second 0) one_cell_bench = (Ok tt, s1) /\
    task_running s1 = true /\ current_task_index s1 = 0%nat /\
    main_auto_update (at_second 10) s1 = (Ok tt, s2) /\
    task_running s2 = true /\ current_task_index s2 = 1%nat /\
    dict_all (fun c => current c == 0) (cells_data s2) /\
    task_history s2
    = (task_history s1 ++ [mk_entry 10 "task_2" "IDLE" "started"])%list /\
    main_auto_update (at_second 14) s2 = (Ok tt, s2) /\
    main_auto_update (at_second 15) s2 = (Ok tt, s3) /\
    task_running s3 = false /\ current_task_index s3 = 0%nat /\
    task_history s3 = task_history s2 /\
    cells_data s3 = cells_data s2.
Proof.
  apply (two_task_run one_cell_bench 4.0 2.0 10.0).
  - apply dict_all_Forall. repeat constructor.
  - reflexivity.
Defined.

(** C2 (as stated) fails on the one-cell bench: the entry appended by the
    tick at t=10 does not have the status "advanced", and the tick at t=15
    appends no entry, so none with the status "completed". *)
Lemma no_advanced_no_completed_entry :
  let s1 := state_after (start_task_sequence (at_second 0) one_cell_bench) in
  let s2 := state_after (main_auto_update (at_second 10) s1) in
  let s3 := state_after (main_auto_update (at_second 14) s2) in
  let s4 := state_after (main_auto_update (at_second 15) s3) in
  ~ (exists e, task_history s2 = (task_history s1 ++ [e])%list /\
               h_status e = "advanced") /\
  ~ (exists e, task_history s4 = (task_history s3 ++ [e])%list /\
               h_status e = "completed") /\
  map h_status (task_history s4) = ["started"; "started"].
Proof.
  intros s1 s2 s3 s4. conjs.
  - intros (e & H & Hs). vm_compute in H.
    injection H as <-. discriminate.
  - intros (e & H & _). vm_compute in H. discriminate.
  - vm_compute. reflexivity.
Qed.

(** C10: on a running sequence, "Pause Tasks" only clears [task_running]
    (the index and the start time of the interrupted task stay); "Start Task
    Sequence" is then enabled and, whatever that index and start time were,
    returns normally with the sequence running again from index 0, started
    at the instant of the click, the first task applied to every cell and
    logged. *)
Theorem start_after_pause_restarts
    (s : session) (now : datetime) (t : task) :
  dict_all cell_ok (cells_data s) ->
  setup_complete s = true ->
  dict_get (task_key_of 0) (tasks_data s) = Some t ->
  task_running s = true ->
  exists s2,
    click_pause s = (Ok tt, set_task_running false s) /\
    click_start now (set_task_running false s) = (Ok tt, s2) /\
    task_running s2 = true /\
    current_task_index s2 = 0%nat /\
    task_start_time s2 = Some now /\
    task_history s2 = (task_history s ++ [started_entry now 0 t])%list /\
    dict_all (fun c => current c = task_current t) (cells_data s2).
Proof.
  intros Hall Hsetup G Hrun.
  assert (Hshown : task_controls_shown s = true).
  { unfold task_controls_shown. rewrite Hsetup.
    destruct (tasks_data s); [discriminate|reflexivity]. }
  destruct (start_task_sequence_spec now (set_task_running false s) t)
    as (d & r & E & K & A & C); [assumption | assumption |].
  eexists. conjs.
  - unfold click_pause, bind, get, modify. now rewrite Hshown, Hrun.
  - unfold click_start, bind at 1, get.
    change (task_controls_shown (set_task_running false s))
      with (task_controls_shown s).
    rewrite Hshown. cbn [task_running set_task_running negb andb].
    exact E.
  - reflexivity.
  - reflexivity.
  - reflexivity.
  - reflexivity.
  - exact C.
Qed.

Lemma start_after_pause_restarts_witness :
  let s := mk_session (cells_data one_cell_bench) ["LFP"] true
             (cc_cv_then_idle 4.0 2.0 10.0) true 1 (Some (at_second 10))
             [] (fun _ => 0.5) in
  exists s2,
    click_pause s = (Ok tt, set_task_running false s) /\
    click_start (at_second 12) (set_task_running false s) = (Ok tt, s2) /\
    task_running s2 = true /\
    current_task_index s2 = 0%nat /\
    task_start_time s2 = Some (at_second 12) /\
    task_history s2
    = (task_history s
       ++ [started_entry (at_second 12) 0 (CC_CV 2 4.0 2.0 10.0 10)])%list /\
    dict_all (fun c => current c = 2) (cells_data s2).
Proof.
  intro s.
  apply (start_after_pause_restarts s (at_second 12) (CC_CV 2 4.0 2.0 10.0 10)).
  - apply dict_all_Forall. repeat constructor.
  - reflexivity.
  - reflexivity.
  - reflexivity.
Defined.

(** ** The manual control *)

Lemma outside_bounds (lo hi v : Q) :
  Py.ltb v lo || Py.ltb hi v = false <-> lo <= v <= hi.
Proof.
  rewrite orb_false_iff, !ltb_ge. tauto.
Qed.

(** The number input of Streamlit fails exactly on an initial value outside
    its bounds, and what it hands over is the initial value or an entry
    within the bounds. *)
Lemma st_number_input_outside
    (entry : string -> option Q) (lo hi value : Q) (key : string) :
  ~ lo <= value <= hi ->
  st_number_input entry lo hi value key = Raise StreamlitAPIException.
Proof.
  intro N. unfold st_number_input.
  destruct (Py.ltb value lo || Py.ltb hi value) eqn:E; [reflexivity|].
  apply outside_bounds in E. contradiction.
Qed.

Lemma st_number_input_inside
    (entry : string -> option Q) (lo hi value : Q) (key : string) :
  lo <= value <= hi ->
  exists v,
    st_number_input entry lo hi value key = Ok v /\
    lo <= v <= hi /\
    (v = value \/ entry key = Some v) /\
    (entry key = None -> v = value) /\
    (forall t, entry key = Some t ->
       (~ lo <= t <= hi -> v = value) /\ (lo <= t <= hi -> v = t)).
Proof.
  intro H. unfold st_number_input.
  apply outside_bounds in H as E. rewrite E.
  destruct (entry key) as [t|].
  - destruct (Py.ltb t lo || Py.ltb hi t) eqn:Et.
    + exists value. split; [reflexivity|]. split; [exact H|].
      split; [now left|]. split; [reflexivity|].
      intros t' [= <-]. split; [reflexivity|].
      intro In. apply outside_bounds in In. congruence.
    + apply outside_bounds in Et. exists t.
      split; [reflexivity|]. split; [exact Et|].
      split; [now right|]. split; [discriminate|].
      intros t' [= <-]. split; [contradiction | reflexivity].
  - exists value. split; [reflexivity|]. split; [exact H|].
    split; [now left|]. split; [reflexivity | discriminate].
Qed.

(** The control of one cell, from what the widget does. *)
Lemma individual_cell_control_raises
    (number_input : Q -> Q -> Q -> string -> result Q)
    (k : string) (c : cell) (s : session) (e : exn) :
  dict_get k (cells_data s) = Some c ->
  number_input (-10.0) 10.0 (current c) ("current_" ++ k) = Raise e ->
  individual_cell_control number_input k s = (Raise e, s).
Proof.
  intros G E. unfold individual_cell_control, bind at 1, get. rewrite G.
  unfold bind, lift. now rewrite E.
Qed.

Lemma individual_cell_control_returns
    (number_input : Q -> Q -> Q -> string -> result Q)
    (k : string) (c : cell) (s : session) (v : Q) :
  dict_get k (cells_data s) = Some c ->
  min_voltage c < max_voltage c ->
  number_input (-10.0) 10.0 (current c) ("current_" ++ k) = Ok v ->
  let x := apply_current v c (random_state s) in
  individual_cell_control number_input k s
  = if Py.neqb v (current c)
    then (Ok tt, with_pool (dict_set k (cell_after x) (cells_data s))
                           (random_after x) s)
    else (Ok tt, s).
Proof.
  intros G Hb E x. unfold individual_cell_control, bind at 1, get. rewrite G.
  unfold bind at 1, lift. rewrite E.
  destruct (Py.neqb v (current c)); [|reflexivity].
  now apply set_current_turn.
Qed.

(** C7 (as the code has it): the control panel has no range check and no
    error of its own; the range is that of the number input, which is given
    the bounds -10 and 10 and the stored current as its value.  The control
    of a cell fails exactly when the stored current is itself outside
    [[-10, 10]], with Streamlit's [StreamlitAPIException], and changes
    nothing then.  An entry outside [[-10, 10]], such as 11, never reaches
    the handler, and no entry or the stored current entered again change
    nothing either.  An entry within the bounds that differs from the
    stored current is stored as the cell's current, and one update of the
    cell follows.  So after the control the current of the cell is the
    stored one or lies within [[-10, 10]]. *)
Theorem manual_current_bounded
    (entry : string -> option Q) (k : string) (c : cell) (s : session) :
  dict_get k (cells_data s) = Some c ->
  min_voltage c < max_voltage c ->
  let key := "current_" ++ k in
  let x := individual_cell_control (st_number_input entry) k s in
  (outcome x = Ok tt \/ outcome x = Raise StreamlitAPIException) /\
  (outcome x = Raise StreamlitAPIException <-> ~ -10 <= current c <= 10) /\
  (outcome x = Raise StreamlitAPIException -> state_after x = s) /\
  (entry key = None -> state_after x = s) /\
  (forall v, entry key = Some v ->
     (~ -10 <= v <= 10 -> state_after x = s) /\
     (v == current c -> state_after x = s) /\
     (-10 <= current c <= 10 -> -10 <= v <= 10 -> ~ v == current c ->
      dict_get k (cells_data (state_after x))
      = Some (cell_after (apply_current v c (random_state s))))) /\
  exists c',
    dict_get k (cells_data (state_after x)) = Some c' /\
    (current c' = current c \/ -10 <= current c' <= 10).
Proof.
  intros G Hb key x. subst x.
  assert (B : forall v, -10.0 <= v <= 10.0 <-> -10 <= v <= 10)
    by (intro v; split; intros [L U]; split; lra).
  destruct (Qlt_le_dec (current c) (-10)) as [Lo|Lo];
    [|destruct (Qlt_le_dec 10 (current c)) as [Hi|Hi]].
  1, 2: assert (N : ~ -10.0 <= current c <= 10.0) by (intros [L U]; lra);
    pose proof (st_number_input_outside entry (-10.0) 10.0 (current c) key N)
      as E;
    rewrite (individual_cell_control_raises _ k c s _ G E);
    unfold outcome, state_after; cbn [fst snd];
    rewrite B in N;
    (conjs;
     [ now right | tauto | reflexivity | reflexivity
     | intros v _; conjs; [reflexivity | reflexivity | tauto]
     | exists c; split; [exact G | now left] ]).
  assert (In : -10.0 <= current c <= 10.0) by (split; lra).
  destruct (st_number_input_inside entry (-10.0) 10.0 (current c) key In)
    as (v & E & Hv & Hfrom & Hnone & Hsome).
  rewrite (individual_cell_control_returns _ k c s v G Hb E).
  rewrite B in In, Hv.
  unfold Py.neqb. destruct (Qeq_bool v (current c)) eqn:Q; cbn [negb];
    unfold outcome, state_after; cbn [fst snd].
  - apply Qeq_bool_eq in Q. conjs.
    + now left.
    + split; [discriminate | intro N; now elim N].
    + discriminate.
    + reflexivity.
    + intros t Ht. conjs; [reflexivity | reflexivity |].
      intros _ Ht' Hne. destruct (Hsome t Ht) as [_ Eq].
      rewrite <- B in Ht'. specialize (Eq Ht'). subst t. contradiction.
    + exists c. split; [exact G | now left].
  - apply Qeq_bool_neq in Q.
    assert (Ev : entry key = Some v).
    { destruct Hfrom as [->|H]; [now elim Q | exact H]. }
    conjs.
    + now left.
    + split; [discriminate | intro N; now elim N].
    + discriminate.
    + intro Hn. rewrite (Hnone Hn) in Q. now elim Q.
    + intros t Ht. rewrite Ev in Ht. injection Ht as <-. conjs.
      * intro N. now elim N.
      * intro Eq. contradiction.
      * intros _ _ _. cbn. apply dict_get_set_same.
    + exists (cell_after (apply_current v c (random_state s))). split.
      * cbn. apply dict_get_set_same.
      * right. unfold apply_current.
        destruct (update_cell_frame (set_current v c) (random_state s))
          as (-> & _).
        exact Hv.
Qed.

Lemma manual_current_bounded_witness :
  let entry := fun _ : string => Some 7 in
  let c := bench_cell in
  let s := one_cell_bench in
  let key := "current_cell_1_lfp" in
  let x := individual_cell_control (st_number_input entry) "cell_1_lfp" s in
  (outcome x = Ok tt \/ outcome x = Raise StreamlitAPIException) /\
  (outcome x = Raise StreamlitAPIException <-> ~ -10 <= current c <= 10) /\
  (outcome x = Raise StreamlitAPIException -> state_after x = s) /\
  (entry key = None -> state_after x = s) /\
  (forall v, entry key = Some v ->
     (~ -10 <= v <= 10 -> state_after x = s) /\
     (v == current c -> state_after x = s) /\
     (-10 <= current c <= 10 -> -10 <= v <= 10 -> ~ v == current c ->
      dict_get "cell_1_lfp" (cells_data (state_after x))
      = Some (cell_after (apply_current v c (random_state s))))) /\
  exists c',
    dict_get "cell_1_lfp" (cells_data (state_after x)) = Some c' /\
    (current c' = current c \/ -10 <= current c' <= 10).
Proof.
  intros entry c s key.
  apply (manual_current_bounded entry "cell_1_lfp" c s).
  - reflexivity.
  - reflexivity.
Defined.

(** A sequence of one task that charges at 15 A, saved and started on the
    one-cell bench. *)
Lemma task_current_unchecked :
  let s15 :=
    state_after
      (handle (StartTasks (at_second 0))
         (state_after
            (handle (SaveTasks [CC_CV 15 4.0 2.0 10.0 10]) one_cell_bench))) in
  exists c, dict_get "cell_1_lfp" (cells_data s15) = Some c /\
            current c = 15 /\ min_voltage c < max_voltage c.
Proof.
  vm_compute. eexists. conjs; reflexivity.
Qed.

(** C7 (as stated) fails on the one-cell bench.  With 11 entered for the
    cell, the control raises nothing (and changes nothing): there is no
    [OutOfRangeError].  Nor is a current above 10 A refused elsewhere: a
    task that charges at 15 A puts 15 on the cell with no error; from then
    on the control of that cell fails whatever is entered, with Streamlit's
    exception. *)
Lemma entry_of_11_raises_nothing :
  individual_cell_control (st_number_input (fun _ => Some 11))
                          "cell_1_lfp" one_cell_bench
  = (Ok tt, one_cell_bench) /\
  (let s0 := state_after
               (handle (SaveTasks [CC_CV 15 4.0 2.0 10.0 10])
                       one_cell_bench) in
   let x := handle (StartTasks (at_second 0)) s0 in
   outcome x = Ok tt /\
   (exists c, dict_get "cell_1_lfp" (cells_data (state_after x)) = Some c /\
              current c = 15) /\
   forall entry,
     individual_cell_control (st_number_input entry) "cell_1_lfp"
                             (state_after x)
     = (Raise StreamlitAPIException, state_after x)).
Proof.
  split; [now vm_compute|].
  intros s0 x. split; [now vm_compute|].
  destruct task_current_unchecked as (c & G & Ec & _).
  fold s0 in G. fold x in G.
  split; [now exists c|].
  intro entry.
  apply (individual_cell_control_raises _ _ c); [exact G|].
  apply st_number_input_outside. rewrite Ec. intros [_ H]. now apply H.
Qed.

(** * Invariants of a session

    The facts that hold of every session the dashboard can reach: the
    hypotheses on cells in the theorems above are among them. *)

Section Keeps.

Variable I : session -> Prop.

Lemma keeps_ret {A} (a : A) (R : A -> Prop) : R a -> keeps I (ret a) R.
Proof. intros H s Hs. now split. Qed.

Lemma keeps_raise {A} (e : exn) (R : A -> Prop) : keeps I (raise e) R.
Proof. intros s Hs. now split. Qed.

Lemma keeps_get : keeps I get I.
Proof. intros s Hs. now split. Qed.

Lemma keeps_modify (f : session -> session) (R : unit -> Prop) :
  (forall s, I s -> I (f s)) -> (forall u, R u) -> keeps I (modify f) R.
Proof. intros H HR s Hs. split; [now apply H | apply HR]. Qed.

Lemma keeps_bind {A B} (m : M session A) (k : A -> M session B)
    (R : A -> Prop) (R' : B -> Prop) :
  keeps I m R -> (forall a, R a -> keeps I (k a) R') ->
  keeps I (bind m k) R'.
Proof.
  intros Hm Hk s Hs. destruct (Hm s Hs) as [H1 H2].
  unfold state_after, outcome, bind in *.
  destruct (m s) as [[a|e] s1]; cbn [fst snd] in *.
  - now apply Hk.
  - now split.
Qed.

Lemma keeps_weaken {A} (m : M session A) (R R' : A -> Prop) :
  keeps I m R -> (forall a, R a -> R' a) -> keeps I m R'.
Proof.
  intros Hm HR s Hs. destruct (Hm s Hs) as [H1 H2]. split; [assumption|].
  destruct (outcome (m s)); auto.
Qed.

Lemma keeps_for_each {A} (xs : list A) (body : A -> M session unit) :
  (forall x, keeps I (body x) (fun _ => True)) ->
  keeps I (for_each xs body) (fun _ => True).
Proof.
  intro Hb. induction xs as [|x xs IH]; cbn [for_each].
  - now apply keeps_ret.
  - eapply keeps_bind; [apply Hb | intros; apply IH].
Qed.

End Keeps.

Lemma update_cell_keeps_inv (c : cell) (r : nat -> Q) :
  cell_inv c -> cell_inv (cell_after (update_cell (c, r))).
Proof.
  intros [[Hb Hs] Hr]. split.
  - now apply update_cell_keeps_ok.
  - now apply update_keeps_voltage_in_range.
Qed.

Lemma update_cell_keeps_random (c : cell) (r : nat -> Q) :
  random_ok r -> random_ok (random_after (update_cell (c, r))).
Proof.
  intro H. run_update.
  destruct (Py.ltb 0 (current c)); [|destruct (Py.ltb (current c) 0)];
    cbn -[calculate_soc_percentage Py.round Py.min Py.max];
    (match goal with
     | |- context [calculate_soc_percentage ?a ?b ?d] =>
         destruct (calculate_soc_percentage a b d)
     end);
    cbn -[Py.round Py.min Py.max];
    try (destruct (Py.ltb 1 (Qabs (current c))));
    cbn -[Py.round Py.min Py.max]; try assumption;
    intro n; apply H.
Qed.

Lemma keeps_assign_current (k : string) (value : Q) :
  keeps session_inv (assign_current k value) (fun _ => True).
Proof.
  intros s [Hc Hr]. unfold assign_current, state_after, outcome.
  destruct (dict_get k (cells_data s)) as [c|] eqn:G; cbn [fst snd];
    (split; [|exact Logic.I]).
  - split; [|assumption]. cbn. apply dict_all_set; [assumption|].
    apply (Hc k c G).
  - now split.
Qed.

Lemma keeps_update_cell_calculations (k : string) :
  keeps session_inv (update_cell_calculations k) (fun _ => True).
Proof.
  intros s [Hc Hr]. unfold update_cell_calculations, state_after, outcome.
  destruct (dict_get k (cells_data s)) as [c|] eqn:G.
  - pose proof (update_cell_keeps_inv c (random_state s) (Hc k c G)) as Hi.
    pose proof (update_cell_keeps_random c (random_state s) Hr) as Hr'.
    unfold cell_after, random_after in *.
    destruct (update_cell (c, random_state s)) as [o [c' r']].
    cbn [fst snd] in *. split; [|now destruct o].
    split; cbn; [now apply dict_all_set | assumption].
  - cbn. split; [now split | exact Logic.I].
Qed.

Lemma keeps_unit_modify (I : session -> Prop) (f : session -> session) :
  (forall s, I s -> I (f s)) -> keeps I (modify f) (fun _ => True).
Proof. intro H. now apply keeps_modify. Qed.

Lemma keeps_lift (I : session -> Prop) {A} (r : result A) :
  keeps I (lift r) (fun a => r = Ok a).
Proof. intros s Hs. split; [assumption|]. cbn. now destruct r. Qed.

(** Fields other than the pool and the random module do not matter to the
    invariant. *)
Lemma session_inv_fields (s s' : session) :
  cells_data s' = cells_data s -> random_state s' = random_state s ->
  session_inv s -> session_inv s'.
Proof. unfold session_inv. now intros -> ->. Qed.

Create HintDb keeps.

#[local] Hint Resolve keeps_get keeps_raise keeps_assign_current
  keeps_update_cell_calculations keeps_for_each : keeps.

(** Take a run apart along its binds, branches and loops. *)
Ltac keeps_step :=
  match goal with
  | |- keeps _ (bind _ _) _ => eapply keeps_bind; [|intros ? ?]
  | |- keeps _ (ret _) _ => now apply keeps_ret
  | |- keeps _ (lift _) _ => apply keeps_lift
  | |- keeps _ (modify _) _ =>
      apply keeps_unit_modify; intros ? ?;
      eapply session_inv_fields; [reflexivity | reflexivity | assumption]
  | |- keeps _ (for_each _ _) _ => apply keeps_for_each; intro
  | |- keeps _ (if ?b then _ else _) _ => destruct b
  | |- keeps _ (match ?x with Some _ => _ | None => _ end) _ => destruct x
  | |- keeps _ _ _ => solve [auto with keeps]
  end.

Ltac keeps_run := repeat keeps_step.

Lemma keeps_set_all_current (value : Q) :
  keeps session_inv (set_all_current value) (fun _ => True).
Proof. unfold set_all_current, for_each_cell. keeps_run. Qed.

#[local] Hint Resolve keeps_set_all_current : keeps.

Lemma keeps_execute_current_task (now : datetime) :
  keeps session_inv (execute_current_task now) (fun _ => True).
Proof.
  unfold execute_current_task, append_history, apply_cc_cv_task,
    apply_idle_task, apply_cc_cd_task.
  keeps_run.
Qed.

#[local] Hint Resolve keeps_execute_current_task : keeps.

Lemma keeps_start_task_sequence (now : datetime) :
  keeps session_inv (start_task_sequence now) (fun _ => True).
Proof. unfold start_task_sequence. keeps_run. Qed.

Lemma keeps_stop_all_tasks :
  keeps session_inv stop_all_tasks (fun _ => True).
Proof. unfold stop_all_tasks. keeps_run. Qed.

Lemma keeps_main_auto_update (now : datetime) :
  keeps session_inv (main_auto_update now) (fun _ => True).
Proof. unfold main_auto_update. keeps_run. Qed.

Lemma keeps_individual_cell_controls
    (number_input : Q -> Q -> Q -> string -> result Q) :
  keeps session_inv (individual_cell_controls number_input) (fun _ => True).
Proof.
  unfold individual_cell_controls, for_each_cell, individual_cell_control.
  keeps_run.
Qed.

#[local] Hint Resolve keeps_start_task_sequence keeps_stop_all_tasks
  keeps_main_auto_update keeps_individual_cell_controls : keeps.

(** ** Rounding stays between integer bounds *)

Lemma round_half_even_between (a b : Z) (y : Q) :
  inject_Z a <= y <= inject_Z b ->
  (a <= Py.round_half_even y <= b)%Z.
Proof.
  intros [Ha Hb]. unfold Py.round_half_even.
  pose proof (Qfloor_le y) as Hfl.
  assert (Han : (a <= Qfloor y)%Z).
  { rewrite <- (Qfloor_Z a). now apply Qfloor_resp_le. }
  set (n := Qfloor y) in *. set (qn := inject_Z n) in *.
  assert (Hnb : (n <= b)%Z)
    by (rewrite Zle_Qle; apply Qle_trans with y; assumption).
  assert (Hup : qn < y -> (n + 1 <= b)%Z).
  { intro Hlt.
    assert (L : (n < b)%Z)
      by (rewrite Zlt_Qlt; apply Qlt_le_trans with y; assumption).
    lia. }
  clearbody qn. clearbody n.
  by_ltb (y - qn) (1 # 2); [lia|].
  by_ltb (1 # 2) (y - qn).
  - split; [lia | apply Hup; lra].
  - destruct (Z.even n); [lia|].
    split; [lia | apply Hup; lra].
Qed.

Lemma div100_le (x u : Q) : x / 100 <= u <-> x <= u * 100.
Proof.
  split; intro H.
  - setoid_replace x with ((x / 100) * 100) by field.
    apply Qmult_le_compat_r; [exact H | discriminate].
  - apply Qle_shift_div_r; [reflexivity | exact H].
Qed.

Lemma le_div100 (x u : Q) : u <= x / 100 <-> u * 100 <= x.
Proof.
  split; intro H.
  - setoid_replace x with ((x / 100) * 100) by field.
    apply Qmult_le_compat_r; [exact H | discriminate].
  - apply Qle_shift_div_l; [reflexivity | exact H].
Qed.

Lemma round2_between (a b : Z) (u : Q) :
  inject_Z a / 100 <= u <= inject_Z b / 100 ->
  inject_Z a / 100 <= Py.round u 2 <= inject_Z b / 100.
Proof.
  intros [Ha Hb]. unfold Py.round.
  change (inject_Z (10 ^ Z.of_nat 2)) with 100.
  apply div100_le in Ha. apply le_div100 in Hb.
  destruct (round_half_even_between a b (u * 100)) as [Hl Hh];
    [now split|].
  rewrite Zle_Qle in Hl, Hh.
  split.
  - apply Qle_shift_div_l; [reflexivity|].
    setoid_replace (inject_Z a / 100 * 100) with (inject_Z a) by field.
    exact Hl.
  - apply Qle_shift_div_r; [reflexivity|].
    setoid_replace (inject_Z b / 100 * 100) with (inject_Z b) by field.
    exact Hh.
Qed.

Lemma round2_within (lo hi : Q) (a b : Z) (u : Q) :
  lo == inject_Z a / 100 -> hi == inject_Z b / 100 ->
  lo <= u <= hi -> lo <= Py.round u 2 <= hi.
Proof.
  intros -> ->. apply round2_between.
Qed.

Lemma uniform_between (a b x : Q) :
  a <= b -> 0 <= x <= 1 -> a <= a + (b - a) * x <= b.
Proof. intros Hab [H0 H1]. split; nra. Qed.

(** The voltage a cell is created with lies within the bounds of its
    chemistry. *)
Lemma initial_voltage_in_range (tag : string) (x : Q) :
  0 <= x <= 1 ->
  let specs := get_cell_specs tag in
  let u := spec_min_voltage specs
           + (spec_max_voltage specs - spec_min_voltage specs) * x in
  spec_min_voltage specs <= Py.round u 2 <= spec_max_voltage specs.
Proof.
  intros Hx specs u. subst u specs. unfold get_cell_specs.
  destruct (String.eqb (Py.lower tag) "lfp");
    [|destruct (String.eqb (Py.lower tag) "nmc")];
    cbn [spec_min_voltage spec_max_voltage].
  - pose proof (uniform_between 2.8 3.6 x ltac:(discriminate) Hx) as U.
    now apply (round2_within 2.8 3.6 280 360).
  - pose proof (uniform_between 3.2 4.0 x ltac:(discriminate) Hx) as U.
    now apply (round2_within 3.2 4.0 320 400).
  - pose proof (uniform_between 3.0 4.2 x ltac:(discriminate) Hx) as U.
    now apply (round2_within 3.0 4.2 300 420).
Qed.

Lemma keeps_random_uniform (a b : Q) :
  keeps session_inv (random_uniform a b)
    (fun v => exists x, 0 <= x <= 1 /\ v = a + (b - a) * x).
Proof.
  intros s [Hc Hr]. unfold random_uniform, uniform, state_after, outcome.
  cbn. split.
  - split; [assumption|]. intro n. apply Hr.
  - exists (random_state s 0%nat). split; [apply Hr | reflexivity].
Qed.

Lemma keeps_initialize_cells (types : list string) :
  forall (idx : nat) (cells : dict cell),
    dict_all cell_inv cells ->
    keeps session_inv (initialize_cells idx types cells) (dict_all cell_inv).
Proof.
  induction types as [|tag rest IH]; intros idx cells Hcells;
    cbn [initialize_cells].
  - now apply keeps_ret.
  - eapply keeps_bind; [apply keeps_random_uniform|].
    intros u (x & Hx & ->).
    eapply keeps_bind; [apply keeps_random_uniform|].
    intros t _.
    eapply keeps_bind; [apply keeps_lift|].
    intros soc0 Hsoc. apply IH.
    apply dict_all_set; [assumption|].
    split; [split|]; cbn [min_voltage max_voltage voltage soc].
    + apply specs_min_lt_max.
    + exact Hsoc.
    + now apply initial_voltage_in_range.
Qed.

Lemma keeps_handle (e : event) :
  keeps session_inv (handle e) (fun _ => True).
Proof.
  destruct e; cbn [handle].
  - unfold click_initialize_cells.
    eapply keeps_bind;
      [apply keeps_initialize_cells; intros k c; discriminate|].
    intros cells Hcells.
    eapply keeps_bind; [|intros ? ?; keeps_run].
    apply keeps_unit_modify. intros s [_ Hr]. now split.
  - apply keeps_set_all_current.
  - apply keeps_individual_cell_controls.
  - unfold save_task_sequence. keeps_run.
  - unfold click_start. keeps_run.
  - unfold click_pause. keeps_run.
  - unfold click_stop. keeps_run.
  - apply keeps_main_auto_update.
  - unfold click_reset. apply keeps_unit_modify.
    intros s [_ Hr]. split; [intros k c; discriminate | exact Hr].
Qed.

(** Every session the dashboard can be in satisfies the invariant: each
    cell has distinct bounds, a voltage within them and a state of charge
    that is the one of its voltage (in [[0, 100]], by C3). *)
Lemma reachable_session_inv (s : session) : reachable s -> session_inv s.
Proof.
  induction 1 as [seed Hseed | s e _ IH].
  - split; [intros k c; discriminate | exact Hseed].
  - apply (keeps_handle e s IH).
Qed.

Lemma reachable_cells_ok (s : session) :
  reachable s -> dict_all cell_ok (cells_data s).
Proof.
  intros H k c G. destruct (reachable_session_inv s H) as [Hc _].
  apply (Hc k c G).
Qed.

(** The bench of the examples is such a session. *)
Lemma one_cell_bench_reachable : reachable one_cell_bench.
Proof.
  assert (E : state_after
                (handle (SaveTasks [CC_CV 2 4.0 2.0 10.0 10; IDLE 5])
                   (state_after
                      (handle (InitializeCells ["LFP"])
                         (initialize_session_state (fun _ => 0.625)))))
              = one_cell_bench) by (vm_compute; reflexivity).
  rewrite <- E.
  do 2 apply reachable_event. apply reachable_fresh.
  intro n. split; discriminate.
Qed.

(** ** The example of C4 on binary64 *)

Module Binary64Example.

Import PrimFloat.

#[local] Set Warnings "-inexact-float".

(** On the example of C4 the instant power is 16 exactly, and the voltage
    and the state of charge are the floats next to 3.3 and 62.5: they
    differ from them by less than 1e-12, and show as 3.30 and 62.5. *)
Lemma binary64_fast_charge :
  let v := (Binary64.next_voltage 3.2 5 2.8 3.6)%float in
  eqb (Binary64.instant_power 3.2 5) 16%float = true /\
  Binary64.close v 3.3%float = true /\
  exists soc, (Binary64.calculate_soc_percentage v 2.8 3.6)%float = Ok soc /\
              Binary64.close soc 62.5%float = true.
Proof.
  vm_compute. split; [reflexivity|]. split; [reflexivity|].
  eexists. split; reflexivity.
Qed.

End Binary64Example.

(** * More properties of the code *)

(** ** The chemistry table *)

(** X1: whatever the tag, the entry of the chemistry table has
    [0 < min_voltage < nominal_voltage < max_voltage] and a positive
    nominal capacity. *)
Theorem chemistry_bounds_ordered (tag : string) :
  let specs := get_cell_specs tag in
  0 < spec_min_voltage specs /\
  spec_min_voltage specs < spec_nominal_voltage specs /\
  spec_nominal_voltage specs < spec_max_voltage specs /\
  0 < spec_nominal_capacity specs.
Proof.
  unfold get_cell_specs.
  destruct (String.eqb (Py.lower tag) "lfp");
    [|destruct (String.eqb (Py.lower tag) "nmc")];
    cbn; conjs; reflexivity.
Qed.

Lemma lower_upper_ascii (c : ascii) :
  Py.lower_ascii (Py.upper_ascii c) = Py.lower_ascii c.
Proof. destruct c as [[] [] [] [] [] [] [] []]; reflexivity. Qed.

Lemma lower_lower_ascii (c : ascii) :
  Py.lower_ascii (Py.lower_ascii c) = Py.lower_ascii c.
Proof. destruct c as [[] [] [] [] [] [] [] []]; reflexivity. Qed.

Lemma lower_upper (s : string) : Py.lower (Py.upper s) = Py.lower s.
Proof.
  induction s as [|c s IH]; cbn; [reflexivity|].
  now rewrite lower_upper_ascii, IH.
Qed.

Lemma lower_lower (s : string) : Py.lower (Py.lower s) = Py.lower s.
Proof.
  induction s as [|c s IH]; cbn; [reflexivity|].
  now rewrite lower_lower_ascii, IH.
Qed.

(** X2: the chemistry table does not look at the case of the tag: the tag
    in upper case (as the cell stores it) and the tag in lower case (as the
    cell key spells it) get the entry of the tag itself. *)
Theorem chemistry_ignores_case (tag : string) :
  get_cell_specs (Py.upper tag) = get_cell_specs tag /\
  get_cell_specs (Py.lower tag) = get_cell_specs tag.
Proof.
  unfold get_cell_specs. now rewrite lower_upper, lower_lower.
Qed.

(** ** State of charge *)

Lemma ratio_at_most_0 (v mn mx : Q) :
  mn < mx -> v <= mn -> ((v - mn) / (mx - mn)) * 100 <= 0.
Proof.
  intros Hr Hv.
  assert (H : (v - mn) / (mx - mn) <= 0).
  { apply Qle_shift_div_r; lra. }
  lra.
Qed.

Lemma ratio_at_least_100 (v mn mx : Q) :
  mn < mx -> mx <= v -> 100 <= ((v - mn) / (mx - mn)) * 100.
Proof.
  intros Hr Hv.
  assert (H : 1 <= (v - mn) / (mx - mn)).
  { apply Qle_shift_div_l; lra. }
  lra.
Qed.

Lemma ratio_inside (v mn mx : Q) :
  mn < mx -> mn < v < mx ->
  0 < ((v - mn) / (mx - mn)) * 100 < 100.
Proof.
  intros Hr [Hlo Hhi].
  assert (H0 : 0 < (v - mn) / (mx - mn)).
  { apply Qlt_shift_div_l; lra. }
  assert (H1 : (v - mn) / (mx - mn) < 1).
  { apply Qlt_shift_div_r; lra. }
  lra.
Qed.

(** X3: with [min_voltage < max_voltage] the state of charge is 0 at and
    below [min_voltage], 100 at and above [max_voltage], and in between it
    is the ratio itself, strictly between 0 and 100. *)
Theorem soc_saturates (v mn mx : Q) :
  mn < mx ->
  (v <= mn -> calculate_soc_percentage v mn mx = Ok 0) /\
  (mx <= v -> calculate_soc_percentage v mn mx = Ok 100) /\
  (mn < v < mx ->
   calculate_soc_percentage v mn mx = Ok (((v - mn) / (mx - mn)) * 100) /\
   0 < ((v - mn) / (mx - mn)) * 100 < 100).
Proof.
  intro Hr. rewrite soc_defined by assumption.
  unfold Py.max, Py.min. conjs.
  - intro Hv. pose proof (ratio_at_most_0 v mn mx Hr Hv).
    by_ltb (((v - mn) / (mx - mn)) * 100) 100; [|lra].
    by_ltb 0 (((v - mn) / (mx - mn)) * 100); [lra|reflexivity].
  - intro Hv. pose proof (ratio_at_least_100 v mn mx Hr Hv).
    by_ltb (((v - mn) / (mx - mn)) * 100) 100; [lra|].
    by_ltb 0 100; [reflexivity | lra].
  - intro Hv. pose proof (ratio_inside v mn mx Hr Hv) as [H0 H1].
    by_ltb (((v - mn) / (mx - mn)) * 100) 100; [|lra].
    by_ltb 0 (((v - mn) / (mx - mn)) * 100); [|lra].
    split; [reflexivity | split; assumption].
Qed.

Lemma soc_saturates_witness :
  calculate_soc_percentage 2.5 2.8 3.6 = Ok 0 /\
  calculate_soc_percentage 3.9 2.8 3.6 = Ok 100 /\
  calculate_soc_percentage 3.2 2.8 3.6 = Ok (((3.2 - 2.8) / (3.6 - 2.8)) * 100).
Proof.
  assert (H : 2.8 < 3.6) by reflexivity.
  split; [|split].
  - apply (proj1 (soc_saturates 2.5 2.8 3.6 H)). discriminate.
  - apply (proj1 (proj2 (soc_saturates 3.9 2.8 3.6 H))). discriminate.
  - apply (proj2 (proj2 (soc_saturates 3.2 2.8 3.6 H))). split; reflexivity.
Defined.

(** X4: the state-of-charge function raises exactly when the two bounds are
    equal, and then it raises [ZeroDivisionError]; with any other bounds,
    inverted ones included, it returns a number. *)
Theorem soc_raises_iff_equal_bounds (v mn mx : Q) :
  (mn == mx <-> calculate_soc_percentage v mn mx = Raise ZeroDivisionError) /\
  (~ mn == mx <-> exists x, calculate_soc_percentage v mn mx = Ok x).
Proof.
  unfold calculate_soc_percentage.
  destruct (Qeq_bool (mx - mn) 0) eqn:E.
  - apply Qeq_bool_eq in E. assert (mn == mx) by lra.
    split; split; try tauto.
    intros (x & Hx). discriminate.
  - apply Qeq_bool_neq in E. assert (~ mn == mx) by (intro; apply E; lra).
    split; split; try tauto; try discriminate.
    intros _. eexists. reflexivity.
Qed.

(** ** One update of a cell *)

Lemma voltage_change_bounds (i : Q) :
  0 <= i -> 0 <= Py.min 0.1 (i * 0.02) <= 0.1 /\ Py.min 0.1 (i * 0.02) <= i * 0.02.
Proof.
  intro H. pose proof (min_le_l 0.1 (i * 0.02)). pose proof (min_le_r 0.1 (i * 0.02)).
  assert (0 <= Py.min 0.1 (i * 0.02)) by (apply min_glb; lra).
  repeat split; assumption.
Qed.

Lemma next_voltage_with_current (c : cell) :
  min_voltage c <= voltage c <= max_voltage c ->
  (0 < current c -> voltage c <= next_voltage c <= max_voltage c) /\
  (current c < 0 -> min_voltage c <= next_voltage c <= voltage c) /\
  (current c == 0 -> next_voltage c = voltage c).
Proof.
  intros [Hlo Hhi]. unfold next_voltage.
  by_ltb 0 (current c); [|by_ltb (current c) 0].
  - destruct (voltage_change_bounds (current c)) as [[D0 _] _]; [lra|].
    set (d := Py.min 0.1 (current c * 0.02)) in *.
    pose proof (min_le_l (max_voltage c) (voltage c + d)).
    assert (voltage c <= Py.min (max_voltage c) (voltage c + d))
      by (apply min_glb; lra).
    conjs; intro; lra.
  - assert (Ha : 0 <= Qabs (current c)) by apply Qabs_nonneg.
    destruct (voltage_change_bounds (Qabs (current c))) as [[D0 _] _];
      [assumption|].
    set (d := Py.min 0.1 (Qabs (current c) * 0.02)) in *.
    pose proof (max_ge_l (min_voltage c) (voltage c - d)).
    assert (Py.max (min_voltage c) (voltage c - d) <= voltage c)
      by (apply max_lub; lra).
    conjs; intro; lra.
  - conjs; try (intro; lra). reflexivity.
Qed.

(** X5: one update moves the voltage of a cell that is within its bounds
    with the current, never against it and never past a bound: a charging
    cell ends between its old voltage and [max_voltage], a discharging one
    between [min_voltage] and its old voltage, and at zero current the
    voltage stays as it is. *)
Theorem update_moves_voltage_with_current (c : cell) (r : nat -> Q) :
  min_voltage c <= voltage c <= max_voltage c ->
  let v' := voltage (cell_after (update_cell (c, r))) in
  (0 < current c -> voltage c <= v' <= max_voltage c) /\
  (current c < 0 -> min_voltage c <= v' <= voltage c) /\
  (current c == 0 -> v' = voltage c).
Proof.
  intros H v'. subst v'.
  destruct (update_cell_frame c r) as (_ & _ & _ & _ & _ & _ & -> & _).
  now apply next_voltage_with_current.
Qed.

Lemma update_moves_voltage_with_current_witness :
  let c := mk_cell 3.55 7 30 0 2.8 3.6 3.2 100 93.75 "LFP" in
  let v' := voltage (cell_after (update_cell (c, fun _ => 0.5))) in
  (0 < current c -> voltage c <= v' <= max_voltage c) /\
  (current c < 0 -> min_voltage c <= v' <= voltage c) /\
  (current c == 0 -> v' = voltage c).
Proof.
  intro c.
  apply (update_moves_voltage_with_current c (fun _ => 0.5)).
  split; discriminate.
Defined.

(** X6: an update at a current of more than 1 A in absolute value draws one
    random number and leaves the temperature within [[20, 60]], whatever it
    was; a temperature that was within [[20, 60]] moves by -1 to +2 degrees
    at most.  At a current of at most 1 A the temperature stays and no
    random number is drawn. *)
Theorem update_temperature_bounds (c : cell) (r : nat -> Q) :
  min_voltage c < max_voltage c ->
  0 <= r 0%nat <= 1 ->
  let x := update_cell (c, r) in
  (1 < Qabs (current c) ->
   20 <= temp (cell_after x) <= 60 /\
   (20 <= temp c <= 60 -> temp c - 1 <= temp (cell_after x) <= temp c + 2) /\
   random_after x = (fun n => r (S n))) /\
  (Qabs (current c) <= 1 ->
   temp (cell_after x) = temp c /\ random_after x = r).
Proof.
  intros Hb Hr x. subst x.
  destruct (update_cell_returns c r Hb) as (_ & _ & -> & ->).
  by_ltb 1 (Qabs (current c)).
  - split; [|intro; lra]. intros _.
    set (t := temp c + (-1 + (2 - -1) * r 0%nat)).
    assert (Ht : temp c - 1 <= t <= temp c + 2) by (subst t; split; lra).
    pose proof (min_le_l 60 t). pose proof (min_le_r 60 t).
    pose proof (max_ge_l 20 (Py.min 60 t)).
    pose proof (max_ge_r 20 (Py.min 60 t)).
    assert (Py.max 20 (Py.min 60 t) <= 60) by (apply max_lub; lra).
    conjs; try assumption; try reflexivity.
    intros [T0 T1].
    assert (temp c - 1 <= Py.min 60 t) by (apply min_glb; lra).
    assert (Py.max 20 (Py.min 60 t) <= temp c + 2) by (apply max_lub; lra).
    split; lra.
  - split; [intro; lra|]. intros _. split; reflexivity.
Qed.

Lemma update_temperature_bounds_witness :
  let c := mk_cell 3.3 5 59.5 16.5 2.8 3.6 3.2 100 62.5 "LFP" in
  let x := update_cell (c, fun _ => 0.9) in
  (1 < Qabs (current c) ->
   20 <= temp (cell_after x) <= 60 /\
   (20 <= temp c <= 60 -> temp c - 1 <= temp (cell_after x) <= temp c + 2) /\
   random_after x = (fun n => 0.9)) /\
  (Qabs (current c) <= 1 ->
   temp (cell_after x) = temp c /\ random_after x = (fun _ => 0.9)).
Proof.
  intro c.
  apply (update_temperature_bounds c (fun _ => 0.9)).
  - reflexivity.
  - split; discriminate.
Defined.

(** X7: on a cell whose two bounds are equal the update is not atomic: it
    raises [ZeroDivisionError] after it has written the instant power and
    the new voltage, and before it touches the state of charge, the
    temperature or the random module. *)
Theorem update_raises_half_way (c : cell) (r : nat -> Q) :
  min_voltage c == max_voltage c ->
  let x := update_cell (c, r) in
  outcome x = Raise ZeroDivisionError /\
  capacity (cell_after x) = Py.round (voltage c * Qabs (current c)) 2 /\
  voltage (cell_after x) = next_voltage c /\
  soc (cell_after x) = soc c /\
  temp (cell_after x) = temp c /\
  random_after x = r.
Proof.
  intros He x. subst x.
  destruct (update_cell_frame c r) as (_ & _ & _ & _ & _ & _ & Ev & Ec).
  rewrite Ev, Ec. clear Ev Ec.
  unfold next_voltage. run_update.
  destruct (Py.ltb 0 (current c)); [|destruct (Py.ltb (current c) 0)];
    cbn -[calculate_soc_percentage Py.round Py.min Py.max];
    rewrite soc_raises by assumption;
    cbn -[Py.round Py.min Py.max]; conjs; reflexivity.
Qed.

Lemma update_raises_half_way_witness :
  let c := mk_cell 3.0 2 30 0 3.0 3.0 3.0 100 50 "odd" in
  let x := update_cell (c, fun _ => 0.5) in
  outcome x = Raise ZeroDivisionError /\
  capacity (cell_after x) = Py.round (voltage c * Qabs (current c)) 2 /\
  voltage (cell_after x) = next_voltage c /\
  soc (cell_after x) = soc c /\
  temp (cell_after x) = temp c /\
  random_after x = (fun _ => 0.5).
Proof.
  intro c. apply (update_raises_half_way c (fun _ => 0.5)). reflexivity.
Defined.

(** ** Updates in a row *)

Lemma steps_succ (n : nat) : steps (S n) == steps n + 1.
Proof.
  unfold steps. rewrite Nat2Z.inj_succ. unfold Z.succ.
  now rewrite inject_Z_plus.
Qed.

Lemma steps_nonneg (n : nat) : 0 <= steps n.
Proof.
  unfold steps. change 0 with (inject_Z 0). rewrite <- Zle_Qle. lia.
Qed.

Lemma soc_full (v mn mx : Q) :
  mn < mx -> mx <= v -> calculate_soc_percentage v mn mx = Ok 100.
Proof.
  intros Hr Hv. rewrite soc_defined by assumption.
  pose proof (ratio_at_least_100 v mn mx Hr Hv).
  unfold Py.max, Py.min.
  by_ltb (((v - mn) / (mx - mn)) * 100) 100; [lra|].
  by_ltb 0 100; [reflexivity | lra].
Qed.

Lemma soc_empty (v mn mx : Q) :
  mn < mx -> v <= mn -> calculate_soc_percentage v mn mx = Ok 0.
Proof.
  intros Hr Hv. rewrite soc_defined by assumption.
  pose proof (ratio_at_most_0 v mn mx Hr Hv).
  unfold Py.max, Py.min.
  by_ltb (((v - mn) / (mx - mn)) * 100) 100; [|lra].
  by_ltb 0 (((v - mn) / (mx - mn)) * 100); [lra | reflexivity].
Qed.

(** One more update after [n]: the last one is run on what the first [n]
    leave. *)
Lemma update_cell_times_last (n : nat) :
  forall w : cell_world,
    update_cell_times (S n) w = (update_cell_times n ;; update_cell) w.
Proof.
  induction n as [|n IH]; intro w.
  - cbn [update_cell_times]. unfold bind, ret.
    now destruct (update_cell w) as [[[]|e] w'].
  - change (update_cell_times (S (S n)) w)
      with ((update_cell ;; update_cell_times (S n)) w).
    change ((update_cell_times (S n) ;; update_cell) w)
      with (((update_cell ;; update_cell_times n) ;; update_cell) w).
    unfold bind.
    destruct (update_cell w) as [[[]|e] w']; [|reflexivity].
    rewrite IH. reflexivity.
Qed.

(** What [n] updates at a constant current keep and where they go. *)
Lemma updates_in_a_row (n : nat) :
  forall (c : cell) (r : nat -> Q),
    min_voltage c < max_voltage c ->
    min_voltage c <= voltage c <= max_voltage c ->
    let x := update_cell_times n (c, r) in
    outcome x = Ok tt /\
    current (cell_after x) = current c /\
    min_voltage (cell_after x) = min_voltage c /\
    max_voltage (cell_after x) = max_voltage c /\
    min_voltage c <= voltage (cell_after x) <= max_voltage c /\
    (0 < current c -> voltage c <= voltage (cell_after x)) /\
    (current c < 0 -> voltage (cell_after x) <= voltage c).
Proof.
  induction n as [|n IH]; intros c r Hb Hv x; subst x.
  - cbn. conjs; try reflexivity; try tauto; intro; lra.
  - destruct (update_cell_frame c r) as (Ei & Emin & Emax & _ & _ & _ & Ev & _).
    destruct (update_cell_returns c r Hb) as (Eout & _).
    pose proof (next_voltage_in_range c Hv) as Hn.
    destruct (next_voltage_with_current c Hv) as (Up & Down & _).
    rewrite update_cell_times_step by assumption.
    destruct (update_cell (c, r)) as [o [c1 r1]].
    unfold cell_after in *. cbn [fst snd] in *.
    destruct (IH c1 r1) as (Ho & Hi & Hmin & Hmax & Hr & Hup & Hdown).
    + now rewrite Emin, Emax.
    + now rewrite Emin, Emax, Ev.
    + unfold cell_after in *. rewrite Ei, Emin, Emax, Ev in *.
      split; [exact Ho|]. split; [exact Hi|]. split; [exact Hmin|].
      split; [exact Hmax|]. split; [exact Hr|]. split.
      * intro P. specialize (Up P). specialize (Hup P). lra.
      * intro P. specialize (Down P). specialize (Hdown P). lra.
Qed.

(** X8: [n] updates in a row at a constant current all return normally and
    move the voltage one way only: while the cell charges its voltage never
    falls from one update to the next and stays at or below [max_voltage],
    while it discharges its voltage never rises and stays at or above
    [min_voltage].  A bound once reached is kept: a cell that charges at
    [max_voltage] stays there, with a state of charge of 100 after every
    update, and one that discharges at [min_voltage] stays there, with a
    state of charge of 0. *)
Theorem updates_move_voltage_one_way (n : nat) (c : cell) (r : nat -> Q) :
  min_voltage c < max_voltage c ->
  min_voltage c <= voltage c <= max_voltage c ->
  let after := fun k => cell_after (update_cell_times k (c, r)) in
  outcome (update_cell_times n (c, r)) = Ok tt /\
  (0 < current c ->
   voltage c <= voltage (after n) /\
   voltage (after n) <= voltage (after (S n)) /\
   voltage (after (S n)) <= max_voltage c /\
   (voltage c == max_voltage c ->
    voltage (after n) == max_voltage c /\ soc (after (S n)) = 100)) /\
  (current c < 0 ->
   voltage (after (S n)) <= voltage (after n) /\
   voltage (after n) <= voltage c /\
   min_voltage c <= voltage (after (S n)) /\
   (voltage c == min_voltage c ->
    voltage (after n) == min_voltage c /\ soc (after (S n)) = 0)).
Proof.
  intros Hb Hv after. subst after. cbv beta.
  destruct (updates_in_a_row n c r Hb Hv)
    as (Ho & Hi & Hmin & Hmax & Hr & Hup & Hdown).
  assert (Elast : update_cell_times (S n) (c, r)
                  = update_cell (snd (update_cell_times n (c, r)))).
  { rewrite update_cell_times_last. unfold bind. unfold outcome in Ho.
    destruct (update_cell_times n (c, r)) as [[[]|e] w];
      [reflexivity | discriminate]. }
  rewrite Elast. clear Elast.
  unfold outcome, cell_after in *.
  destruct (update_cell_times n (c, r)) as [o [cn rn]].
  cbn [fst snd] in *. subst o.
  assert (Hbn : min_voltage cn < max_voltage cn) by now rewrite Hmin, Hmax.
  assert (Hvn : min_voltage cn <= voltage cn <= max_voltage cn)
    by now rewrite Hmin, Hmax.
  destruct (update_cell_frame cn rn) as (_ & _ & _ & _ & _ & _ & Ev & _).
  destruct (update_cell_returns cn rn Hbn) as (_ & Esoc & _).
  destruct (next_voltage_with_current cn Hvn) as (Up & Down & _).
  unfold cell_after in *. rewrite Ev in *. rewrite Hi, Hmin, Hmax in *.
  split; [reflexivity|]. split.
  - intro P. specialize (Up P). specialize (Hup P).
    split; [exact Hup|]. split; [apply Up|]. split; [apply Up|].
    intro Top. split; [lra|].
    rewrite soc_full in Esoc by (try assumption; lra). congruence.
  - intro P. specialize (Down P). specialize (Hdown P).
    split; [apply Down|]. split; [exact Hdown|]. split; [apply Down|].
    intro Bottom. split; [lra|].
    rewrite soc_empty in Esoc by (try assumption; lra). congruence.
Qed.

Lemma updates_move_voltage_one_way_witness :
  let c := set_current 5 bench_cell in
  let after := fun k => cell_after (update_cell_times k (c, fun _ => 0.5)) in
  outcome (update_cell_times 4 (c, fun _ => 0.5)) = Ok tt /\
  (0 < current c ->
   voltage c <= voltage (after 4%nat) /\
   voltage (after 4%nat) <= voltage (after 5%nat) /\
   voltage (after 5%nat) <= max_voltage c /\
   (voltage c == max_voltage c ->
    voltage (after 4%nat) == max_voltage c /\ soc (after 5%nat) = 100)) /\
  (current c < 0 ->
   voltage (after 5%nat) <= voltage (after 4%nat) /\
   voltage (after 4%nat) <= voltage c /\
   min_voltage c <= voltage (after 5%nat) /\
   (voltage c == min_voltage c ->
    voltage (after 4%nat) == min_voltage c /\ soc (after 5%nat) = 0)).
Proof.
  intros c.
  apply (updates_move_voltage_one_way 4 c (fun _ => 0.5)).
  - reflexivity.
  - split; discriminate.
Defined.

(** ** Keys *)

Lemma to_uint_nonnil (n : nat) : Nat.to_uint n <> Decimal.Nil.
Proof.
  intro H. pose proof (DecimalNat.Unsigned.of_to n) as E.
  rewrite H in E. cbn in E. subst n. discriminate H.
Qed.

Lemma str_of_nat_digits (n : nat) :
  Py.str_of_nat n = NilEmpty.string_of_uint (Nat.to_uint n).
Proof.
  unfold Py.str_of_nat, NilZero.string_of_uint.
  pose proof (to_uint_nonnil n). now destruct (Nat.to_uint n).
Qed.

(** A number in digits, then an underscore: the number can be read back. *)
Lemma digits_then_underscore (d d' : Decimal.uint) (t t' : string) :
  NilEmpty.string_of_uint d ++ String "_" t
  = NilEmpty.string_of_uint d' ++ String "_" t' ->
  d = d' /\ t = t'.
Proof.
  revert d'. induction d; intro d'; destruct d'; cbn; intro H;
    try discriminate H;
    try (injection H as H; apply IHd in H; destruct H; split; congruence).
  injection H as H. now split.
Qed.

Lemma str_of_nat_inj (n m : nat) : Py.str_of_nat n = Py.str_of_nat m -> n = m.
Proof.
  rewrite !str_of_nat_digits. intro H.
  apply DecimalNat.Unsigned.to_uint_inj.
  assert (E : NilEmpty.uint_of_string (NilEmpty.string_of_uint (Nat.to_uint n))
              = NilEmpty.uint_of_string
                  (NilEmpty.string_of_uint (Nat.to_uint m)))
    by now rewrite H.
  rewrite !NilEmpty.usu in E. congruence.
Qed.

Lemma task_key_of_inj (i j : nat) : task_key_of i = task_key_of j -> i = j.
Proof.
  unfold task_key_of. cbn. intro H. injection H as H.
  apply str_of_nat_inj in H. lia.
Qed.

Lemma cell_key_of_inj (i j : nat) (ty ty' : string) :
  cell_key_of i ty = cell_key_of j ty' -> i = j.
Proof.
  unfold cell_key_of. cbn. rewrite !str_of_nat_digits.
  intro H. injection H as H.
  apply digits_then_underscore in H. destruct H as [H _].
  now apply DecimalNat.Unsigned.to_uint_inj.
Qed.

(** ** More on dictionaries *)

Section DictMore.

Context {V : Type}.
Implicit Types (d : dict V) (k : string) (v : V).

Lemma dict_get_none_keys k d : dict_get k d = None <-> ~ In k (dict_keys d).
Proof.
  split.
  - intros H Hin. apply dict_key_bound in Hin. destruct Hin as [v Hv].
    congruence.
  - intro H. destruct (dict_get k d) as [v|] eqn:G; [|reflexivity].
    exfalso. apply H. eapply dict_bound_key; eauto.
Qed.

Lemma dict_set_fresh k v d :
  dict_get k d = None -> dict_set k v d = (d ++ [(k, v)])%list.
Proof.
  induction d as [|[k' v'] d IH]; cbn; [reflexivity|].
  destruct (String.eqb k k'); [discriminate|].
  intro H. now rewrite IH.
Qed.

Lemma dict_get_app k d d' :
  dict_get k (d ++ d')%list
  = match dict_get k d with Some v => Some v | None => dict_get k d' end.
Proof.
  induction d as [|[k' v'] d IH]; cbn; [reflexivity|].
  now destruct (String.eqb k k').
Qed.

Lemma dict_keys_app d d' :
  dict_keys (d ++ d')%list = (dict_keys d ++ dict_keys d')%list.
Proof. unfold dict_keys. apply map_app. Qed.

(** Without a key bound twice, what holds of every value one can look up
    holds of every value of the dictionary. *)
Lemma dict_all_values (P : V -> Prop) d :
  NoDup (dict_keys d) -> dict_all P d -> Forall P (dict_values d).
Proof.
  induction d as [|[k v] d IH]; cbn; intros Hnd Hall; constructor.
  - apply (Hall k v). cbn. now rewrite String.eqb_refl.
  - inversion Hnd as [|? ? Hk Hd]; subst. apply IH; [assumption|].
    intros k' v' G. apply (Hall k' v'). cbn.
    destruct (String.eqb k' k) eqn:E; [|assumption].
    apply String.eqb_eq in E. subst k'.
    exfalso. apply Hk. eapply dict_bound_key; eauto.
Qed.

Lemma dict_values_all (P : V -> Prop) d :
  Forall P (dict_values d) -> dict_all P d.
Proof.
  intros H. apply dict_all_Forall.
  unfold dict_values in H. rewrite Forall_map in H. exact H.
Qed.

End DictMore.

(** ** The saved task sequence *)

Lemma task_sequence_from_outside (tasks : list task) :
  forall (i : nat) (d : dict task) (k : string),
    (forall j, (j < List.length tasks)%nat -> k <> task_key_of (i + j)) ->
    dict_get k (task_sequence_from i tasks d) = dict_get k d.
Proof.
  induction tasks as [|t rest IH]; intros i d k Hk; cbn; [reflexivity|].
  rewrite IH.
  - apply dict_get_set_other. intro E. apply (Hk 0%nat); [cbn; lia|].
    now rewrite Nat.add_0_r.
  - intros j Hj. replace (S i + j)%nat with (i + S j)%nat by lia.
    apply Hk. cbn. lia.
Qed.

Lemma task_sequence_from_inside (tasks : list task) :
  forall (i : nat) (d : dict task) (j : nat),
    (j < List.length tasks)%nat ->
    dict_get (task_key_of (i + j)) (task_sequence_from i tasks d)
    = nth_error tasks j.
Proof.
  induction tasks as [|t rest IH]; intros i d j Hj; cbn in Hj; [lia|].
  cbn [task_sequence_from]. destruct j as [|j]; cbn [nth_error].
  - rewrite task_sequence_from_outside.
    + rewrite Nat.add_0_r. apply dict_get_set_same.
    + intros j Hj' E. apply task_key_of_inj in E. lia.
  - replace (i + S j)%nat with (S i + j)%nat by lia.
    apply IH. lia.
Qed.

Lemma task_sequence_from_len (tasks : list task) :
  forall (i : nat) (d : dict task),
    (forall j, dict_get (task_key_of (i + j)) d = None) ->
    dict_len (task_sequence_from i tasks d)
    = (dict_len d + List.length tasks)%nat.
Proof.
  induction tasks as [|t rest IH]; intros i d Hd;
    cbn [task_sequence_from List.length]; [lia|].
  rewrite IH.
  - rewrite dict_set_fresh
      by (rewrite <- (Nat.add_0_r i); apply Hd).
    unfold dict_len. rewrite length_app. cbn. lia.
  - intro j. rewrite dict_get_set_other.
    + replace (S i + j)%nat with (i + S j)%nat by lia. apply Hd.
    + intro E. apply task_key_of_inj in E. lia.
Qed.

(** X9: saving a list of tasks and looking a task up by its key is a round
    trip: the saved sequence has as many entries as the list, key
    [task_(j+1)] holds the task at position [j], and no task is found past
    the end of the list. *)
Theorem task_sequence_lookup (tasks : list task) (j : nat) :
  dict_len (task_sequence tasks) = List.length tasks /\
  dict_get (task_key_of j) (task_sequence tasks) = nth_error tasks j.
Proof.
  unfold task_sequence. split.
  - now rewrite task_sequence_from_len.
  - destruct (Nat.lt_ge_cases j (List.length tasks)) as [H|H].
    + now apply (task_sequence_from_inside tasks 0 [] j).
    + rewrite task_sequence_from_outside.
      * symmetry. now apply nth_error_None.
      * intros j' Hj' E. apply task_key_of_inj in E. cbn in E. lia.
Qed.

Lemma task_sequence_get (tasks : list task) (j : nat) :
  dict_get (task_key_of j) (task_sequence tasks) = nth_error tasks j.
Proof.
  unfold task_sequence.
  destruct (Nat.lt_ge_cases j (List.length tasks)) as [H|H].
  - now apply (task_sequence_from_inside tasks 0 [] j).
  - rewrite task_sequence_from_outside.
    + symmetry. now apply nth_error_None.
    + intros j' Hj' E. apply task_key_of_inj in E. cbn in E. lia.
Qed.

Lemma task_sequence_len (tasks : list task) :
  dict_len (task_sequence tasks) = List.length tasks.
Proof. unfold task_sequence. now rewrite task_sequence_from_len. Qed.

(** ** Elapsed time *)

Lemma timedelta_seconds_bounds (a b : datetime) :
  (0 <= timedelta_seconds a b < 86400)%Z.
Proof. unfold timedelta_seconds. apply Z.mod_pos_bound. lia. Qed.

Lemma timedelta_seconds_after (t : datetime) (d : Z) :
  timedelta_seconds (t + d * 1000000)%Z t = (d mod 86400)%Z.
Proof.
  unfold timedelta_seconds.
  replace (t + d * 1000000 - t)%Z with (d * 1000000)%Z by lia.
  now rewrite Z.div_mul by lia.
Qed.

Lemma duration_over (t : datetime) (d : Z) :
  (d < 86400)%Z -> (d <= timedelta_seconds (t + d * 1000000)%Z t)%Z.
Proof.
  intro H. rewrite timedelta_seconds_after.
  destruct (Z.lt_ge_cases d 0) as [Hn|Hp].
  - pose proof (Z.mod_pos_bound d 86400). lia.
  - rewrite Z.mod_small; lia.
Qed.

(** X10: the elapsed time a tick computes is the seconds field of a
    [timedelta], which is below 86400 whatever the two instants; so a
    running task whose duration is 86400 seconds or more is never ended by
    a tick: every tick, at any instant, leaves the session as it is. *)
Theorem day_long_task_never_ends
    (now started : datetime) (s : session) (t : task) :
  task_running s = true ->
  task_start_time s = Some started ->
  dict_get (task_key_of (current_task_index s)) (tasks_data s) = Some t ->
  (86400 <= time_seconds t)%Z ->
  main_auto_update now s = (Ok tt, s).
Proof.
  intros Hr Hs G Hd.
  apply (tick_waits now started s t Hr Hs G).
  pose proof (timedelta_seconds_bounds now started). lia.
Qed.

Lemma day_long_task_never_ends_witness :
  let s := mk_session [("cell_1_lfp", bench_cell)] ["LFP"] true
             (task_sequence [IDLE 90000]) true 0 (Some (at_second 0)) []
             (fun _ => 0.5) in
  main_auto_update (at_second 90000) s = (Ok tt, s).
Proof.
  intro s.
  apply (day_long_task_never_ends (at_second 90000) (at_second 0) s
           (IDLE 90000)); reflexivity || discriminate.
Defined.

(** X11: when the cursor of a running sequence is past the end of the saved
    sequence (a shorter sequence was saved during the run), no task is found
    under the cursor and the tick falls back on 60 seconds: before that it
    does nothing, and from then on it ends the run, with the index back at 0
    and nothing executed or logged. *)
Theorem cursor_past_saved_sequence
    (now started : datetime) (s : session) (tasks : list task) :
  task_running s = true ->
  task_start_time s = Some started ->
  tasks_data s = task_sequence tasks ->
  (List.length tasks <= current_task_index s)%nat ->
  ((timedelta_seconds now started < 60)%Z ->
   main_auto_update now s = (Ok tt, s)) /\
  ((60 <= timedelta_seconds now started)%Z ->
   exists s',
     main_auto_update now s = (Ok tt, s') /\
     task_running s' = false /\ current_task_index s' = 0%nat /\
     task_start_time s' = Some now /\
     task_history s' = task_history s /\
     cells_data s' = cells_data s /\ random_state s' = random_state s).
Proof.
  intros Hr Hs Ht Hlen.
  assert (G : dict_get (task_key_of (current_task_index s)) (tasks_data s)
              = None).
  { rewrite Ht, task_sequence_get. now apply nth_error_None. }
  split.
  - intro H. unfold main_auto_update, bind at 1, get. rewrite Hr, Hs, G.
    apply Z.leb_gt in H. now rewrite H.
  - intro H. unfold main_auto_update, bind at 1, get. rewrite Hr, Hs, G.
    apply Z.leb_le in H. rewrite H.
    unfold bind, modify, get.
    cbn [tasks_data current_task_index set_task_start_time
         set_current_task_index].
    rewrite Ht, task_sequence_len.
    assert (L : (List.length tasks <=? current_task_index s + 1)%nat = true)
      by (apply Nat.leb_le; lia).
    rewrite L. eexists. conjs; reflexivity.
Qed.

Lemma cursor_past_saved_sequence_witness :
  let s := mk_session [("cell_1_lfp", bench_cell)] ["LFP"] true
             (task_sequence [IDLE 5]) true 2 (Some (at_second 0)) []
             (fun _ => 0.5) in
  ((timedelta_seconds (at_second 61) (at_second 0) < 60)%Z ->
   main_auto_update (at_second 61) s = (Ok tt, s)) /\
  ((60 <= timedelta_seconds (at_second 61) (at_second 0))%Z ->
   exists s',
     main_auto_update (at_second 61) s = (Ok tt, s') /\
     task_running s' = false /\ current_task_index s' = 0%nat /\
     task_start_time s' = Some (at_second 61) /\
     task_history s' = task_history s /\
     cells_data s' = cells_data s /\ random_state s' = random_state s).
Proof.
  intro s.
  apply (cursor_past_saved_sequence (at_second 61) (at_second 0) s [IDLE 5]);
    reflexivity || (cbn; lia).
Defined.

(** ** A whole run *)

Lemma ticks_cons (now : datetime) (rest : list datetime) (s s' : session) :
  main_auto_update now s = (Ok tt, s') ->
  ticks (now :: rest) s = ticks rest s'.
Proof. intro E. cbn [ticks]. unfold bind. now rewrite E. Qed.

Lemma last_cons_shift {A} (x d : A) (l : list A) :
  last (x :: l) d = last l x.
Proof.
  revert x d. induction l as [|y l IH]; intros x d; [reflexivity|].
  change (last (x :: y :: l) d) with (last (y :: l) d).
  now rewrite (IH y d), (IH y x).
Qed.

(** From a task under way to the end of the run, one tick at the end of
    each task. *)
Lemma run_from_task (tasks rest : list task) :
  forall (pre : list task) (cur : task) (t : datetime) (s : session),
    tasks = (pre ++ cur :: rest)%list ->
    Forall (fun x => (time_seconds x < 86400)%Z) (cur :: rest) ->
    dict_all cell_ok (cells_data s) ->
    dict_all (fun c => current c = task_current cur) (cells_data s) ->
    tasks_data s = task_sequence tasks ->
    task_running s = true ->
    current_task_index s = List.length pre ->
    task_start_time s = Some t ->
    exists s',
      ticks (task_ends t (cur :: rest)) s = (Ok tt, s') /\
      task_running s' = false /\ current_task_index s' = 0%nat /\
      tasks_data s' = tasks_data s /\
      task_history s'
      = (task_history s
         ++ started_entries (t + time_seconds cur * 1000000)%Z
              (S (List.length pre)) rest)%list /\
      dict_keys (cells_data s') = dict_keys (cells_data s) /\
      dict_all cell_ok (cells_data s') /\
      dict_all (fun c => current c = task_current (last rest cur))
               (cells_data s').
Proof.
  induction rest as [|nxt rest IH];
    intros pre cur t s Etasks Hd Hok Hcur Ht Hr Hi Hs.
  - assert (G : dict_get (task_key_of (current_task_index s)) (tasks_data s)
                = Some cur).
    { rewrite Ht, task_sequence_get, Hi, Etasks.
      rewrite nth_error_app2 by lia. now rewrite Nat.sub_diag. }
    inversion Hd as [|? ? Hd1 _]; subst.
    cbn [task_ends].
    rewrite (ticks_cons _ _ s _
               (tick_completes _ t s cur Hr Hs G (duration_over t _ Hd1)
                  ltac:(rewrite Ht, task_sequence_len, length_app, Hi;
                        cbn; lia))).
    eexists. split; [reflexivity|].
    cbn. rewrite app_nil_r. conjs; auto.
  - assert (G : dict_get (task_key_of (current_task_index s)) (tasks_data s)
                = Some cur).
    { rewrite Ht, task_sequence_get, Hi, Etasks.
      rewrite nth_error_app2 by lia. now rewrite Nat.sub_diag. }
    assert (G' : dict_get (task_key_of (current_task_index s + 1))
                   (tasks_data s) = Some nxt).
    { rewrite Ht, task_sequence_get, Hi, Etasks.
      rewrite nth_error_app2 by lia.
      replace (List.length pre + 1 - List.length pre)%nat with 1%nat by lia.
      reflexivity. }
    inversion Hd as [|? ? Hd1 Hd']; subst.
    set (t1 := (t + time_seconds cur * 1000000)%Z).
    destruct (tick_advances t1 t s cur nxt Hok Hr Hs G
                (duration_over t _ Hd1)) as (d & r & E & K & A & C).
    { rewrite Ht, task_sequence_len, length_app, Hi. cbn. lia. }
    { exact G'. }
    cbn [task_ends]. fold t1. rewrite (ticks_cons _ _ _ _ E).
    match type of E with _ = (_, ?x) => set (s1 := x) in * end.
    destruct (IH (pre ++ [cur])%list nxt t1 s1) as (s' & R).
    + now rewrite <- app_assoc.
    + exact Hd'.
    + exact A.
    + exact C.
    + exact Ht.
    + exact Hr.
    + subst s1. cbn. rewrite Hi, length_app. cbn. lia.
    + reflexivity.
    + destruct R as (E' & R1 & R2 & R3 & R4 & R5 & R6 & R7).
      exists s'. conjs; try assumption.
      * rewrite R4. subst s1. cbn [task_history set_task_history].
        rewrite <- app_assoc. cbn [app started_entries].
        rewrite length_app, Hi. cbn [List.length].
        replace (List.length pre + 1)%nat with (S (List.length pre)) by lia.
        reflexivity.
      * rewrite R5. subst s1. cbn. exact K.
      * now rewrite last_cons_shift.
Qed.

(** X12: any saved sequence of tasks, each shorter than a day, runs to its
    end when it is started and then ticked once at the end of each task:
    every call returns normally, the history gains one "started" entry per
    task, in order and stamped with the instant the task began, the run
    ends not running with the index back at 0, the cells keep the current of
    the last task, and every later tick changes nothing. *)
Theorem sequence_runs_to_completion
    (first : task) (others : list task) (s0 : session) (t0 : datetime) :
  dict_all cell_ok (cells_data s0) ->
  tasks_data s0 = task_sequence (first :: others) ->
  Forall (fun x => (time_seconds x < 86400)%Z) (first :: others) ->
  exists s1 s2,
    start_task_sequence t0 s0 = (Ok tt, s1) /\
    ticks (task_ends t0 (first :: others)) s1 = (Ok tt, s2) /\
    task_running s2 = false /\ current_task_index s2 = 0%nat /\
    task_history s2
    = (task_history s0 ++ started_entries t0 0 (first :: others))%list /\
    dict_keys (cells_data s2) = dict_keys (cells_data s0) /\
    dict_all cell_ok (cells_data s2) /\
    dict_all (fun c => current c = task_current (last others first))
             (cells_data s2) /\
    (forall now, main_auto_update now s2 = (Ok tt, s2)).
Proof.
  intros Hok Ht Hd.
  destruct (start_task_sequence_spec t0 s0 first Hok)
    as (d & r & E & K & A & C).
  { rewrite Ht. apply (task_sequence_get (first :: others) 0). }
  match type of E with _ = (_, ?x) => set (s1 := x) in * end.
  destruct (run_from_task (first :: others) others [] first t0 s1)
    as (s2 & R1 & R2 & R3 & R4 & R5 & R6 & R7 & R8);
    try reflexivity; try assumption.
  exists s1, s2. conjs; try assumption.
  - rewrite R5. subst s1. cbn [task_history set_task_history].
    rewrite <- app_assoc. reflexivity.
  - rewrite R6. exact K.
  - intro now. now apply tick_idle.
Qed.

Lemma sequence_runs_to_completion_witness :
  let s0 := set_tasks_data
              (task_sequence [CC_CV 2 4 2 10 300; IDLE 60; CC_CD (-2) 3 10 300])
              one_cell_bench in
  exists s1 s2,
    start_task_sequence (at_second 7) s0 = (Ok tt, s1) /\
    ticks (task_ends (at_second 7)
             [CC_CV 2 4 2 10 300; IDLE 60; CC_CD (-2) 3 10 300]) s1
    = (Ok tt, s2) /\
    task_running s2 = false /\ current_task_index s2 = 0%nat /\
    task_history s2
    = (task_history s0
       ++ started_entries (at_second 7) 0
            [CC_CV 2 4 2 10 300; IDLE 60; CC_CD (-2) 3 10 300])%list /\
    dict_keys (cells_data s2) = dict_keys (cells_data s0) /\
    dict_all cell_ok (cells_data s2) /\
    dict_all (fun c => current c = -2) (cells_data s2) /\
    (forall now, main_auto_update now s2 = (Ok tt, s2)).
Proof.
  intro s0.
  apply (sequence_runs_to_completion (CC_CV 2 4 2 10 300)
           [IDLE 60; CC_CD (-2) 3 10 300] s0 (at_second 7)).
  - apply dict_all_Forall. repeat constructor.
  - reflexivity.
  - repeat constructor.
Defined.

(** ** Cell setup *)

Lemma div_le_pos (p x u : Q) : 0 < p -> (x / p <= u <-> x <= u * p).
Proof.
  intro Hp. split; intro H.
  - setoid_replace x with ((x / p) * p) by (field; lra).
    apply Qmult_le_compat_r; [exact H | lra].
  - apply Qle_shift_div_r; assumption.
Qed.

Lemma le_div_pos (p x u : Q) : 0 < p -> (u <= x / p <-> u * p <= x).
Proof.
  intro Hp. split; intro H.
  - setoid_replace x with ((x / p) * p) by (field; lra).
    apply Qmult_le_compat_r; [exact H | lra].
  - apply Qle_shift_div_l; assumption.
Qed.

Lemma power_of_ten_pos (nd : nat) : 0 < inject_Z (10 ^ Z.of_nat nd).
Proof.
  change 0 with (inject_Z 0). rewrite <- Zlt_Qlt.
  apply Z.pow_pos_nonneg; lia.
Qed.

(** [round(u, nd)] stays between two bounds that have [nd] decimals. *)
Lemma round_between (nd : nat) (a b : Z) (u : Q) :
  let p := inject_Z (10 ^ Z.of_nat nd) in
  inject_Z a / p <= u <= inject_Z b / p ->
  inject_Z a / p <= Py.round u nd <= inject_Z b / p.
Proof.
  intros p [Ha Hb]. unfold Py.round. fold p.
  pose proof (power_of_ten_pos nd) as Hp. fold p in Hp.
  apply (div_le_pos p _ _ Hp) in Ha. apply (le_div_pos p _ _ Hp) in Hb.
  destruct (round_half_even_between a b (u * p)) as [Hl Hh]; [now split|].
  rewrite Zle_Qle in Hl, Hh.
  split.
  - apply (le_div_pos p _ _ Hp).
    setoid_replace (inject_Z a / p * p) with (inject_Z a) by (field; lra).
    exact Hl.
  - apply (div_le_pos p _ _ Hp).
    setoid_replace (inject_Z b / p * p) with (inject_Z b) by (field; lra).
    exact Hh.
Qed.

Lemma initial_temp_in_range (x : Q) :
  0 <= x <= 1 -> 25 <= Py.round (25 + (40 - 25) * x) 1 <= 40.
Proof.
  intro Hx.
  pose proof (round_between 1 250 400 (25 + (40 - 25) * x)) as R.
  cbv zeta in R.
  change (inject_Z (10 ^ Z.of_nat 1)) with 10 in R.
  setoid_replace (inject_Z 250 / 10) with 25 in R by reflexivity.
  setoid_replace (inject_Z 400 / 10) with 40 in R by reflexivity.
  apply R. split; lra.
Qed.

Lemma specs_eta (sp : cell_specs) :
  mk_specs (spec_nominal_voltage sp) (spec_min_voltage sp)
           (spec_max_voltage sp) (spec_nominal_capacity sp) = sp.
Proof. now destruct sp. Qed.

Lemma specs_of_upper (tag : string) :
  get_cell_specs (Py.upper tag) = get_cell_specs tag.
Proof. unfold get_cell_specs. now rewrite lower_upper. Qed.

(** The loop of "Initialize Cells", from a dictionary that holds no key of
    index [idx] or more. *)
Lemma initialize_cells_spec (types : list string) :
  forall (idx : nat) (cells : dict cell) (s : session),
    random_ok (random_state s) ->
    (forall j ty, (idx <= j)%nat -> dict_get (cell_key_of j ty) cells = None) ->
    exists new r,
      initialize_cells idx types cells s
      = (Ok (cells ++ new)%list, set_random_state r s) /\
      random_ok r /\
      dict_keys new = cell_keys_from idx types /\
      map cell_type (dict_values new) = map Py.upper types /\
      Forall fresh_cell (dict_values new).
Proof.
  induction types as [|ty rest IH]; intros idx cells s Hr Hfresh.
  - exists [], (random_state s). cbn. rewrite app_nil_r.
    conjs; auto. now destruct s.
  - cbn [initialize_cells]. unfold bind at 1. unfold random_uniform at 1.
    cbn [uniform]. unfold bind at 1. unfold random_uniform at 1.
    cbn [uniform random_state set_random_state]. unfold bind at 1.
    rewrite soc_defined by apply specs_min_lt_max. unfold lift.
    fold (cell_key_of idx ty).
    rewrite dict_set_fresh by (apply Hfresh; lia).
    match goal with
    | |- context [(cells ++ [(_, ?c)])%list] => set (c0 := c)
    end.
    match goal with
    | |- context [initialize_cells _ _ _ ?st] => set (s2 := st)
    end.
    destruct (IH (S idx) (cells ++ [(cell_key_of idx ty, c0)])%list s2)
      as (new & r & E & Hr' & K & T & F).
    + subst s2. cbn. intro n. apply Hr.
    + intros j ty' Hj. rewrite dict_get_app, Hfresh by lia. cbn [dict_get].
      destruct (String.eqb (cell_key_of j ty') (cell_key_of idx ty)) eqn:Eq;
        [|reflexivity].
      apply String.eqb_eq, cell_key_of_inj in Eq. lia.
    + exists ((cell_key_of idx ty, c0) :: new), r.
      rewrite E. rewrite <- app_assoc. cbn [app].
      conjs; try assumption.
      * reflexivity.
      * change (dict_keys ((cell_key_of idx ty, c0) :: new))
          with (cell_key_of idx ty :: dict_keys new).
        now rewrite K.
      * change (dict_values ((cell_key_of idx ty, c0) :: new))
          with (c0 :: dict_values new).
        cbn [map]. now rewrite T.
      * change (dict_values ((cell_key_of idx ty, c0) :: new))
          with (c0 :: dict_values new).
        constructor; [|exact F].
        subst c0. unfold fresh_cell.
        cbn [current capacity temp voltage min_voltage max_voltage soc
             nominal_voltage nominal_capacity cell_type].
        conjs.
        -- reflexivity.
        -- apply round_zero. change (Qabs 0.0) with 0.0. ring.
        -- apply initial_temp_in_range. apply Hr.
        -- apply initial_temp_in_range. apply Hr.
        -- apply initial_voltage_in_range. apply Hr.
        -- apply initial_voltage_in_range. apply Hr.
        -- apply soc_defined, specs_min_lt_max.
        -- now rewrite specs_eta, specs_of_upper.
Qed.

Lemma cell_keys_from_index (types : list string) :
  forall (idx : nat) (k : string),
    In k (cell_keys_from idx types) ->
    exists j ty, k = cell_key_of j ty /\ (idx <= j)%nat.
Proof.
  induction types as [|ty rest IH]; intros idx k; cbn; [tauto|].
  intros [<-|H].
  - exists idx, ty. split; [reflexivity | lia].
  - destruct (IH (S idx) k H) as (j & ty' & -> & Hj).
    exists j, ty'. split; [reflexivity | lia].
Qed.

Lemma cell_keys_from_nodup (types : list string) :
  forall idx, NoDup (cell_keys_from idx types).
Proof.
  induction types as [|ty rest IH]; intro idx; cbn; constructor.
  - intro H. apply cell_keys_from_index in H.
    destruct H as (j & ty' & E & Hj).
    apply (cell_key_of_inj idx j ty ty') in E. lia.
  - apply IH.
Qed.

Lemma cell_keys_from_length (types : list string) :
  forall idx, List.length (cell_keys_from idx types) = List.length types.
Proof.
  induction types as [|ty rest IH]; intro idx; cbn; [reflexivity|].
  now rewrite IH.
Qed.

(** X13: with a random module that returns numbers of the unit interval,
    "Initialize Cells" returns normally and replaces the pool by one cell
    per type of the list, in the order of the list and under the keys
    [cell_1_<type>], [cell_2_<type>], ..., no two alike; every cell is at
    rest, carries the data of the chemistry table for its type, a voltage
    within its bounds with the matching state of charge, and a temperature
    in [[25, 40]].  The saved tasks, the run flag, the index, the start time
    and the history are not touched. *)
Theorem initialize_creates_one_cell_per_type
    (types : list string) (s : session) :
  random_ok (random_state s) ->
  exists s',
    click_initialize_cells types s = (Ok tt, s') /\
    dict_keys (cells_data s') = cell_keys_from 1 types /\
    NoDup (dict_keys (cells_data s')) /\
    total_cells s' = List.length types /\
    map cell_type (dict_values (cells_data s')) = map Py.upper types /\
    Forall fresh_cell (dict_values (cells_data s')) /\
    setup_complete s' = true /\ cell_types s' = types /\
    tasks_data s' = tasks_data s /\ task_running s' = task_running s /\
    current_task_index s' = current_task_index s /\
    task_start_time s' = task_start_time s /\
    task_history s' = task_history s.
Proof.
  intro Hr.
  destruct (initialize_cells_spec types 1 [] s Hr)
    as (new & r & E & Hr' & K & T & F); [reflexivity|].
  unfold click_initialize_cells, bind at 1. rewrite E.
  eexists. split; [reflexivity|].
  cbn [app cells_data set_cells_data set_cell_types set_setup_complete
       set_random_state setup_complete cell_types tasks_data task_running
       current_task_index task_start_time task_history total_cells].
  conjs; try reflexivity; try assumption.
  - rewrite K. apply cell_keys_from_nodup.
  - unfold total_cells, dict_len. cbn [cells_data].
    rewrite <- (cell_keys_from_length types 1), <- K.
    unfold dict_keys. now rewrite length_map.
Qed.

Lemma initialize_creates_one_cell_per_type_witness :
  let s := initialize_session_state (fun _ => 0.625) in
  exists s',
    click_initialize_cells ["LFP"; "NMC"; "LTO"] s = (Ok tt, s') /\
    dict_keys (cells_data s') = cell_keys_from 1 ["LFP"; "NMC"; "LTO"] /\
    NoDup (dict_keys (cells_data s')) /\
    total_cells s' = 3%nat /\
    map cell_type (dict_values (cells_data s')) = ["LFP"; "NMC"; "LTO"] /\
    Forall fresh_cell (dict_values (cells_data s')) /\
    setup_complete s' = true /\ cell_types s' = ["LFP"; "NMC"; "LTO"] /\
    tasks_data s' = tasks_data s /\ task_running s' = task_running s /\
    current_task_index s' = current_task_index s /\
    task_start_time s' = task_start_time s /\
    task_history s' = task_history s.
Proof.
  intro s.
  apply (initialize_creates_one_cell_per_type ["LFP"; "NMC"; "LTO"] s).
  intro n. split; discriminate.
Defined.

(** ** What holds of every cell of every session *)

Lemma cell_sound_bounds (c : cell) :
  cell_sound c -> min_voltage c < max_voltage c.
Proof.
  intros (Hsp & _).
  pose proof (specs_min_lt_max (cell_type c)) as H.
  rewrite <- Hsp in H. exact H.
Qed.

Lemma soc_value_range (v mn mx x : Q) :
  mn < mx -> calculate_soc_percentage v mn mx = Ok x -> 0 <= x <= 100.
Proof.
  intros Hb E. rewrite soc_defined in E by assumption.
  injection E as <-. split.
  - apply max_ge_l.
  - apply max_lub; [lra | apply min_le_l].
Qed.

Lemma fresh_cell_sound (c : cell) : fresh_cell c -> cell_sound c.
Proof.
  intros (_ & _ & Ht & Hv & Hs & Hsp).
  assert (Hb : min_voltage c < max_voltage c).
  { pose proof (specs_min_lt_max (cell_type c)) as H.
    rewrite <- Hsp in H. exact H. }
  unfold cell_sound. conjs; try tauto; try lra.
  - apply (soc_value_range _ _ _ _ Hb Hs).
  - apply (soc_value_range _ _ _ _ Hb Hs).
Qed.

Lemma set_current_sound (value : Q) (c : cell) :
  cell_sound c -> cell_sound (set_current value c).
Proof. intro H. exact H. Qed.

Lemma update_cell_sound (c : cell) (r : nat -> Q) :
  cell_sound c -> random_ok r ->
  cell_sound (cell_after (update_cell (c, r))).
Proof.
  intros Hc Hr. pose proof (cell_sound_bounds c Hc) as Hb.
  destruct Hc as (Hsp & Hv & Hs & Hsoc & Ht).
  destruct (update_cell_frame c r) as (_ & Emin & Emax & En & Ec & Ety & _).
  destruct (update_cell_returns c r Hb) as (_ & Esoc & Etemp & _).
  pose proof (update_keeps_voltage_in_range c r Hv) as Hv'. cbv zeta in Hv'.
  unfold cell_sound. rewrite Emin, Emax, En, Ec, Ety in *.
  conjs; try assumption; try tauto.
  - apply (soc_value_range _ _ _ _ Hb Esoc).
  - apply (soc_value_range _ _ _ _ Hb Esoc).
  - rewrite Etemp. by_ltb 1 (Qabs (current c)); [apply max_ge_l | tauto].
  - rewrite Etemp. by_ltb 1 (Qabs (current c)); [|tauto].
    apply max_lub; [lra | apply min_le_l].
Qed.

Lemma session_sound_fields (s s' : session) :
  cells_data s' = cells_data s -> random_state s' = random_state s ->
  session_sound s -> session_sound s'.
Proof. unfold session_sound. now intros -> ->. Qed.

Lemma sound_assign_current (k : string) (value : Q) :
  keeps session_sound (assign_current k value) (fun _ => True).
Proof.
  intros s (Hn & Hc & Hr). unfold assign_current, state_after, outcome.
  destruct (dict_get k (cells_data s)) as [c|] eqn:G; cbn [fst snd];
    (split; [|exact Logic.I]).
  - unfold session_sound. cbn [cells_data set_cells_data random_state].
    rewrite (dict_keys_set_bound k _ c) by assumption.
    conjs; try assumption.
    apply dict_all_set; [assumption|]. apply (Hc k c G).
  - unfold session_sound. conjs; assumption.
Qed.

Lemma sound_update_cell_calculations (k : string) :
  keeps session_sound (update_cell_calculations k) (fun _ => True).
Proof.
  intros s (Hn & Hc & Hr). unfold update_cell_calculations, state_after, outcome.
  destruct (dict_get k (cells_data s)) as [c|] eqn:G.
  - pose proof (update_cell_sound c (random_state s) (Hc k c G) Hr) as Hi.
    pose proof (update_cell_keeps_random c (random_state s) Hr) as Hr'.
    unfold cell_after, random_after in *.
    destruct (update_cell (c, random_state s)) as [o [c' r']].
    cbn [fst snd] in *. split; [|now destruct o].
    unfold session_sound.
    cbn [cells_data set_cells_data random_state set_random_state].
    rewrite (dict_keys_set_bound k _ c) by assumption.
    conjs; try assumption. now apply dict_all_set.
  - cbn [fst snd]. split; [|exact Logic.I].
    unfold session_sound. conjs; assumption.
Qed.

Create HintDb sound.

#[local] Hint Resolve keeps_get keeps_raise sound_assign_current
  sound_update_cell_calculations keeps_for_each : sound.

Ltac sound_step :=
  match goal with
  | |- keeps _ (bind _ _) _ => eapply keeps_bind; [|intros ? ?]
  | |- keeps _ (ret _) _ => now apply keeps_ret
  | |- keeps _ (lift _) _ => apply keeps_lift
  | |- keeps _ (modify _) _ =>
      apply keeps_unit_modify; intros ? ?;
      eapply session_sound_fields; [reflexivity | reflexivity | assumption]
  | |- keeps _ (for_each _ _) _ => apply keeps_for_each; intro
  | |- keeps _ (if ?b then _ else _) _ => destruct b
  | |- keeps _ (match ?x with Some _ => _ | None => _ end) _ => destruct x
  | |- keeps _ _ _ => solve [auto with sound]
  end.

Ltac sound_run := repeat sound_step.

Lemma sound_set_all_current (value : Q) :
  keeps session_sound (set_all_current value) (fun _ => True).
Proof. unfold set_all_current, for_each_cell. sound_run. Qed.

#[local] Hint Resolve sound_set_all_current : sound.

Lemma sound_execute_current_task (now : datetime) :
  keeps session_sound (execute_current_task now) (fun _ => True).
Proof.
  unfold execute_current_task, append_history, apply_cc_cv_task,
    apply_idle_task, apply_cc_cd_task.
  sound_run.
Qed.

#[local] Hint Resolve sound_execute_current_task : sound.

Lemma sound_initialize (types : list string) :
  keeps session_sound (click_initialize_cells types) (fun _ => True).
Proof.
  intros s (Hn & Hc & Hr).
  destruct (initialize_cells_spec types 1 [] s Hr)
    as (new & r & E & Hr' & K & T & F); [reflexivity|].
  assert (E' : click_initialize_cells types s
               = (Ok tt, set_setup_complete true
                           (set_cell_types types
                              (set_cells_data new (set_random_state r s))))).
  { unfold click_initialize_cells, bind at 1. now rewrite E. }
  unfold state_after, outcome. rewrite E'. cbn [fst snd].
  split; [|exact Logic.I].
  unfold session_sound.
  cbn [cells_data random_state set_setup_complete set_cell_types
       set_cells_data set_random_state].
  conjs.
  - rewrite K. apply cell_keys_from_nodup.
  - apply dict_values_all. eapply Forall_impl; [|exact F].
    intros c. apply fresh_cell_sound.
  - exact Hr'.
Qed.

Lemma sound_handle (e : event) :
  keeps session_sound (handle e) (fun _ => True).
Proof.
  destruct e; cbn [handle].
  - apply sound_initialize.
  - apply sound_set_all_current.
  - unfold individual_cell_controls, for_each_cell, individual_cell_control.
    sound_run.
  - unfold save_task_sequence. sound_run.
  - unfold click_start, start_task_sequence. sound_run.
  - unfold click_pause. sound_run.
  - unfold click_stop, stop_all_tasks. sound_run.
  - unfold main_auto_update. sound_run.
  - unfold click_reset. apply keeps_unit_modify.
    intros s (_ & _ & Hr). unfold session_sound. cbn.
    conjs; [constructor | intros k c; discriminate | exact Hr].
Qed.

Lemma reachable_session_sound (s : session) : reachable s -> session_sound s.
Proof.
  induction 1 as [seed Hseed | s e _ IH].
  - unfold session_sound. cbn.
    conjs; [constructor | intros k c; discriminate | exact Hseed].
  - apply (sound_handle e s IH).
Qed.

(** X14: in every session the dashboard can reach, no key of the pool is
    bound twice and every cell of the pool carries the data of the chemistry
    table for its type, a voltage within its bounds, the state of charge of
    that voltage, between 0 and 100 (so that the progress bar under its card
    gets a value between 0 and 1), and a temperature between 20 and 60. *)
Theorem reachable_cells_sound (s : session) :
  reachable s ->
  NoDup (dict_keys (cells_data s)) /\
  Forall cell_sound (dict_values (cells_data s)) /\
  Forall (fun c => 0 <= soc_progress c <= 1) (dict_values (cells_data s)).
Proof.
  intro H. destruct (reachable_session_sound s H) as (Hn & Hc & _).
  pose proof (dict_all_values cell_sound _ Hn Hc) as F.
  conjs; try assumption.
  eapply Forall_impl; [|exact F].
  intros c (_ & _ & _ & [H0 H1] & _). unfold soc_progress.
  split.
  - apply Qle_shift_div_l; [reflexivity|lra].
  - apply Qle_shift_div_r; [reflexivity|lra].
Qed.

Lemma reachable_cells_sound_witness :
  NoDup (dict_keys (cells_data one_cell_bench)) /\
  Forall cell_sound (dict_values (cells_data one_cell_bench)) /\
  Forall (fun c => 0 <= soc_progress c <= 1)
         (dict_values (cells_data one_cell_bench)).
Proof.
  apply (reachable_cells_sound one_cell_bench).
  apply one_cell_bench_reachable.
Defined.

(** ** What a run leaves as it was *)

Section Relates.

Variable R : session -> session -> Prop.
Hypothesis R_refl : forall s, R s s.
Hypothesis R_trans : forall s1 s2 s3, R s1 s2 -> R s2 s3 -> R s1 s3.

Lemma relates_ret {A} (a : A) : relates R (ret a).
Proof. intro s. apply R_refl. Qed.

Lemma relates_raise {A} (e : exn) : relates R (@raise session A e).
Proof. intro s. apply R_refl. Qed.

Lemma relates_get : relates R get.
Proof. intro s. apply R_refl. Qed.

Lemma relates_lift {A} (r : result A) : relates R (lift r).
Proof. intro s. apply R_refl. Qed.

Lemma relates_modify (f : session -> session) :
  (forall s, R s (f s)) -> relates R (modify f).
Proof. intros H s. apply H. Qed.

Lemma relates_bind {A B} (m : M session A) (k : A -> M session B) :
  relates R m -> (forall a, relates R (k a)) -> relates R (bind m k).
Proof.
  intros Hm Hk s. pose proof (Hm s) as H1.
  unfold state_after, bind in *.
  destruct (m s) as [[a|e] s1]; cbn [fst snd] in *.
  - eapply R_trans; [exact H1 | apply Hk].
  - exact H1.
Qed.

Lemma relates_for_each {A} (xs : list A) (body : A -> M session unit) :
  (forall x, relates R (body x)) -> relates R (for_each xs body).
Proof.
  intro Hb. induction xs as [|x xs IH]; cbn [for_each].
  - apply relates_ret.
  - apply relates_bind; [apply Hb | intros; apply IH].
Qed.

End Relates.

(** *** The history *)

Lemma history_extends_refl (s : session) : history_extends s s.
Proof. exists []. split; [now rewrite app_nil_r | constructor]. Qed.

Lemma history_extends_trans (s1 s2 s3 : session) :
  history_extends s1 s2 -> history_extends s2 s3 -> history_extends s1 s3.
Proof.
  intros (m1 & E1 & F1) (m2 & E2 & F2). exists (m1 ++ m2)%list. split.
  - now rewrite E2, E1, app_assoc.
  - apply Forall_app. now split.
Qed.

Lemma history_extends_same (s s' : session) :
  task_history s' = task_history s -> history_extends s s'.
Proof.
  intro E. exists []. split; [now rewrite app_nil_r | constructor].
Qed.

Lemma history_assign_current (k : string) (value : Q) :
  relates history_extends (assign_current k value).
Proof.
  intro s. apply history_extends_same. unfold assign_current, state_after.
  now destruct (dict_get k (cells_data s)).
Qed.

Lemma history_update_cell_calculations (k : string) :
  relates history_extends (update_cell_calculations k).
Proof.
  intro s. apply history_extends_same.
  unfold update_cell_calculations, state_after.
  destruct (dict_get k (cells_data s)); [|reflexivity].
  now destruct (update_cell (c, random_state s)) as [o [c' r']].
Qed.

Lemma history_append_started (ts : Z) (key type : string) :
  relates history_extends (append_history (mk_entry ts key type "started")).
Proof.
  intro s. exists [mk_entry ts key type "started"].
  split; [reflexivity | now repeat constructor].
Qed.

Lemma history_random_uniform (a b : Q) :
  relates history_extends (random_uniform a b).
Proof. intro s. now apply history_extends_same. Qed.

(** *** The pool *)

Lemma same_cell_identity_refl (c : cell) : same_cell_identity c c.
Proof. unfold same_cell_identity. now conjs. Qed.

Lemma same_pool_refl (s : session) : same_pool s s.
Proof.
  split; [reflexivity|]. intros k c G. exists c.
  split; [assumption | apply same_cell_identity_refl].
Qed.

Lemma same_pool_trans (s1 s2 s3 : session) :
  same_pool s1 s2 -> same_pool s2 s3 -> same_pool s1 s3.
Proof.
  intros [K1 H1] [K2 H2]. split; [congruence|].
  intros k c G. destruct (H1 k c G) as (c2 & G2 & I2).
  destruct (H2 k c2 G2) as (c3 & G3 & I3).
  exists c3. split; [assumption|].
  unfold same_cell_identity in *. conjs; intuition congruence.
Qed.

Lemma same_pool_same (s s' : session) :
  cells_data s' = cells_data s -> same_pool s s'.
Proof.
  intro E. unfold same_pool. rewrite E. apply same_pool_refl.
Qed.

(** Overwriting the cell under a bound key by one of the same identity. *)
Lemma same_pool_set (k : string) (c c' : cell) (s s' : session) :
  dict_get k (cells_data s) = Some c ->
  same_cell_identity c c' ->
  cells_data s' = dict_set k c' (cells_data s) ->
  same_pool s s'.
Proof.
  intros G Hid E. unfold same_pool. rewrite E. split.
  - now apply (dict_keys_set_bound k _ c).
  - intros k0 c0 G0. destruct (string_dec k k0) as [<-|N].
    + rewrite dict_get_set_same. exists c'. split; [reflexivity|].
      congruence.
    + rewrite dict_get_set_other by assumption.
      exists c0. split; [assumption | apply same_cell_identity_refl].
Qed.

Lemma pool_assign_current (k : string) (value : Q) :
  relates same_pool (assign_current k value).
Proof.
  intro s. unfold assign_current, state_after.
  destruct (dict_get k (cells_data s)) as [c|] eqn:G; cbn [snd].
  - apply (same_pool_set k c (set_current value c)); auto.
    unfold same_cell_identity. conjs; reflexivity.
  - apply same_pool_refl.
Qed.

Lemma pool_update_cell_calculations (k : string) :
  relates same_pool (update_cell_calculations k).
Proof.
  intro s. unfold update_cell_calculations, state_after.
  destruct (dict_get k (cells_data s)) as [c|] eqn:G; cbn [snd];
    [|apply same_pool_refl].
  destruct (update_cell_frame c (random_state s))
    as (_ & Emin & Emax & En & Ec & Ety & _).
  unfold cell_after in *.
  destruct (update_cell (c, random_state s)) as [o [c' r']].
  cbn [fst snd] in *.
  apply (same_pool_set k c c'); auto.
  unfold same_cell_identity. now conjs.
Qed.

(** *** The cursor of the sequencer *)

Lemma same_cursor_refl (s : session) : same_cursor s s.
Proof. unfold same_cursor. now conjs. Qed.

Lemma same_cursor_trans (s1 s2 s3 : session) :
  same_cursor s1 s2 -> same_cursor s2 s3 -> same_cursor s1 s3.
Proof.
  unfold same_cursor. intros (A1 & B1 & C1) (A2 & B2 & C2).
  conjs; congruence.
Qed.

Lemma cursor_assign_current (k : string) (value : Q) :
  relates same_cursor (assign_current k value).
Proof.
  intro s. unfold same_cursor, assign_current, state_after.
  destruct (dict_get k (cells_data s)); now conjs.
Qed.

Lemma cursor_update_cell_calculations (k : string) :
  relates same_cursor (update_cell_calculations k).
Proof.
  intro s. unfold same_cursor, update_cell_calculations, state_after.
  destruct (dict_get k (cells_data s)); [|now conjs].
  destruct (update_cell (c, random_state s)) as [o [c' r']]. now conjs.
Qed.

Lemma cursor_random_uniform (a b : Q) :
  relates same_cursor (random_uniform a b).
Proof. intro s. unfold same_cursor. now conjs. Qed.

Create HintDb relates.

#[local] Hint Resolve history_assign_current history_update_cell_calculations
  history_append_started history_random_uniform
  pool_assign_current pool_update_cell_calculations
  cursor_assign_current cursor_update_cell_calculations cursor_random_uniform
  : relates.

(** The laws of the three relations. *)
Ltac relation_law :=
  first [ exact history_extends_refl | exact history_extends_trans
        | exact same_pool_refl | exact same_pool_trans
        | exact same_cursor_refl | exact same_cursor_trans ].

(** Take a run apart along its binds, branches and loops, for a relation
    between the session before and after. *)
Ltac relates_step :=
  match goal with
  | |- relates _ (bind _ _) =>
      apply relates_bind; [relation_law | | intro]
  | |- relates _ (ret _) => apply relates_ret; relation_law
  | |- relates _ (raise _) => apply relates_raise; relation_law
  | |- relates _ get => apply relates_get; relation_law
  | |- relates _ (lift _) => apply relates_lift; relation_law
  | |- relates history_extends (modify _) =>
      apply relates_modify; intro; apply history_extends_same; reflexivity
  | |- relates same_pool (modify _) =>
      apply relates_modify; intro; apply same_pool_same; reflexivity
  | |- relates same_cursor (modify _) =>
      apply relates_modify; intro; unfold same_cursor; conjs; reflexivity
  | |- relates _ (for_each _ _) =>
      apply relates_for_each; [relation_law | relation_law | intro]
  | |- relates _ (if ?b then _ else _) => destruct b
  | |- relates _ (match ?x with Some _ => _ | None => _ end) => destruct x
  | |- relates _ _ => solve [auto with relates]
  end.

Ltac relates_run := repeat relates_step.

Lemma history_set_all_current (value : Q) :
  relates history_extends (set_all_current value).
Proof. unfold set_all_current, for_each_cell. relates_run. Qed.

Lemma pool_set_all_current (value : Q) :
  relates same_pool (set_all_current value).
Proof. unfold set_all_current, for_each_cell. relates_run. Qed.

#[local] Hint Resolve history_set_all_current pool_set_all_current : relates.

Lemma history_execute_current_task (now : datetime) :
  relates history_extends (execute_current_task now).
Proof.
  unfold execute_current_task, apply_cc_cv_task, apply_idle_task,
    apply_cc_cd_task.
  relates_run.
Qed.

Lemma pool_execute_current_task (now : datetime) :
  relates same_pool (execute_current_task now).
Proof.
  unfold execute_current_task, append_history, apply_cc_cv_task,
    apply_idle_task, apply_cc_cd_task.
  relates_run.
Qed.

#[local] Hint Resolve history_execute_current_task pool_execute_current_task
  : relates.

Lemma history_initialize_cells (types : list string) :
  forall (idx : nat) (cells : dict cell),
    relates history_extends (initialize_cells idx types cells).
Proof.
  induction types as [|ty rest IH]; intros idx cells; cbn [initialize_cells].
  - relates_run.
  - relates_run.
Qed.

Lemma history_handle (e : event) :
  e <> ResetAll -> relates history_extends (handle e).
Proof.
  destruct e; cbn [handle]; intro N; try congruence.
  - unfold click_initialize_cells.
    apply relates_bind; [relation_law | apply history_initialize_cells|].
    intro cells. relates_run.
  - apply history_set_all_current.
  - unfold individual_cell_controls, for_each_cell, individual_cell_control.
    relates_run.
  - unfold save_task_sequence. relates_run.
  - unfold click_start, start_task_sequence. relates_run.
  - unfold click_pause. relates_run.
  - unfold click_stop, stop_all_tasks. relates_run.
  - unfold main_auto_update. relates_run.
Qed.

Lemma pool_handle (e : event) :
  (forall types, e <> InitializeCells types) -> e <> ResetAll ->
  relates same_pool (handle e).
Proof.
  destruct e as [tys|v|f|tasks|now| | |now|]; cbn [handle]; intros N1 N2;
    try congruence; try (exfalso; now apply (N1 tys)).
  - apply pool_set_all_current.
  - unfold individual_cell_controls, for_each_cell, individual_cell_control.
    relates_run.
  - unfold save_task_sequence. relates_run.
  - unfold click_start, start_task_sequence. relates_run.
  - unfold click_pause. relates_run.
  - unfold click_stop, stop_all_tasks. relates_run.
  - unfold main_auto_update. relates_run.
Qed.

(** X15: the task history is append-only: whatever the user or the clock
    does short of "Reset All Data", and whether the handler returns or
    raises, the history afterwards is the history before with entries added
    at its end, each with the status "started". *)
Theorem history_is_append_only (e : event) (s : session) :
  e <> ResetAll ->
  exists more,
    task_history (state_after (handle e s))
    = (task_history s ++ more)%list /\
    Forall (fun entry => h_status entry = "started") more.
Proof. intro N. exact (history_handle e N s). Qed.

Lemma history_is_append_only_witness :
  exists more,
    task_history (state_after (handle (StartTasks (at_second 3))
                                 one_cell_bench))
    = (task_history one_cell_bench ++ more)%list /\
    Forall (fun entry => h_status entry = "started") more.
Proof.
  apply (history_is_append_only (StartTasks (at_second 3)) one_cell_bench).
  discriminate.
Defined.

(** X16: the pool is made once and only moved afterwards: short of
    "Initialize Cells" and "Reset All Data", whatever the user or the clock
    does, and whether the handler returns or raises, the pool keeps its keys
    in their order, and every cell keeps its bounds, its nominal voltage and
    capacity and its type. *)
Theorem pool_keeps_keys_and_bounds (e : event) (s : session) :
  (forall types, e <> InitializeCells types) -> e <> ResetAll ->
  dict_keys (cells_data (state_after (handle e s)))
  = dict_keys (cells_data s) /\
  forall k c, dict_get k (cells_data s) = Some c ->
    exists c',
      dict_get k (cells_data (state_after (handle e s))) = Some c' /\
      min_voltage c' = min_voltage c /\ max_voltage c' = max_voltage c /\
      nominal_voltage c' = nominal_voltage c /\
      nominal_capacity c' = nominal_capacity c /\
      cell_type c' = cell_type c.
Proof. intros N1 N2. exact (pool_handle e N1 N2 s). Qed.

Lemma pool_keeps_keys_and_bounds_witness :
  let s' := state_after (handle (Preset 5) one_cell_bench) in
  dict_keys (cells_data s') = dict_keys (cells_data one_cell_bench) /\
  forall k c, dict_get k (cells_data one_cell_bench) = Some c ->
    exists c',
      dict_get k (cells_data s') = Some c' /\
      min_voltage c' = min_voltage c /\ max_voltage c' = max_voltage c /\
      nominal_voltage c' = nominal_voltage c /\
      nominal_capacity c' = nominal_capacity c /\
      cell_type c' = cell_type c.
Proof.
  intro s'.
  apply (pool_keeps_keys_and_bounds (Preset 5) one_cell_bench); discriminate.
Defined.

(** X17: in every session the dashboard can reach, every entry of the task
    history has the status "started": no other status is ever logged. *)
Theorem reachable_history_all_started (s : session) :
  reachable s ->
  Forall (fun entry => h_status entry = "started") (task_history s).
Proof.
  induction 1 as [seed Hseed | s e _ IH]; [constructor|].
  destruct e;
    try (match goal with
         | |- context [handle ?ev _] =>
             destruct (history_handle ev ltac:(discriminate) s)
               as (more & -> & F);
             apply Forall_app; now split
         end).
  constructor.
Qed.

Lemma reachable_history_all_started_witness :
  Forall (fun entry => h_status entry = "started")
         (task_history
            (state_after (handle (Tick (at_second 10))
               (state_after (handle (StartTasks (at_second 0))
                  one_cell_bench))))).
Proof.
  apply reachable_history_all_started.
  do 2 apply reachable_event. apply one_cell_bench_reachable.
Defined.

(** ** The summary metrics *)

Lemma count_if_le {A} (f : A -> bool) (xs : list A) :
  (count_if f xs <= List.length xs)%nat.
Proof. unfold count_if. apply filter_length_le. Qed.

Lemma count_if_disjoint {A} (f g : A -> bool) (xs : list A) :
  (forall x, f x = true -> g x = false) ->
  (count_if f xs + count_if g xs <= List.length xs)%nat.
Proof.
  intro H. unfold count_if. induction xs as [|x xs IH]; cbn; [lia|].
  destruct (f x) eqn:Ef.
  - rewrite (H x Ef). cbn. lia.
  - destruct (g x); cbn; lia.
Qed.

Lemma count_if_all {A} (f : A -> bool) (xs : list A) :
  Forall (fun x => f x = true) xs -> count_if f xs = List.length xs.
Proof.
  unfold count_if. induction 1 as [|x xs Hx _ IH]; cbn; [reflexivity|].
  rewrite Hx. cbn. now rewrite IH.
Qed.

Lemma count_if_none {A} (f : A -> bool) (xs : list A) :
  Forall (fun x => f x = false) xs -> count_if f xs = 0%nat.
Proof.
  unfold count_if. induction 1 as [|x xs Hx _ IH]; cbn; [reflexivity|].
  now rewrite Hx.
Qed.

Lemma dict_values_length {V} (d : dict V) :
  List.length (dict_values d) = dict_len d.
Proof. unfold dict_values, dict_len. apply length_map. Qed.

Lemma dict_keys_length {V} (d : dict V) :
  List.length (dict_keys d) = dict_len d.
Proof. unfold dict_keys, dict_len. apply length_map. Qed.

(** X18: in the summary of the dashboard no cell is counted twice: the
    cells counted as charging and those counted as discharging together are
    at most the total. *)
Theorem summary_counts_disjoint (s : session) :
  (charging_cells s + discharging_cells s <= total_cells s)%nat.
Proof.
  unfold charging_cells, discharging_cells, total_cells.
  rewrite <- dict_values_length. apply count_if_disjoint.
  intros c H. apply ltb_lt in H. apply ltb_ge. lra.
Qed.

(** X19: a preset button on a pool of well-formed cells with no key bound
    twice returns normally and moves every cell at once: after a preset
    above 0.1 A the summary counts every cell as charging and none as
    discharging, after one below -0.1 A every cell as discharging, and after
    one in between (the 0 A button) none as either; the total is what it
    was. *)
Theorem preset_moves_every_cell (value : Q) (s : session) :
  NoDup (dict_keys (cells_data s)) ->
  dict_all cell_ok (cells_data s) ->
  exists s',
    click_preset value s = (Ok tt, s') /\
    total_cells s' = total_cells s /\
    Forall (fun c => current c = value) (dict_values (cells_data s')) /\
    (0.1 < value ->
     charging_cells s' = total_cells s' /\ discharging_cells s' = 0%nat) /\
    (value < -0.1 ->
     discharging_cells s' = total_cells s' /\ charging_cells s' = 0%nat) /\
    (-0.1 <= value <= 0.1 ->
     charging_cells s' = 0%nat /\ discharging_cells s' = 0%nat).
Proof.
  intros Hn Hok. unfold click_preset.
  destruct (set_all_current_spec cell_ok cell_ok_bounds cell_ok_kept value s Hok)
    as (d & r & E & K & A & C).
  exists (with_pool d r s). split; [exact E|].
  assert (F : Forall (fun c => current c = value) (dict_values d)).
  { apply dict_all_values; [now rewrite K | exact C]. }
  unfold charging_cells, discharging_cells, total_cells.
  cbn [with_pool cells_data set_random_state set_cells_data].
  rewrite <- !dict_values_length.
  assert (L : List.length (dict_values d)
              = List.length (dict_values (cells_data s))).
  { rewrite !dict_values_length, <- !dict_keys_length. now rewrite K. }
  conjs; try assumption.
  - intro Hv. split.
    + apply count_if_all. eapply Forall_impl; [|exact F].
      intros c ->. now apply ltb_lt.
    + apply count_if_none. eapply Forall_impl; [|exact F].
      intros c ->. apply ltb_ge. lra.
  - intro Hv. split.
    + apply count_if_all. eapply Forall_impl; [|exact F].
      intros c ->. now apply ltb_lt.
    + apply count_if_none. eapply Forall_impl; [|exact F].
      intros c ->. apply ltb_ge. lra.
  - intros [H1 H2]. split.
    + apply count_if_none. eapply Forall_impl; [|exact F].
      intros c ->. now apply ltb_ge.
    + apply count_if_none. eapply Forall_impl; [|exact F].
      intros c ->. now apply ltb_ge.
Qed.

Lemma preset_moves_every_cell_witness :
  exists s',
    click_preset 5 one_cell_bench = (Ok tt, s') /\
    total_cells s' = total_cells one_cell_bench /\
    Forall (fun c => current c = 5) (dict_values (cells_data s')) /\
    (0.1 < 5 ->
     charging_cells s' = total_cells s' /\ discharging_cells s' = 0%nat) /\
    (5 < -0.1 ->
     discharging_cells s' = total_cells s' /\ charging_cells s' = 0%nat) /\
    (-0.1 <= 5 <= 0.1 ->
     charging_cells s' = 0%nat /\ discharging_cells s' = 0%nat).
Proof.
  apply (preset_moves_every_cell 5 one_cell_bench).
  - repeat constructor. intros [].
  - apply dict_all_Forall. repeat constructor.
Defined.

Lemma fold_plus_between (lo hi : Q) (xs : list Q) :
  Forall (fun x => lo <= x <= hi) xs ->
  forall a,
    a + steps (List.length xs) * lo <= fold_left Qplus xs a
    <= a + steps (List.length xs) * hi.
Proof.
  induction 1 as [|x xs [Hl Hh] _ IH]; intro a.
  - cbn [fold_left List.length]. change (steps 0) with 0. split; lra.
  - cbn [fold_left List.length]. destruct (IH (a + x)) as [I1 I2].
    pose proof (steps_succ (List.length xs)) as Es.
    split.
    + setoid_replace (steps (S (List.length xs)) * lo)
        with (steps (List.length xs) * lo + lo) by (rewrite Es; ring).
      lra.
    + setoid_replace (steps (S (List.length xs)) * hi)
        with (steps (List.length xs) * hi + hi) by (rewrite Es; ring).
      lra.
Qed.

(** X20: the average temperature of the summary is 0 for an empty pool,
    and for any other pool it lies between any two whole numbers that all
    the cell temperatures lie between; so in every session the dashboard can
    reach it is 0 or lies within [[20, 60]]. *)
Theorem avg_temp_between (s : session) :
  (total_cells s = 0%nat -> avg_temp s = 0) /\
  (forall lo hi : Z,
     Forall (fun c => inject_Z lo <= temp c <= inject_Z hi)
            (dict_values (cells_data s)) ->
     (0 < total_cells s)%nat ->
     inject_Z lo <= avg_temp s <= inject_Z hi) /\
  (reachable s -> (0 < total_cells s)%nat -> 20 <= avg_temp s <= 60).
Proof.
  assert (Between : forall lo hi : Q,
            Forall (fun c => lo <= temp c <= hi)
                   (dict_values (cells_data s)) ->
            (0 < total_cells s)%nat -> lo <= avg_temp s <= hi).
  { intros lo hi F Hn. unfold avg_temp.
    assert (E : (0 <? total_cells s)%nat = true) by now apply Nat.ltb_lt.
    rewrite E. unfold py_sum.
    assert (F' : Forall (fun x => lo <= x <= hi)
                   (map temp (dict_values (cells_data s)))).
    { rewrite Forall_map. exact F. }
    destruct (fold_plus_between lo hi _ F' 0) as [H1 H2].
    rewrite length_map, dict_values_length in H1, H2.
    fold (total_cells s) in H1, H2. fold (steps (total_cells s)).
    assert (Hp : 0 < steps (total_cells s)).
    { unfold steps. change 0 with (inject_Z 0). rewrite <- Zlt_Qlt. lia. }
    split.
    - apply Qle_shift_div_l; [exact Hp | lra].
    - apply Qle_shift_div_r; [exact Hp | lra]. }
  conjs.
  - unfold avg_temp. intros ->. reflexivity.
  - intros lo hi. apply Between.
  - intros Hr. apply Between.
    destruct (reachable_session_sound s Hr) as (Hnd & Hall & _).
    apply dict_all_values in Hall; [|exact Hnd].
    revert Hall. apply Forall_impl. intros c Hc. apply Hc.
Qed.

(** ** Rows of cards *)

Lemma firstn_add {A} (a b : nat) (l : list A) :
  firstn (a + b) l = (firstn a l ++ firstn b (skipn a l))%list.
Proof.
  revert l. induction a as [|a IH]; intro l; [reflexivity|].
  destruct l as [|x l]; cbn.
  - now rewrite firstn_nil.
  - now rewrite IH.
Qed.

Lemma slice_row {A} (xs : list A) (i per_row : nat) :
  slice xs i (i + per_row) = firstn per_row (skipn i xs).
Proof. unfold slice. now replace (i + per_row - i)%nat with per_row by lia. Qed.

Lemma rows_concat_prefix {A} (per_row : nat) (xs : list A) (m : nat) :
  List.concat (map (fun i => slice xs i (i + per_row))
              (map (fun k => (k * per_row)%nat) (seq 0 m)))
  = firstn (m * per_row) xs.
Proof.
  induction m as [|m IH]; [reflexivity|].
  rewrite seq_S, !map_app, concat_app, IH. cbn [map List.concat plus].
  rewrite app_nil_r, slice_row.
  replace (S m * per_row)%nat with (m * per_row + per_row)%nat by lia.
  now rewrite firstn_add.
Qed.

Lemma rows_count_covers (n per_row : nat) :
  (0 < per_row)%nat ->
  let m := ((n + per_row - 1) / per_row)%nat in
  (n <= m * per_row)%nat /\ (forall k, (k < m)%nat -> (k * per_row < n)%nat).
Proof.
  intros Hp m.
  pose proof (Nat.div_mod_eq (n + per_row - 1) per_row) as E.
  pose proof (Nat.mod_upper_bound (n + per_row - 1) per_row ltac:(lia)) as B.
  fold m in E. split.
  - nia.
  - intros k Hk. nia.
Qed.

(** X21: the cards, and the controls of the control panel, are laid out in
    rows of [per_row] (4 in the code): the rows, one after the other, are
    the list itself, every row holds at least one and at most [per_row]
    entries (so no row asks for zero columns), and there are
    [ceil(n / per_row)] rows. *)
Theorem rows_partition_the_list {A} (per_row : nat) (xs : list A) :
  (0 < per_row)%nat ->
  List.concat (rows_of per_row xs) = xs /\
  Forall (fun row => (1 <= List.length row <= per_row)%nat)
         (rows_of per_row xs) /\
  List.length (rows_of per_row xs)
  = ((List.length xs + per_row - 1) / per_row)%nat.
Proof.
  intro Hp. unfold rows_of, range_by.
  destruct (rows_count_covers (List.length xs) per_row Hp) as [Hc Hk].
  set (m := ((List.length xs + per_row - 1) / per_row)%nat) in *.
  conjs.
  - rewrite rows_concat_prefix. now apply firstn_all2.
  - rewrite !Forall_map. apply Forall_forall. intros k Hin.
    apply in_seq in Hin. rewrite slice_row.
    rewrite length_firstn, length_skipn.
    specialize (Hk k ltac:(lia)). lia.
  - now rewrite !length_map, length_seq.
Qed.

Lemma rows_partition_the_list_witness :
  let xs := [1; 2; 3; 4; 5; 6; 7; 8; 9]%nat in
  List.concat (rows_of 4 xs) = xs /\
  Forall (fun row => (1 <= List.length row <= 4)%nat) (rows_of 4 xs) /\
  List.length (rows_of 4 xs) = ((List.length xs + 4 - 1) / 4)%nat.
Proof.
  intro xs. apply (rows_partition_the_list 4 xs). lia.
Defined.

(** ** The control panel left alone *)

Lemma for_each_noop {St A} (xs : list A) (body : A -> M St unit) (s : St) :
  (forall x, In x xs -> body x s = (Ok tt, s)) ->
  for_each xs body s = (Ok tt, s).
Proof.
  induction xs as [|x xs IH]; intro H; cbn [for_each]; [reflexivity|].
  unfold bind. rewrite (H x (or_introl eq_refl)).
  apply IH. intros y Hy. apply H. now right.
Qed.

(** X22: drawing the individual controls of the control panel changes
    nothing as long as the number input of every cell hands back the value
    it was given: no current is set, no cell is updated, no random number
    drawn.  Streamlit's number input does so for a cell whose current lies
    within its bounds and whose widget was not touched. *)
Theorem untouched_controls_change_nothing
    (number_input : Q -> Q -> Q -> string -> result Q) (s : session) :
  (forall k c, dict_get k (cells_data s) = Some c ->
     exists v,
       number_input (-10.0) 10.0 (current c) ("current_" ++ k) = Ok v /\
       v == current c) ->
  individual_cell_controls number_input s = (Ok tt, s).
Proof.
  intro H. unfold individual_cell_controls, for_each_cell, bind at 1, get.
  apply for_each_noop. intros k Hk.
  destruct (dict_key_bound k _ Hk) as [c G].
  destruct (H k c G) as (v & E & Ev).
  unfold individual_cell_control, bind at 1, get. rewrite G.
  unfold bind, lift. rewrite E. unfold Py.neqb.
  apply Qeq_bool_iff in Ev. now rewrite Ev.
Qed.

Lemma untouched_controls_change_nothing_witness :
  individual_cell_controls (st_number_input (fun _ => None)) one_cell_bench
  = (Ok tt, one_cell_bench).
Proof.
  apply (untouched_controls_change_nothing
           (st_number_input (fun _ => None)) one_cell_bench).
  intros k c G. exists (current c). split; [|reflexivity].
  assert (Ec : c = bench_cell).
  { unfold one_cell_bench in G. cbn [cells_data dict_get] in G.
    destruct (String.eqb k "cell_1_lfp"); [congruence | discriminate]. }
  subst c. reflexivity.
Defined.

(** ** The page shown *)

(** X23: of the branches at the end of [main()], the three that warn
    "Please complete setup first" can never run: until the setup is complete
    every page shows the setup form, and afterwards the pages show their own
    content. *)
Theorem setup_warning_is_dead (page : string) (s : session) :
  main_content page s <> ShowSetupWarning /\
  (setup_complete s = false -> main_content page s = ShowSetup) /\
  (setup_complete s = true -> page = "Dashboard" ->
   main_content page s = ShowDashboard).
Proof.
  unfold main_content. conjs.
  - destruct (setup_complete s); cbn;
      destruct (String.eqb page "Setup"); cbn; try discriminate;
      destruct (String.eqb page "Dashboard"); try discriminate;
      destruct (String.eqb page "Control Panel"); try discriminate;
      destruct (String.eqb page "Tasks"); try discriminate;
      destruct (String.eqb page "Analytics"); discriminate.
  - intros ->. cbn. now rewrite orb_true_r.
  - intros -> ->. reflexivity.
Qed.

(** * The command-line script *)

Module CellProcessFacts.

Import CellProcess.

Section Parsers.

Variable py_int : string -> option Z.
Variable py_float : string -> option Q.

Lemma and_then_returned {A B} (m : IO A) (k : A -> IO B)
    (stdin rest : list string) (b : B) :
  and_then m k stdin = (Returned b, rest) ->
  exists a mid, m stdin = (Returned a, mid) /\ k a mid = (Returned b, rest).
Proof.
  unfold and_then. destruct (m stdin) as [[a|e] mid]; [|discriminate].
  intro H. now exists a, mid.
Qed.

(** Take a run of the script apart, one read at a time. *)
Ltac read_steps H :=
  repeat (apply and_then_returned in H;
          let a := fresh "a" in
          let mid := fresh "mid" in
          destruct H as (a & mid & _ & H)).

Lemma read_task_type (stdin rest : list string) (task : string)
    (data : task_data) :
  read_task py_int py_float stdin = (Returned (task, data), rest) ->
  data_type data = type_of_task task /\
  exists line, hd_error stdin = Some line /\ task = Py.upper line.
Proof.
  intro H. unfold read_task in H.
  apply and_then_returned in H. destruct H as (line & mid & Hin & H).
  assert (Hl : hd_error stdin = Some line).
  { unfold input in Hin. destruct stdin; [discriminate|].
    now injection Hin as -> _. }
  unfold type_of_task.
  destruct (String.eqb (Py.upper line) "CC_CV" || String.eqb (Py.upper line) "CCCV")
    eqn:E1; [|destruct (String.eqb (Py.upper line) "IDLE") eqn:E2;
              [|destruct (String.eqb (Py.upper line) "CC_CD") eqn:E3]];
    read_steps H; unfold pure in H; injection H as <- <- <-;
    rewrite ?E1, ?E2, ?E3; (split; [reflexivity | exists line; now split]).
Qed.

Lemma read_tasks_shape (count : nat) :
  forall (i : nat) (lt : list string) (td : dict task_data)
         (stdin rest : list string) (lt' : list string)
         (td' : dict task_data),
    read_tasks py_int py_float count i lt td stdin
    = (Returned (lt', td'), rest) ->
    List.length lt = i ->
    (forall j, (i <= j)%nat -> dict_get (task_key_of j) td = None) ->
    List.length lt' = (i + count)%nat /\
    dict_len td' = (dict_len td + count)%nat /\
    (forall j, (j < i)%nat ->
       nth_error lt' j = nth_error lt j /\
       dict_get (task_key_of j) td' = dict_get (task_key_of j) td) /\
    (forall j, (i <= j < i + count)%nat ->
       exists task data,
         nth_error lt' j = Some task /\
         dict_get (task_key_of j) td' = Some data /\
         data_type data = type_of_task task) /\
    (forall j, (i + count <= j)%nat ->
       dict_get (task_key_of j) td' = None).
Proof.
  induction count as [|count IH]; intros i lt td stdin rest lt' td' H Hl Hf.
  - cbn in H. injection H as <- <- <-. conjs.
    + lia.
    + lia.
    + intros j Hj. split; reflexivity.
    + intros j Hj. lia.
    + intros j Hj. apply Hf. lia.
  - cbn [read_tasks] in H. unfold and_then at 1 in H.
    destruct (read_task py_int py_float stdin) as [[[task data]|e] rest1]
      eqn:Er; [|discriminate].
    apply read_task_type in Er. destruct Er as [Et _].
    apply IH in H.
    + destruct H as (L & D & Old & New & Free).
      rewrite dict_set_fresh in D by (apply Hf; lia).
      unfold dict_len in D. rewrite length_app in D. cbn in D.
      conjs.
      * lia.
      * unfold dict_len. lia.
      * intros j Hj. destruct (Old j ltac:(lia)) as [O1 O2]. split.
        -- rewrite O1. apply nth_error_app1. lia.
        -- rewrite O2. apply dict_get_set_other.
           intro E. apply task_key_of_inj in E. lia.
      * intros j Hj. destruct (Nat.eq_dec j i) as [->|N].
        -- destruct (Old i ltac:(lia)) as [O1 O2].
           exists task, data. conjs.
           ++ rewrite O1, nth_error_app2 by lia.
              now rewrite Hl, Nat.sub_diag.
           ++ rewrite O2. apply dict_get_set_same.
           ++ exact Et.
        -- apply New. lia.
      * intros j Hj. apply Free. lia.
    + rewrite length_app. cbn. lia.
    + intros j Hj. rewrite dict_get_set_other.
      * apply Hf. lia.
      * intro E. apply task_key_of_inj in E. lia.
Qed.

(** X24: whenever [process_task()] returns, the first line typed was the
    number of tasks, the list of types and the dictionary both have that
    many entries, and for every index below it the dictionary holds under
    [task_(j+1)] an entry whose type is the one recorded for the [j]-th type
    typed: CC_CV for "CC_CV" and for "CCCV", IDLE, CC_CD, and INVALID for
    anything else. *)
Theorem process_task_shape
    (stdin rest : list string) (list_task : list string)
    (task_dict : dict task_data) :
  process_task py_int py_float stdin = (Returned (list_task, task_dict), rest) ->
  exists first n,
    hd_error stdin = Some first /\ py_int first = Some n /\
    List.length list_task = Z.to_nat n /\
    dict_len task_dict = Z.to_nat n /\
    (forall j, (j < Z.to_nat n)%nat ->
       exists task data,
         nth_error list_task j = Some task /\
         dict_get (task_key_of j) task_dict = Some data /\
         data_type data = type_of_task task) /\
    (forall j, (Z.to_nat n <= j)%nat ->
       dict_get (task_key_of j) task_dict = None).
Proof.
  intro H. unfold process_task, input_int in H.
  apply and_then_returned in H. destruct H as (n & mid & Hn & H).
  apply and_then_returned in Hn. destruct Hn as (first & mid0 & Hf & Hn).
  unfold input in Hf. destruct stdin as [|l stdin]; [discriminate|].
  injection Hf as -> ->.
  unfold to_int in Hn. destruct (py_int first) as [z|] eqn:Ez;
    [|discriminate]. unfold pure in Hn. injection Hn as -> ->.
  apply read_tasks_shape in H; [|reflexivity|reflexivity].
  destruct H as (L & D & _ & New & Free).
  exists first, n. cbn in D. conjs; auto.
  - intros j Hj. apply New. lia.
Qed.

Lemma read_task_invalid (line : string) (stdin : list string) :
  type_of_task (Py.upper line) = "INVALID" ->
  read_task py_int py_float (line :: stdin)
  = (Returned (Py.upper line, Data_INVALID "Unknown task type"), stdin).
Proof.
  unfold type_of_task, read_task, and_then, input.
  destruct (String.eqb (Py.upper line) "CC_CV" || String.eqb (Py.upper line) "CCCV");
    [discriminate|].
  destruct (String.eqb (Py.upper line) "IDLE"); [discriminate|].
  destruct (String.eqb (Py.upper line) "CC_CD"); [discriminate|].
  reflexivity.
Qed.

Lemma read_tasks_invalid (rest lines : list string) :
  Forall (fun line => type_of_task (Py.upper line) = "INVALID") lines ->
  forall (i : nat) (lt : list string) (td : dict task_data),
  exists td',
    read_tasks py_int py_float (List.length lines) i lt td
               (lines ++ rest)%list
    = (Returned ((lt ++ map Py.upper lines)%list, td'), rest).
Proof.
  induction 1 as [|line lines Hl _ IH]; intros i lt td.
  - exists td. cbn. now rewrite app_nil_r.
  - cbn [List.length read_tasks app]. unfold and_then at 1.
    rewrite (read_task_invalid line _ Hl).
    destruct (IH (S i) (lt ++ [Py.upper line])%list
                (dict_set (task_key_of i)
                   (Data_INVALID "Unknown task type") td)) as [td' E].
    exists td'. rewrite E. cbn [map]. now rewrite <- app_assoc.
Qed.

(** X25: types the script does not know never stop it: when the lines after
    the count are as many as the count says and none is CC_CV, CCCV, IDLE
    or CC_CD in any case (the digits 1, 2, 3 of the prompt are not),
    [process_task()] returns, having read one line per task and nothing
    beyond, with the types in upper case in the list and an INVALID entry
    under every key. *)
Theorem unknown_types_are_recorded
    (count_line : string) (n : Z) (lines rest : list string) :
  py_int count_line = Some n ->
  Z.to_nat n = List.length lines ->
  Forall (fun line => type_of_task (Py.upper line) = "INVALID") lines ->
  exists task_dict,
    process_task py_int py_float (count_line :: lines ++ rest)%list
    = (Returned (map Py.upper lines, task_dict), rest) /\
    dict_len task_dict = List.length lines /\
    forall j, (j < List.length lines)%nat ->
      exists data, dict_get (task_key_of j) task_dict = Some data /\
                   data_type data = "INVALID".
Proof.
  intros Hn Hc Hl.
  destruct (read_tasks_invalid rest lines Hl 0 [] []) as [td E].
  assert (P : process_task py_int py_float (count_line :: lines ++ rest)%list
              = (Returned (map Py.upper lines, td), rest)).
  { unfold process_task, input_int, and_then, input, to_int. rewrite Hn.
    unfold pure. rewrite Hc. exact E. }
  exists td. split; [exact P|].
  apply read_tasks_shape in E; [|reflexivity|reflexivity].
  destruct E as (L & D & _ & New & _). split; [exact D|].
  intros j Hj. destruct (New j ltac:(lia)) as (task & data & N1 & N2 & N3).
  exists data. split; [exact N2|]. rewrite N3.
  cbn [app] in N1. apply nth_error_In, in_map_iff in N1.
  destruct N1 as (line & <- & Hin).
  rewrite Forall_forall in Hl. now apply Hl.
Qed.

End Parsers.

Lemma process_task_shape_witness :
  let stdin := ["2"; "cccv"; "5A"; "4.0"; "2.0"; "10"; "300"; "idle"; "60"] in
  let list_task := ["CCCV"; "IDLE"] in
  let task_dict := [("task_1", Data_CC_CV "5A" 2 2 2 300);
                    ("task_2", Data_IDLE 60)] in
  exists first n,
    hd_error stdin = Some first /\
    decimal_int first = Some n /\
    List.length list_task = Z.to_nat n /\
    dict_len task_dict = Z.to_nat n /\
    (forall j, (j < Z.to_nat n)%nat ->
       exists task data,
         nth_error list_task j = Some task /\
         dict_get (task_key_of j) task_dict = Some data /\
         data_type data = type_of_task task) /\
    (forall j, (Z.to_nat n <= j)%nat ->
       dict_get (task_key_of j) task_dict = None).
Proof.
  intros stdin list_task task_dict.
  apply (process_task_shape decimal_int (fun _ => Some 2) stdin []).
  reflexivity.
Defined.

Lemma unknown_types_are_recorded_witness :
  exists task_dict,
    process_task decimal_int (fun _ => Some 2) ("2" :: ["1"; "rest"] ++ ["x"])%list
    = (Returned (map Py.upper ["1"; "rest"], task_dict), ["x"]) /\
    dict_len task_dict = 2%nat /\
    forall j, (j < 2)%nat ->
      exists data, dict_get (task_key_of j) task_dict = Some data /\
                   data_type data = "INVALID".
Proof.
  apply (unknown_types_are_recorded decimal_int (fun _ => Some 2)
           "2" 2 ["1"; "rest"] ["x"]).
  - reflexivity.
  - reflexivity.
  - repeat constructor.
Defined.

(** X26: the script knows one chemistry by name: a cell typed exactly "lfp"
    gets the bounds and, as its voltage, the nominal voltage of the LFP row
    of the dashboard's table, and a cell of any other type, "LFP" in upper
    case included, those of the NMC row; either way the cell is at rest,
    with its voltage strictly within its bounds and, for a random number of
    the unit interval, a temperature in [[25, 40]]. *)
Theorem script_cell_matches_table (cell_type : string) (x : Q) :
  0 <= x <= 1 ->
  let c := make_cell cell_type x in
  let row := get_cell_specs
               (if String.eqb cell_type "lfp" then "lfp" else "nmc") in
  sc_voltage c = spec_nominal_voltage row /\
  sc_min_voltage c = spec_min_voltage row /\
  sc_max_voltage c = spec_max_voltage row /\
  sc_min_voltage c < sc_voltage c < sc_max_voltage c /\
  sc_current c = 0.0 /\ sc_capacity c == 0 /\
  25 <= sc_temp c <= 40.
Proof.
  intros Hx c row. subst c row. unfold make_cell.
  destruct (String.eqb cell_type "lfp");
    cbn [sc_voltage sc_min_voltage sc_max_voltage sc_current sc_capacity
         sc_temp];
    (conjs; try reflexivity;
     try (apply round_zero; ring);
     try (apply initial_temp_in_range; exact Hx)).
Qed.

Lemma script_cell_matches_table_witness :
  let c := make_cell "LFP" 0.5 in
  let row := get_cell_specs "nmc" in
  sc_voltage c = spec_nominal_voltage row /\
  sc_min_voltage c = spec_min_voltage row /\
  sc_max_voltage c = spec_max_voltage row /\
  sc_min_voltage c < sc_voltage c < sc_max_voltage c /\
  sc_current c = 0.0 /\ sc_capacity c == 0 /\
  25 <= sc_temp c <= 40.
Proof.
  apply (script_cell_matches_table "LFP" 0.5). split; discriminate.
Defined.

End CellProcessFacts.

(** * The progress bar of the task page *)

Lemma cursor_set_all_current (value : Q) :
  relates same_cursor (set_all_current value).
Proof. unfold set_all_current, for_each_cell. relates_run. Qed.

Lemma cursor_initialize_cells (types : list string) :
  forall (idx : nat) (cells : dict cell),
    relates same_cursor (initialize_cells idx types cells).
Proof.
  induction types as [|ty rest IH]; intros idx cells; cbn [initialize_cells].
  - relates_run.
  - relates_run.
Qed.

(** The part of [execute_current_task()] that runs the task found. *)
Lemma cursor_run_task (now : datetime) (key : string) (found : option task) :
  relates same_cursor
    (match found with
     | None => raise (KeyError "task_type")
     | Some task_data =>
         (if String.eqb (task_type task_data) "CC_CV" then
            apply_cc_cv_task task_data
          else if String.eqb (task_type task_data) "IDLE" then
            apply_idle_task task_data
          else if String.eqb (task_type task_data) "CC_CD" then
            apply_cc_cd_task task_data
          else ret tt) ;;
         append_history
           (mk_entry (now / 1000000) key (task_type task_data) "started")
     end).
Proof.
  pose proof cursor_set_all_current as H.
  unfold append_history, apply_cc_cv_task, apply_idle_task, apply_cc_cd_task.
  relates_run; apply H.
Qed.

Lemma cursor_execute_current_task (now : datetime) (s : session) :
  (current_task_index s < dict_len (tasks_data s))%nat ->
  same_cursor s (state_after (execute_current_task now s)).
Proof.
  intro Hlt. unfold execute_current_task, bind at 1, get.
  apply Nat.leb_gt in Hlt. rewrite Hlt.
  apply (cursor_run_task now (task_key_of (current_task_index s))
           (dict_get (task_key_of (current_task_index s)) (tasks_data s)) s).
Qed.

Lemma cursor_inside_same (s s' : session) :
  same_cursor s s' -> cursor_inside s -> cursor_inside s'.
Proof.
  unfold same_cursor, cursor_inside. intros (A & B & C) H R.
  rewrite B, C. apply H. congruence.
Qed.

Lemma cursor_inside_stopped (s : session) :
  task_running s = false -> cursor_inside s.
Proof. unfold cursor_inside. congruence. Qed.

Lemma cursor_inside_handle (e : event) (s : session) :
  (forall tasks, e <> SaveTasks tasks) ->
  cursor_inside s -> cursor_inside (state_after (handle e s)).
Proof.
  destruct e as [tys|v|f|tasks|now| | |now|]; cbn [handle]; intros N H.
  - apply (cursor_inside_same s); [|exact H].
    clear H. revert s. change (relates same_cursor (click_initialize_cells tys)).
    unfold click_initialize_cells.
    apply relates_bind; [relation_law | apply cursor_initialize_cells|].
    intro cells. relates_run.
  - apply (cursor_inside_same s); [|exact H].
    apply cursor_set_all_current.
  - apply (cursor_inside_same s); [|exact H].
    clear H. revert s. change (relates same_cursor (individual_cell_controls f)).
    unfold individual_cell_controls, for_each_cell, individual_cell_control.
    relates_run.
  - exfalso. now apply (N tasks).
  - unfold click_start, bind at 1, get.
    destruct (task_controls_shown s && negb (task_running s)); [|exact H].
    unfold start_task_sequence, bind at 1, get.
    destruct (dict_len (tasks_data s) =? 0)%nat eqn:E; [exact H|].
    apply Nat.eqb_neq in E.
    unfold bind at 1, modify at 1. unfold bind at 1, modify at 1.
    unfold bind at 1, modify at 1.
    set (s1 := set_task_start_time (Some now)
                 (set_current_task_index 0 (set_task_running true s))).
    apply (cursor_inside_same s1).
    + apply cursor_execute_current_task. subst s1.
      cbn [current_task_index tasks_data set_task_start_time
           set_current_task_index set_task_running]. lia.
    + intros _. subst s1.
      cbn [current_task_index tasks_data set_task_start_time
           set_current_task_index set_task_running]. lia.
  - unfold click_pause, bind, get, modify.
    destruct (task_controls_shown s && task_running s); [|exact H].
    now apply cursor_inside_stopped.
  - unfold click_stop, bind at 1, get.
    destruct (task_controls_shown s); [|exact H].
    unfold stop_all_tasks, bind at 1, modify at 1.
    unfold bind at 1, modify at 1.
    apply (cursor_inside_same
             (set_current_task_index 0 (set_task_running false s))).
    + apply cursor_set_all_current.
    + now apply cursor_inside_stopped.
  - unfold main_auto_update, bind at 1, get.
    destruct (task_running s) eqn:R; [|exact H].
    destruct (task_start_time s) as [started|]; [|exact H].
    match goal with
    | |- context [(?d <=? ?el)%Z] => destruct (d <=? el)%Z
    end; [|exact H].
    unfold bind at 1, modify at 1. unfold bind at 1, modify at 1.
    unfold bind at 1, get.
    set (s1 := set_task_start_time (Some now)
                 (set_current_task_index (current_task_index s + 1) s)).
    destruct (dict_len (tasks_data s1) <=? current_task_index s1)%nat eqn:E.
    + unfold bind, modify. now apply cursor_inside_stopped.
    + apply Nat.leb_gt in E. apply (cursor_inside_same s1).
      * now apply cursor_execute_current_task.
      * intros _. exact E.
  - unfold click_reset, modify. now apply cursor_inside_stopped.
Qed.

Lemma progress_of_cursor_inside (s : session) :
  cursor_inside s -> task_running s = true -> 0 < task_progress s <= 1.
Proof.
  intros H R. specialize (H R). unfold task_progress.
  set (n := current_task_index s) in *.
  set (m := dict_len (tasks_data s)) in *. clearbody n m.
  assert (Hm : 0 < inject_Z (Z.of_nat m)).
  { change 0 with (inject_Z 0). rewrite <- Zlt_Qlt. lia. }
  split.
  - apply Qlt_shift_div_l; [exact Hm|]. rewrite Qmult_0_l.
    change 0 with (inject_Z 0). rewrite <- Zlt_Qlt. lia.
  - apply Qle_shift_div_r; [exact Hm|]. rewrite Qmult_1_l.
    rewrite <- Zle_Qle. lia.
Qed.

(** X27: while a sequence runs its cursor stays on a task of the saved
    sequence, whatever the user or the clock does short of saving a
    sequence, and whether the handler returns or raises; the progress bar
    of the task page, drawn only while a sequence runs, then gets a value
    in [(0, 1]]. *)
Theorem running_cursor_stays_inside (e : event) (s : session) :
  (forall tasks, e <> SaveTasks tasks) ->
  cursor_inside s ->
  let s' := state_after (handle e s) in
  cursor_inside s' /\
  (task_running s' = true -> 0 < task_progress s' <= 1).
Proof.
  intros N H s'. assert (H' : cursor_inside s').
  { now apply cursor_inside_handle. }
  split; [exact H'|]. now apply progress_of_cursor_inside.
Qed.

Lemma running_cursor_stays_inside_witness :
  let s := state_after (handle (StartTasks (at_second 0)) one_cell_bench) in
  let s' := state_after (handle (Tick (at_second 10)) s) in
  cursor_inside s' /\
  (task_running s' = true -> 0 < task_progress s' <= 1).
Proof.
  intros s.
  apply (running_cursor_stays_inside (Tick (at_second 10)) s).
  - discriminate.
  - intros _. vm_compute. lia.
Defined.

(** X28: saving is the exception: when a sequence is saved while another
    runs, the cursor stays where it was; if the new sequence is not empty
    and has no task at the cursor, the run goes on, the controls of the task
    page are drawn, and the progress bar gets a value above 1. *)
Theorem saving_during_a_run_overflows_progress
    (tasks : list task) (s : session) :
  setup_complete s = true ->
  task_running s = true ->
  tasks <> [] ->
  (List.length tasks <= current_task_index s)%nat ->
  let s' := state_after (handle (SaveTasks tasks) s) in
  task_controls_shown s' = true /\
  task_running s' = true /\
  current_task_index s' = current_task_index s /\
  ~ cursor_inside s' /\
  1 < task_progress s'.
Proof.
  intros Hs Hr Hne Hlen s'. subst s'.
  cbn [handle]. unfold save_task_sequence, bind, get, modify, state_after.
  rewrite Hs. cbn [snd].
  unfold task_controls_shown, cursor_inside, task_progress.
  cbn [setup_complete tasks_data task_running current_task_index
       set_tasks_data].
  rewrite Hs, Hr, task_sequence_len.
  assert (Hpos : (0 < List.length tasks)%nat).
  { destruct tasks; [congruence | cbn; lia]. }
  conjs.
  - destruct (List.length tasks =? 0)%nat eqn:E; [|reflexivity].
    apply Nat.eqb_eq in E. lia.
  - reflexivity.
  - reflexivity.
  - intro C. specialize (C eq_refl). lia.
  - set (n := current_task_index s) in *.
    set (m := List.length tasks) in *. clearbody n m.
    assert (Hm : 0 < inject_Z (Z.of_nat m)).
    { change 0 with (inject_Z 0). rewrite <- Zlt_Qlt. lia. }
    apply Qlt_shift_div_l; [exact Hm|]. rewrite Qmult_1_l.
    rewrite <- Zlt_Qlt. lia.
Qed.

Lemma saving_during_a_run_overflows_progress_witness :
  let s := state_after
             (handle (Tick (at_second 10))
                (state_after
                   (handle (StartTasks (at_second 0)) one_cell_bench))) in
  let s' := state_after (handle (SaveTasks [IDLE 5]) s) in
  task_controls_shown s' = true /\
  task_running s' = true /\
  current_task_index s' = current_task_index s /\
  ~ cursor_inside s' /\
  1 < task_progress s'.
Proof.
  intros s.
  apply (saving_during_a_run_overflows_progress [IDLE 5] s).
  - reflexivity.
  - reflexivity.
  - discriminate.
  - vm_compute. lia.
Defined.
